(** * NMS straight-line planner: the planning model of [src/App.jsx]

    The component [App] keeps five pieces of state ([radius], [start], [end],
    [numCheckpoints], [done]) and derives from them the checkpoint list
    [linePoints], the progress figure [progress] and the pointer
    [currentPoint].  It persists the state in [localStorage] and exchanges it
    as a JSON document.  This file embeds those computations and states the
    properties the specification gives for them.

    Numbers.  A JavaScript number is an IEEE 754 binary64 value; Rocq's
    primitive [float] is the same format with the same rounding, so the
    arithmetic of the source is run on [float].  The derived computations are
    written once, over an interface [Arith] of the four operations they use,
    and read at two instances: [binary64] (what the engine computes) and
    [exact] (the real numbers the specification speaks of).  Loop counters,
    array lengths and the checkpoint count are integers; binary64 holds every
    integer below 2^53 exactly, so they are kept in [Z] and [nat] and enter
    the arithmetic through [of_int]. *)

From Stdlib Require Import String Ascii ZArith List Bool Lia.
From Stdlib Require Import Floats Reals Lra.
From Stdlib Require Import DecimalString.
Import ListNotations.

Set Warnings "-inexact-float,-register-all".

(* ------------------------------------------------------------------ *)
(** ** Numbers *)

Class Arith (num : Type) : Type := {
  add : num -> num -> num;
  sub : num -> num -> num;
  mul : num -> num -> num;
  div : num -> num -> num;
  of_int : Z -> num
}.

Declare Scope js_scope.
Delimit Scope js_scope with js.
Infix "+" := add : js_scope.
Infix "-" := sub : js_scope.
Infix "*" := mul : js_scope.
Infix "/" := div : js_scope.

(** The binary64 value of an integer, rounded to nearest (ties to even) when
    it does not fit 53 bits, as a numeric literal or [length] is. *)
Definition Z2F (z : Z) : float :=
  SF2Prim (binary_normalize prec emax z 0 false).

#[export] Instance binary64 : Arith float := {|
  add := PrimFloat.add;
  sub := PrimFloat.sub;
  mul := PrimFloat.mul;
  div := PrimFloat.div;
  of_int := Z2F
|}.

#[export] Instance exact : Arith R := {|
  add := Rplus;
  sub := Rminus;
  mul := Rmult;
  div := Rdiv;
  of_int := IZR
|}.

(* ------------------------------------------------------------------ *)
(** ** Utility functions and the checkpoint list *)

Section PathModel.

Context {num : Type} `{Arith num}.

(** [function lerp(a, b, t) { return a + (b - a) * t; }] *)
Definition lerp (a b t : num) : num := (a + (b - a) * t)%js.

(** A three-element array [[x, y, z]]. *)
Record vec3 : Type := Vec3 { c0 : num; c1 : num; c2 : num }.

(** [function lerpVec(a, b, t)] *)
Definition lerpVec (a b : vec3) (t : num) : vec3 :=
  Vec3 (lerp (c0 a) (c0 b) t) (lerp (c1 a) (c1 b) t) (lerp (c2 a) (c2 b) t).

(** An element [{ x, y, z, t }] of [linePoints]. *)
Record point : Type := Point { x : num; y : num; z : num; t : num }.

Definition position (p : point) : vec3 := Vec3 (x p) (y p) (z p).

(** The body of the loop of [linePoints], for the counter value [i]. *)
Definition checkpoint (start end_ : vec3) (numCheckpoints i : Z) : point :=
  let t := (of_int i / of_int numCheckpoints)%js in
  let v := lerpVec start end_ t in
  Point (c0 v) (c1 v) (c2 v) t.

(** [for (let i = 0; i <= numCheckpoints; i++) { ...; pts.push({x,y,z,t}) }]
    with the counter [i] and the array [pts] passed along.  [fuel] bounds
    the number of iterations; the loop leaves through its test. *)
Fixpoint linePoints_loop (fuel : nat) (start end_ : vec3)
    (numCheckpoints i : Z) (pts : list point) : list point :=
  match fuel with
  | O => pts
  | S fuel' =>
      if (i <=? numCheckpoints)%Z
      then linePoints_loop fuel' start end_ numCheckpoints (i + 1)%Z
             (pts ++ [checkpoint start end_ numCheckpoints i])
      else pts
  end.

(** The memoised value [linePoints]. *)
Definition linePoints (start end_ : vec3) (numCheckpoints : Z) : list point :=
  linePoints_loop (Z.to_nat (numCheckpoints + 1)) start end_ numCheckpoints 0 [].

End PathModel.

Arguments vec3 : clear implicits.
Arguments point : clear implicits.

(* ------------------------------------------------------------------ *)
(** ** Progress flags *)

(** [out[i] = v] on an array of flags: a store inside the array replaces the
    element; a store past the end grows the array, the holes it leaves read
    as [undefined], which every reader of [done] treats as [false]. *)
Fixpoint array_set (out : list bool) (i : nat) (v : bool) : list bool :=
  match out, i with
  | [], O => [v]
  | [], S i' => false :: array_set [] i' v
  | _ :: out', O => v :: out'
  | b :: out', S i' => b :: array_set out' i' v
  end.

(** [prev[i]]; reading past the end gives [undefined], falsy. *)
Definition array_get (prev : list bool) (i : nat) : bool := nth i prev false.

(** [for (let i = 0; i < Math.min(prev.length, n); i++) out[i] = prev[i];] *)
Fixpoint reconcile_loop (fuel : nat) (prev : list bool) (n i : nat)
    (out : list bool) : list bool :=
  match fuel with
  | O => out
  | S fuel' =>
      if i <? Nat.min (length prev) n
      then reconcile_loop fuel' prev n (S i) (array_set out i (array_get prev i))
      else out
  end.

(** The updater passed to [setDone] when [linePoints.length] changes, with
    [n = linePoints.length]. *)
Definition reconcile (prev : list bool) (n : nat) : list bool :=
  let out := repeat false n in
  reconcile_loop (Nat.min (length prev) n) prev n 0 out.

(** [done.filter(Boolean).length] *)
Definition completedCount (done : list bool) : nat :=
  length (filter (fun v => v) done).

(** [linePoints.length > 1 ? (completedCount / (linePoints.length - 1)) * 100 : 0] *)
Definition progress {num : Type} `{Arith num} (done : list bool) (linePoints_length : nat) : num :=
  if 1 <? linePoints_length
  then (of_int (Z.of_nat (completedCount done))
          / of_int (Z.of_nat (linePoints_length - 1)) * of_int 100)%js
  else of_int 0.

(** [Array.prototype.findIndex]; [None] stands for [-1]. *)
Fixpoint findIndex {A : Type} (f : A -> bool) (l : list A) : option nat :=
  match l with
  | [] => None
  | a :: l' => if f a then Some 0 else option_map S (findIndex f l')
  end.

(** [currentPoint]; [None] stands for [undefined], the value of an index
    outside [linePoints] (also of [linePoints[-1]] on the empty list). *)
Definition currentPoint {P : Type} (done : list bool) (linePoints : list P) : option P :=
  match findIndex (fun v => negb v) done with
  | None =>
      match linePoints with
      | [] => None
      | _ => nth_error linePoints (length linePoints - 1)
      end
  | Some idx => nth_error linePoints idx
  end.

(* ------------------------------------------------------------------ *)
(** ** JavaScript values and JSON text *)

(** The values the state variables and a parsed document can hold. *)
Inductive value : Type :=
| VUndefined
| VNull
| VBool (b : bool)
| VNum (n : float)
| VStr (s : string)
| VArr (elems : list value)
| VObj (props : list (string * value)).

(** [ToBoolean]: what [if (v)], [v && w] and [v || w] test. *)
Definition truthy (v : value) : bool :=
  match v with
  | VUndefined | VNull => false
  | VBool b => b
  | VNum n => negb (is_zero n || is_nan n)
  | VStr s => negb (String.eqb s "")
  | VArr _ | VObj _ => true
  end.

(** [v || d] *)
Definition js_or (v d : value) : value := if truthy v then v else d.

(** [v ?? d] *)
Definition js_nullish (v d : value) : value :=
  match v with
  | VUndefined | VNull => d
  | _ => v
  end.

Inductive exn : Type := SyntaxError | TypeError.

Inductive result (A : Type) : Type :=
| Ok (a : A)
| Throw (e : exn).
Arguments Ok {A} a.
Arguments Throw {A} e.

(** Own property [key] of an object literal, [undefined] when it has none. *)
Fixpoint lookup (key : string) (props : list (string * value)) : value :=
  match props with
  | [] => VUndefined
  | (k, v) :: props' => if String.eqb k key then v else lookup key props'
  end.

(** The property read [obj.key] for the keys of a snapshot ([start], [end],
    [numCheckpoints], [radius], [done]), none of which a prototype defines:
    a [TypeError] on [null] and [undefined], [undefined] on every value that
    is not an object with that property. *)
Definition get (obj : value) (key : string) : result value :=
  match obj with
  | VUndefined | VNull => Throw TypeError
  | VObj props => Ok (lookup key props)
  | _ => Ok VUndefined
  end.

(** A text, as a file or a [localStorage] entry holds it.  A well-formed JSON
    text is identified with the value it denotes; every other text is
    [NotJSON], the empty string apart, which [if (saved)] tells from the
    rest. *)
Inductive text : Type :=
| EmptyText
| NotJSON
| JSONText (v : value).

(** [JSON.parse] *)
Definition JSON_parse (s : text) : result value :=
  match s with
  | JSONText v => Ok v
  | EmptyText | NotJSON => Throw SyntaxError
  end.

(** What [JSON.stringify] writes for a number: [null] for [NaN] and the
    infinities, [0] for both zeros. *)
Definition number_to_json (n : float) : value :=
  if is_finite n then (if is_zero n then VNum 0 else VNum n) else VNull.

(** The value a text written by [JSON.stringify] denotes: [undefined] is
    written [null] inside an array and its property is left out of an
    object. *)
Fixpoint to_json (v : value) : value :=
  match v with
  | VUndefined => VNull
  | VNull => VNull
  | VBool b => VBool b
  | VNum n => number_to_json n
  | VStr s => VStr s
  | VArr elems => VArr (map to_json elems)
  | VObj props =>
      VObj ((fix props_to_json (ps : list (string * value)) :=
               match ps with
               | [] => []
               | (k, VUndefined) :: ps' => props_to_json ps'
               | (k, w) :: ps' => (k, to_json w) :: props_to_json ps'
               end) props)
  end.

(** [JSON.stringify(data, null, 2)] for an object [data]. *)
Definition JSON_stringify (data : value) : text := JSONText (to_json data).

(* ------------------------------------------------------------------ *)
(** ** The state of [App] and its handlers *)

(** The five persisted [useState] cells. *)
Record state : Type := State {
  radius : value;
  start : value;
  end_ : value;
  numCheckpoints : value;
  done : value
}.

(** The initial values given to [useState]. *)
Definition initial : state := {|
  radius := VNum 500;
  start := VArr [VNum 0; VNum 0; VNum 0];
  end_ := VArr [VNum 400; VNum 50; VNum (-300)];
  numCheckpoints := VNum 50;
  done := VArr []
|}.

(** What a handler acts on: the state cells and the notices shown by
    [alert]. *)
Record world : Type := World { app : state; alerts : list string }.

(** A handler body: it may update the world and may throw. *)
Definition eff (A : Type) : Type := world -> result A * world.

Definition ret {A : Type} (a : A) : eff A := fun w => (Ok a, w).

Definition bind {A B : Type} (m : eff A) (k : A -> eff B) : eff B :=
  fun w =>
    match m w with
    | (Ok a, w') => k a w'
    | (Throw e, w') => (Throw e, w')
    end.

Notation "x <- m ;; k" := (bind m (fun x => k))
  (at level 61, m at next level, right associativity).
Notation "m ;; k" := (bind m (fun _ => k))
  (at level 61, right associativity).

(** An operation that only computes: its result or its exception. *)
Definition lift {A : Type} (r : result A) : eff A := fun w => (r, w).

(** [try { body } catch (err) { handler }]: the handler starts from the world
    the body left. *)
Definition try_catch (body : eff unit) (handler : exn -> eff unit) : eff unit :=
  fun w =>
    match body w with
    | (Ok a, w') => (Ok a, w')
    | (Throw e, w') => handler e w'
    end.

Definition update (f : state -> state) : eff unit :=
  fun w => (Ok tt, World (f (app w)) (alerts w)).

Definition setRadius (v : value) : eff unit :=
  update (fun s => State v (start s) (end_ s) (numCheckpoints s) (done s)).
Definition setStart (v : value) : eff unit :=
  update (fun s => State (radius s) v (end_ s) (numCheckpoints s) (done s)).
Definition setEnd (v : value) : eff unit :=
  update (fun s => State (radius s) (start s) v (numCheckpoints s) (done s)).
Definition setNumCheckpoints (v : value) : eff unit :=
  update (fun s => State (radius s) (start s) (end_ s) v (done s)).
Definition setDone (v : value) : eff unit :=
  update (fun s => State (radius s) (start s) (end_ s) (numCheckpoints s) v).

(** [alert(msg)] *)
Definition alert (msg : string) : eff unit :=
  fun w => (Ok tt, World (app w) (alerts w ++ [msg])).

(** [a && b], where reading [b] may throw. *)
Definition js_and (a : value) (b : eff value) : eff value :=
  if truthy a then b else ret a.

(** The object [{ start, end, numCheckpoints, radius, done }] built by
    [handleExportJSON] and by the saving effect. *)
Definition data (s : state) : value :=
  VObj [ ("start", start s); ("end", end_ s);
         ("numCheckpoints", numCheckpoints s);
         ("radius", radius s); ("done", done s) ]%string.

(** [handleExportJSON]: the text handed to [download]. *)
Definition handleExportJSON (s : state) : text := JSON_stringify (data s).

(** [reader.onload] of [handleImportJSON], with [reader.result] the text of
    the chosen file. *)
Definition handleImportJSON (reader_result : text) : eff unit :=
  try_catch
    (obj <- lift (JSON_parse reader_result) ;;
     a <- lift (get obj "start") ;;
     c <- js_and a (lift (get obj "end")) ;;
     if truthy c then
       (v <- lift (get obj "start") ;; setStart v) ;;
       (v <- lift (get obj "end") ;; setEnd v) ;;
       (v <- lift (get obj "numCheckpoints") ;; setNumCheckpoints (js_or v (VNum 50))) ;;
       (v <- lift (get obj "radius") ;; setRadius (js_or v (VNum 500))) ;;
       (v <- lift (get obj "done") ;; setDone (js_or v (VArr [])))
     else ret tt)
    (fun err => alert "Invalid JSON").

(** [localStorage]: the text stored under each key, if any. *)
Definition localStorage : Type := string -> option text.

Definition getItem (ls : localStorage) (key : string) : option text := ls key.

Definition setItem (ls : localStorage) (key : string) (s : text) : localStorage :=
  fun k => if String.eqb k key then Some s else ls k.

(** [if (saved)] on the result of [getItem]: [null] and the empty string are
    falsy. *)
Definition nonempty (saved : option text) : bool :=
  match saved with
  | None | Some EmptyText => false
  | Some _ => true
  end.

(** The loading effect, run for the key [stateKey]. *)
Definition load (ls : localStorage) (stateKey : string) : eff unit :=
  let saved := getItem ls stateKey in
  if nonempty saved then
    try_catch
      (obj <- lift (JSON_parse (match saved with Some s => s | None => EmptyText end)) ;;
       a <- lift (get obj "start") ;;
       b <- js_and a (lift (get obj "end")) ;;
       c <- js_and b (lift (get obj "numCheckpoints")) ;;
       if truthy c then
         (v <- lift (get obj "start") ;; setStart v) ;;
         (v <- lift (get obj "end") ;; setEnd v) ;;
         (v <- lift (get obj "numCheckpoints") ;; setNumCheckpoints v) ;;
         (v <- lift (get obj "radius") ;; setRadius (js_nullish v (VNum 500))) ;;
         (v <- lift (get obj "done") ;; setDone (js_nullish v (VArr [])))
       else ret tt)
      (fun _ => ret tt)
  else ret tt.

(** The saving effect: [localStorage.setItem(stateKey, JSON.stringify(data))]. *)
Definition save (ls : localStorage) (stateKey : string) (s : state) : localStorage :=
  setItem ls stateKey (JSON_stringify (data s)).

(** [parseInt(e.target.value)]: [NaN] ([None]) or an integer. *)
Definition parseInt_result : Type := option Z.

(** [Math.max(1, parseInt(e.target.value) || 1)] *)
Definition count_input (parsed : parseInt_result) : Z :=
  Z.max 1 (match parsed with
           | Some n => if (n =? 0)%Z then 1%Z else n
           | None => 1%Z
           end).

(** [onChange] of the checkpoint-count input. *)
Definition onChange_numCheckpoints (parsed : parseInt_result) : eff unit :=
  setNumCheckpoints (VNum (Z2F (count_input parsed))).

(* ------------------------------------------------------------------ *)
(** ** Distance, the progress bar, the check boxes and the text inputs *)

(** [Math.sqrt], at the two readings of a number: the correctly rounded
    square root of binary64, and the real square root. *)
Class Sqrt (num : Type) : Type := { Math_sqrt : num -> num }.

#[export] Instance binary64_sqrt : Sqrt float := {| Math_sqrt := PrimFloat.sqrt |}.

#[export] Instance exact_sqrt : Sqrt R := {| Math_sqrt := R_sqrt.sqrt |}.

(** [function distance(a, b)]; [totalDist] is [distance(start, end)]. *)
Definition distance {num : Type} `{Arith num} `{Sqrt num} (a b : vec3 num) : num :=
  let dx := (c0 a - c0 b)%js in
  let dy := (c1 a - c1 b)%js in
  let dz := (c2 a - c2 b)%js in
  Math_sqrt (dx * dx + dy * dy + dz * dz)%js.

(** [Math.max(a, b)]: [NaN] when an argument is; the positive zero counts
    as larger than the negative one. *)
Definition Math_max (a b : float) : float :=
  if is_nan a || is_nan b then nan
  else if is_zero b && negb (get_sign b) && is_zero a && get_sign a then b
  else if PrimFloat.ltb a b then b
  else a.

(** [Math.min(a, b)] *)
Definition Math_min (a b : float) : float :=
  if is_nan a || is_nan b then nan
  else if is_zero b && get_sign b && is_zero a && negb (get_sign a) then b
  else if PrimFloat.ltb b a then b
  else a.

(** The width of the progress bar, in percent:
    [Math.min(100, Math.max(0, progress))]. *)
Definition bar_width (progress : float) : float :=
  Math_min 100 (Math_max 0 progress).

(** [parseFloat(e.target.value) || 500], with [parsed] the result of
    [parseFloat]. *)
Definition radius_input (parsed : float) : value :=
  js_or (VNum parsed) (VNum 500).

(** [onChange] of the radius input. *)
Definition onChange_radius (parsed : float) : eff unit :=
  setRadius (radius_input parsed).

(** [onChange] of the check box of row [i], as the updater passed to
    [setDone]: [const copy = [...d]; copy[i] = e.target.checked; return copy]. *)
Definition onChange_done (i : nat) (checked : bool) (d : list bool) : list bool :=
  let copy := d in
  array_set copy i checked.

(** [str.split(sep)] for a separator of one character: the pieces between
    the occurrences of [sep], one more than there are occurrences. *)
Fixpoint split (sep : ascii) (str : string) : list string :=
  match str with
  | EmptyString => [EmptyString]
  | String c str' =>
      if Ascii.eqb c sep then EmptyString :: split sep str'
      else match split sep str' with
           | piece :: pieces => String c piece :: pieces
           | [] => [String c EmptyString]
           end
  end.

(** [parts.join(sep)] *)
Definition join (sep : string) (parts : list string) : string :=
  String.concat sep parts.

(** [rows.map((r, i) => f(r, i))], with the index [i] counted from [i0]. *)
Fixpoint map_index {A B : Type} (f : A -> nat -> B) (i0 : nat) (rows : list A) : list B :=
  match rows with
  | [] => []
  | r :: rows' => f r i0 :: map_index f (S i0) rows'
  end.

(** The line feed of ["\n"]. *)
Definition newline : string := String (ascii_of_nat 10) EmptyString.

(** The digits of the decimal representation of a non-negative integer, with
    no leading zero. *)
Definition decimal (n : Z) : string :=
  NilEmpty.string_of_uint (N.to_uint (Z.to_N n)).

(** [k] occurrences of the digit zero. *)
Fixpoint zeros (k : nat) : string :=
  match k with
  | O => EmptyString
  | S k' => String "0" (zeros k')
  end.

(** The integer [n] for which [n / 100 - x] is as close to zero as possible,
    the larger one if there are two, for [x = num / den] not negative. *)
Definition nearest_hundredths (num den : Z) : Z :=
  ((2 * 100 * num + den) / (2 * den))%Z.

(** The digits that [toFixed(2)] writes for [x = num / den], not negative
    and below 10^21: the digits of [n], padded with zeros to three at least,
    and a point before the last two. *)
Definition toFixed_2 (num den : Z) : string :=
  let n := nearest_hundredths num den in
  let m := if (n =? 0)%Z then "0"%string else decimal n in
  let k := String.length m in
  let m' := if (k <=? 2)%nat then (zeros (2 + 1 - k) ++ m)%string else m in
  let k' := if (k <=? 2)%nat then (2 + 1)%nat else k in
  let a := substring 0 (k' - 2) m' in
  let b := substring (k' - 2) 2 m' in
  (a ++ "." ++ b)%string.

(** The magnitude [m * 2^e] of a finite binary64 number as a fraction. *)
Definition magnitude (m : positive) (e : Z) : Z * Z :=
  if (0 <=? e)%Z then (Z.pos m * 2 ^ e, 1)%Z else (Z.pos m, 2 ^ (- e))%Z.

Section Texts.

(** The three conversions between numbers and texts that the component
    takes from the language: [parseFloat], [String.prototype.trim] and the
    conversion of a number to a string that [join] applies. *)
Variable parseFloat : string -> float.
Variable trim : string -> string.
Variable Number_toString : float -> string.

(** [parseVec3].  Its argument is the value of a text field, a string, which
    [||] replaces only when it is empty, and then by the empty string: the
    pieces are those of [str] itself.  [None] stands for [null]. *)
Definition parseVec3 (str : string) : option (list float) :=
  let parts := map (fun s => parseFloat (trim s)) (split "," str) in
  if negb (length parts =? 3)%nat || existsb is_nan parts then None
  else Some parts.

(** [onBlur] of the start input: [const v = parseVec3(e.target.value);
    if (v) setStart(v); else e.target.value = start.join(", ")].  The other
    branch rewrites the text of the field and leaves the state alone. *)
Definition onBlur_start (str : string) : eff unit :=
  match parseVec3 str with
  | Some v => setStart (VArr (map VNum v))
  | None => ret tt
  end.

(** [onBlur] of the end input. *)
Definition onBlur_end (str : string) : eff unit :=
  match parseVec3 str with
  | Some v => setEnd (VArr (map VNum v))
  | None => ret tt
  end.

(** The fields of one line of the table, [[i, r.x, r.y, r.z, r.t]], each
    converted to a string as [join] does. *)
Definition csv_fields (r : point float) (i : nat) : list string :=
  map Number_toString [Z2F (Z.of_nat i); x r; y r; z r; t r].


(** One line of the table: [[i, r.x, r.y, r.z, r.t].join(",")]. *)
Definition csv_row (r : point float) (i : nat) : string :=
  join "," (csv_fields r i).

(** [function toCSV(rows)] *)
Definition toCSV (rows : list (point float)) : string :=
  let header := join "," ["index"; "x"; "y"; "z"; "t"]%string in
  let body := join newline (map_index csv_row 0 rows) in
  (header ++ newline ++ body)%string.

(** [handleCopyCSV]: the text handed to the clipboard. *)
Definition handleCopyCSV (linePoints : list (point float)) : string :=
  toCSV linePoints.

(** [function formatNum(n) { return Number(n).toFixed(2); }] for a number
    [n].  [toFixed] hands a value that is not finite, or is at least 10^21
    in magnitude, to the conversion of a number to a string; every other
    value is written through [toFixed_2], after its sign. *)
Definition formatNum (n : float) : string :=
  match Prim2SF n with
  | S754_nan | S754_infinity _ => Number_toString n
  | S754_zero _ => toFixed_2 0 1
  | S754_finite s m e =>
      let (num, den) := magnitude m e in
      let sign := if s then "-"%string else EmptyString in
      if (10 ^ 21 * den <=? num)%Z
      then (sign ++ Number_toString (abs n))%string
      else (sign ++ toFixed_2 num den)%string
  end.

End Texts.

(* ------------------------------------------------------------------ *)
(** ** Auxiliary definitions for the statements *)

(** The counter values [i, i+1, ..., i+k-1]. *)
Fixpoint Zseq (i : Z) (k : nat) : list Z :=
  match k with
  | O => []
  | S k' => i :: Zseq (i + 1) k'
  end.

(** The value of [obj.key] when the read does not throw. *)
Definition prop (obj : value) (key : string) : value :=
  match obj with
  | VObj props => lookup key props
  | _ => VUndefined
  end.

(** The five cells as [handleImportJSON] sets them from a document [obj]. *)
Definition imported (obj : value) : state := {|
  radius := js_or (prop obj "radius") (VNum 500);
  start := prop obj "start";
  end_ := prop obj "end";
  numCheckpoints := js_or (prop obj "numCheckpoints") (VNum 50);
  done := js_or (prop obj "done") (VArr [])
|}.

(** The five cells as the loading effect sets them from a stored [obj]. *)
Definition loaded (obj : value) : state := {|
  radius := js_nullish (prop obj "radius") (VNum 500);
  start := prop obj "start";
  end_ := prop obj "end";
  numCheckpoints := prop obj "numCheckpoints";
  done := js_nullish (prop obj "done") (VArr [])
|}.

(** A number that [JSON.stringify] writes and [JSON.parse] reads back
    unchanged: finite, and not the negative zero. *)
Definition number_exact (n : float) : bool :=
  is_finite n && (negb (is_zero n) || PrimFloat.Leibniz.eqb n 0).

(** A typed snapshot: two vectors, the count, the radius and the flags. *)
Record snapshot : Type := Snapshot {
  snap_start : vec3 float;
  snap_end : vec3 float;
  snap_checkpointCount : float;
  snap_radius : float;
  snap_completion : list bool
}.

Definition array_of_vec3 (v : vec3 float) : value :=
  VArr [VNum (c0 v); VNum (c1 v); VNum (c2 v)].

(** The state cells holding a snapshot. *)
Definition state_of_snapshot (sn : snapshot) : state := {|
  radius := VNum (snap_radius sn);
  start := array_of_vec3 (snap_start sn);
  end_ := array_of_vec3 (snap_end sn);
  numCheckpoints := VNum (snap_checkpointCount sn);
  done := VArr (map VBool (snap_completion sn))
|}.

Definition vec3_exact (v : vec3 float) : bool :=
  number_exact (c0 v) && number_exact (c1 v) && number_exact (c2 v).

(** Every number of the snapshot can be written in JSON. *)
Definition snapshot_exact (sn : snapshot) : bool :=
  vec3_exact (snap_start sn) && vec3_exact (snap_end sn)
  && number_exact (snap_checkpointCount sn) && number_exact (snap_radius sn).

(** The integer a binary64 number holds, if it holds one. *)
Definition integer_of (n : float) : option Z :=
  match Prim2SF n with
  | S754_zero _ => Some 0%Z
  | S754_finite s m e =>
      let magnitude :=
        if (0 <=? e)%Z then Some (Z.pos m * 2 ^ e)%Z
        else if (Z.pos m mod 2 ^ (- e) =? 0)%Z then Some (Z.pos m / 2 ^ (- e))%Z
        else None in
      option_map (fun k => if s then (- k)%Z else k) magnitude
  | _ => None
  end.

Definition vec3_of_array (v : value) : option (vec3 float) :=
  match v with
  | VArr [VNum a; VNum b; VNum c] => Some (Vec3 a b c)
  | _ => None
  end.

(** [linePoints] as derived from the state cells, when [start] and [end]
    hold three numbers each and [numCheckpoints] holds an integer. *)
Definition state_linePoints (s : state) : option (list (point float)) :=
  match vec3_of_array (start s), vec3_of_array (end_ s), numCheckpoints s with
  | Some a, Some b, VNum n => option_map (linePoints a b) (integer_of n)
  | _, _, _ => None
  end.

(** The initial [start] and [end] as vectors of binary64 numbers. *)
Definition default_start : vec3 float := (Vec3 0 0 0)%float.
Definition default_end : vec3 float := (Vec3 400 50 (-300))%float.

(** A binary64 value that is a number and carries no minus sign: the
    positive zero, a positive finite number or the positive infinity. *)
Definition unsigned (x : spec_float) : bool :=
  match x with
  | S754_zero s | S754_infinity s | S754_finite s _ _ => negb s
  | S754_nan => false
  end.

(** How many times the character [c] occurs in [str]. *)
Fixpoint occurrences (c : ascii) (str : string) : nat :=
  match str with
  | EmptyString => 0
  | String c' str' => (if Ascii.eqb c' c then 1 else 0) + occurrences c str'
  end.

(** The test of the loading effect, [obj.start && obj.end &&
    obj.numCheckpoints], on the cells of a state. *)
Definition guard (s : state) : bool :=
  truthy (start s) && truthy (end_ s) && truthy (numCheckpoints s).

(** The second half of [binary_round_aux]: renormalising the rounded
    mantissa. *)
Definition round_finish (s : bool) (m : Z) (e : Z) : spec_float :=
  let '(mrs'', e'') := shr_fexp prec emax m e loc_Exact in
  match shr_m mrs'' with
  | Z0 => S754_zero s
  | Zpos m => if Z.leb e'' (Z.sub emax prec) then S754_finite s m e'' else S754_infinity s
  | _ => S754_nan
  end.

(* ------------------------------------------------------------------ *)
(** ** Binary64 arithmetic

    Facts about the four operations on [float], derived from the
    specification of the primitive operations by [SpecFloat]: a finite number
    divided by itself is 1, zero divided by a positive number is 0,
    multiplying by 1 changes nothing, the conversion of an integer below 2^53
    is a normal number holding that integer, and the quotients [i / n] of
    such integers increase strictly with [i]. *)

(** *** A finite number divided by itself *)

(** Euclidean division of a multiple of [m] by [m] is exact. *)
Lemma div_eucl_mult_self : forall (m : positive) (k : Z),
  Z.div_eucl (Z.pos m * k) (Z.pos m) = (k, 0%Z).
Proof.
  intros m k.
  assert (H : Z.div_eucl (Z.pos m * k) (Z.pos m) =
              ((Z.pos m * k) / Z.pos m, (Z.pos m * k) mod Z.pos m)%Z).
  { unfold Z.div, Z.modulo. now destruct (Z.div_eucl (Z.pos m * k) (Z.pos m)). }
  rewrite H, Z.mul_comm, Z.div_mul, Z.mod_mul by lia. reflexivity.
Qed.

(** A zero remainder is located exactly. *)
Lemma new_location_0 : forall n : Z, new_location n 0 = loc_Exact.
Proof.
  intros n. unfold new_location, new_location_even, new_location_odd.
  now destruct (Z.even n).
Qed.

(** The core of the division of a mantissa by itself: 2^53 at exponent -53,
    exactly. *)
Lemma SFdiv_core_self : forall (m : positive) (e : Z),
  SFdiv_core_binary prec emax (Z.pos m) e (Z.pos m) e = (9007199254740992, -53, loc_Exact)%Z.
Proof.
  intros m e. unfold SFdiv_core_binary.
  replace (Zdigits2 (Z.pos m) + e - (Zdigits2 (Z.pos m) + e))%Z with 0%Z by lia.
  replace (e - e)%Z with 0%Z by lia.
  change (Z.min (fexp prec emax 0) 0) with (-53)%Z.
  change (0 - (-53))%Z with 53%Z. cbv zeta iota.
  rewrite Z.shiftl_mul_pow2 by lia.
  rewrite div_eucl_mult_self, new_location_0. reflexivity.
Qed.

(** A finite number divided by itself, on specification floats. *)
Lemma SFdiv_self : forall (s : bool) (m : positive) (e : Z),
  SF64div (S754_finite s m e) (S754_finite s m e) = Prim2SF 1.
Proof.
  intros s m e. unfold SF64div, SFdiv.
  rewrite SFdiv_core_self, xorb_nilpotent. vm_compute. reflexivity.
Qed.

(** x / x is 1 for every finite nonzero x. *)
Lemma div_self : forall (x : float) (s : bool) (m : positive) (e : Z),
  Prim2SF x = S754_finite s m e -> (x / x)%float = 1%float.
Proof.
  intros x s m e Hx. apply Prim2SF_inj.
  rewrite div_spec, Hx. apply SFdiv_self.
Qed.

(** *** The number of bits of a mantissa *)

(** Shifting left by [k] adds [k] bits. *)
Lemma digits2_pos_iter_xO : forall (k p : positive),
  digits2_pos (Pos.iter xO p k) = (digits2_pos p + k)%positive.
Proof.
  intros k p. induction k as [|k IH] using Pos.peano_ind.
  - simpl. lia.
  - rewrite Pos.iter_succ. simpl. rewrite IH. lia.
Qed.

(** A number of [d] bits is at least 2^(d-1). *)
Lemma digits2_pos_lower : forall p : positive,
  (2 ^ (Z.pos (digits2_pos p) - 1) <= Z.pos p)%Z.
Proof.
  induction p as [p IH|p IH|]; simpl digits2_pos.
  - rewrite Pos2Z.inj_succ.
    replace (Z.succ (Z.pos (digits2_pos p)) - 1)%Z with (Z.succ (Z.pos (digits2_pos p) - 1)) by lia.
    rewrite Z.pow_succ_r by lia. lia.
  - rewrite Pos2Z.inj_succ.
    replace (Z.succ (Z.pos (digits2_pos p)) - 1)%Z with (Z.succ (Z.pos (digits2_pos p) - 1)) by lia.
    rewrite Z.pow_succ_r by lia. lia.
  - simpl. lia.
Qed.

(** A number below 2^53 has at most 53 bits. *)
Lemma digits2_pos_safe : forall p : positive,
  (Z.pos p < 2 ^ 53)%Z -> (Z.pos (digits2_pos p) <= 53)%Z.
Proof.
  intros p Hp. pose proof (digits2_pos_lower p) as Hlow.
  destruct (Z.le_gt_cases (Z.pos (digits2_pos p)) 53) as [Hle|Hgt]; [exact Hle|].
  assert (2 ^ 53 <= 2 ^ (Z.pos (digits2_pos p) - 1))%Z by (apply Z.pow_le_mono_r; lia).
  lia.
Qed.

(** Rounding leaves a 53-bit mantissa with an exponent in range unchanged. *)
Lemma binary_round_aux_canonical : forall (s : bool) (m : positive) (e : Z),
  Z.pos (digits2_pos m) = 53%Z -> (-1074 <= e <= 971)%Z ->
  binary_round_aux prec emax s (Z.pos m) e loc_Exact = S754_finite s m e.
Proof.
  intros s m e Hd He.
  assert (Hshift : (fexp prec emax (Zdigits2 (Z.pos m) + e) - e = 0)%Z).
  { simpl Zdigits2. rewrite Hd. unfold fexp, emin, prec, emax. lia. }
  unfold binary_round_aux, shr_fexp. rewrite Hshift.
  cbv beta iota delta [shr shr_record_of_loc shr_m loc_of_shr_record round_nearest_even].
  rewrite Hshift.
  cbv beta iota delta [shr shr_record_of_loc shr_m].
  change (Z.sub emax prec) with 971%Z.
  destruct (Z.leb_spec e 971); [reflexivity | lia].
Qed.

(** *** Integers below 2^53 *)

Section SafeIntegers.

Local Open Scope Z_scope.

(** A number of [d] bits is below 2^d. *)
Lemma digits2_pos_upper : forall p : positive,
  Z.pos p < 2 ^ Z.pos (digits2_pos p).
Proof.
  induction p as [p IH|p IH|]; simpl digits2_pos.
  - rewrite Pos2Z.inj_succ, Z.pow_succ_r by lia. lia.
  - rewrite Pos2Z.inj_succ, Z.pow_succ_r by lia. lia.
  - simpl. lia.
Qed.

(** The number of bits is fixed by the two bounds. *)
Lemma digits2_pos_unique : forall (p : positive) (d : Z),
  2 ^ (d - 1) <= Z.pos p < 2 ^ d -> Z.pos (digits2_pos p) = d.
Proof.
  intros p d [Hlo Hhi].
  pose proof (digits2_pos_lower p) as Hl. pose proof (digits2_pos_upper p) as Hu.
  assert (Hd : 0 < d).
  { destruct (Z.lt_ge_cases 0 d) as [H|H]; [exact H|].
    assert (2 ^ d <= 1).
    { destruct (Z.eq_dec d 0) as [->|]; [simpl; lia|]. rewrite Z.pow_neg_r by lia. lia. }
    lia. }
  destruct (Z.lt_trichotomy (Z.pos (digits2_pos p)) d) as [H|[H|H]]; [|exact H|].
  - assert (2 ^ Z.pos (digits2_pos p) <= 2 ^ (d - 1)) by (apply Z.pow_le_mono_r; lia). lia.
  - assert (2 ^ d <= 2 ^ (Z.pos (digits2_pos p) - 1)) by (apply Z.pow_le_mono_r; lia). lia.
Qed.

(** Both bounds at once. *)
Lemma digits2_pos_bounds : forall (p : positive) (d : Z),
  Z.pos (digits2_pos p) = d -> 2 ^ (d - 1) <= Z.pos p < 2 ^ d.
Proof.
  intros p d <-. split; [apply digits2_pos_lower | apply digits2_pos_upper].
Qed.

(** Shifting left by [k] multiplies by 2^k. *)
Lemma iter_xO_pow : forall (k p : positive),
  Z.pos (Pos.iter xO p k) = Z.pos p * 2 ^ Z.pos k.
Proof.
  intros k p. induction k as [|k IH] using Pos.peano_ind.
  - simpl. lia.
  - rewrite Pos.iter_succ, Pos2Z.inj_xO, IH, Pos2Z.inj_succ, Z.pow_succ_r by lia. lia.
Qed.

(** The conversion of a safe integer, explicitly. *)
Lemma binary_normalize_normal : forall p : positive,
  Z.pos p < 2 ^ 53 ->
  exists m e, binary_normalize prec emax (Z.pos p) 0 false = S754_finite false m e
              /\ Z.pos (digits2_pos m) = 53
              /\ -52 <= e <= 0
              /\ Z.pos m = Z.pos p * 2 ^ (- e).
Proof.
  intros p Hp. pose proof (digits2_pos_safe p Hp) as Hd.
  assert (Hpos : 1 <= Z.pos (digits2_pos p)) by lia.
  unfold binary_normalize, binary_round.
  assert (Hfexp : fexp prec emax (Z.pos (digits2_pos p) + 0) = Z.pos (digits2_pos p) - 53).
  { unfold fexp, emin, prec, emax. lia. }
  rewrite Hfexp. unfold shl_align.
  destruct (Z.eq_dec (Z.pos (digits2_pos p)) 53) as [Heq|Hne].
  - rewrite Heq. simpl. exists p, 0.
    rewrite binary_round_aux_canonical by (assumption || lia).
    split; [reflexivity|]. split; [exact Heq|]. split; [lia|].
    cbn. lia.
  - set (k := Z.to_pos (53 - Z.pos (digits2_pos p))).
    assert (Hk : Z.pos k = 53 - Z.pos (digits2_pos p)) by (unfold k; rewrite Z2Pos.id; lia).
    replace (Z.pos (digits2_pos p) - 53 - 0) with (Z.neg k)
      by (rewrite <- Pos2Z.opp_pos; lia).
    assert (Hdig : Z.pos (digits2_pos (Pos.iter xO p k)) = 53)
      by (rewrite digits2_pos_iter_xO; lia).
    exists (Pos.iter xO p k), (Z.pos (digits2_pos p) - 53).
    rewrite binary_round_aux_canonical by (assumption || lia).
    split; [reflexivity|]. split; [exact Hdig|]. split; [lia|].
    rewrite iter_xO_pow. f_equal. f_equal. lia.
Qed.

(** A 53-bit mantissa with an exponent in range is a valid binary64 number. *)
Lemma normal_valid : forall (s : bool) (m : positive) (e : Z),
  Z.pos (digits2_pos m) = 53 -> -1074 <= e <= 971 ->
  valid_binary (S754_finite s m e) = true.
Proof.
  intros s m e Hd He.
  unfold SpecFloat.valid_binary, SpecFloat.bounded, SpecFloat.canonical_mantissa.
  rewrite Hd. unfold fexp, emin, prec, emax.
  apply andb_true_intro. split; [apply Z.eqb_eq | apply Z.leb_le]; lia.
Qed.

(** The binary64 value of a safe integer [k]: a positive normal number whose
    mantissa is [k] shifted to 53 bits. *)
Lemma Z2F_normal : forall k : Z,
  1 <= k < 2 ^ 53 ->
  exists m e, Prim2SF (Z2F k) = S754_finite false m e
              /\ Z.pos (digits2_pos m) = 53
              /\ -52 <= e <= 0
              /\ Z.pos m = k * 2 ^ (- e).
Proof.
  intros k Hk. destruct k as [|p|p]; try lia.
  destruct (binary_normalize_normal p ltac:(lia)) as (m & e & Hnorm & Hd & He & Hm).
  exists m, e. split; [|auto].
  unfold Z2F. rewrite Hnorm. apply Prim2SF_SF2Prim, normal_valid; [assumption | lia].
Qed.

(** A safe integer is read back from its binary64 value. *)
Lemma integer_of_Z2F : forall k : Z,
  1 <= k < 2 ^ 53 -> integer_of (Z2F k) = Some k.
Proof.
  intros k Hk. destruct (Z2F_normal k Hk) as (m & e & Hx & _ & He & Hm).
  unfold integer_of. rewrite Hx.
  destruct (Z.leb_spec 0 e) as [He0|He0].
  - assert (e = 0) as -> by lia. cbn. f_equal. cbn in Hm. lia.
  - assert (Hpow : 0 < 2 ^ (- e)) by (apply Z.pow_pos_nonneg; lia).
    rewrite Hm, Z.mod_mul by lia. cbn [Z.eqb option_map].
    rewrite Z.div_mul by lia. reflexivity.
Qed.

(** The order of two positive finite numbers. *)
Lemma SFltb_finite : forall (m1 m2 : positive) (e1 e2 : Z),
  SFltb (S754_finite false m1 e1) (S754_finite false m2 e2) = true <->
  e1 < e2 \/ (e1 = e2 /\ Z.pos m1 < Z.pos m2).
Proof.
  intros m1 m2 e1 e2. unfold SFltb, SFcompare.
  destruct (Z.compare_spec e1 e2) as [Heq|Hlt|Hgt].
  - change (Pos.compare_cont Eq m1 m2) with (Pos.compare m1 m2).
    destruct (Pos.compare_spec m1 m2) as [Hm|Hm|Hm]; split; intros H; try discriminate H;
      try reflexivity; try lia.
  - split; [intros _; now left | reflexivity].
  - split; [discriminate | lia].
Qed.

End SafeIntegers.

(** *** The parameters 0 / n and n / n *)

(** n / n is 1 for a safe count [n]. *)
Lemma Z2F_div_self : forall n : Z, (1 <= n < 2 ^ 53)%Z -> (Z2F n / Z2F n)%float = 1%float.
Proof.
  intros n Hn. destruct (Z2F_normal n Hn) as (m & e & Hm & _).
  now apply (div_self _ _ _ _ Hm).
Qed.

(** 0 / x is 0 for every positive finite x. *)
Lemma zero_div : forall (x : float) (m : positive) (e : Z),
  Prim2SF x = S754_finite false m e -> (0 / x)%float = 0%float.
Proof.
  intros x m e Hx. apply Prim2SF_inj. rewrite div_spec, Hx. reflexivity.
Qed.

(** *** Interpolating at 0 and at 1 *)

(** A finite number is a zero or has a mantissa and an exponent. *)
Lemma is_finite_SF : forall y : float,
  is_finite y = true ->
  (exists s, Prim2SF y = S754_zero s) \/ (exists s m e, Prim2SF y = S754_finite s m e).
Proof.
  intros y Hy. unfold is_finite, is_nan, is_infinity in Hy.
  rewrite !eqb_spec, abs_spec in Hy.
  destruct (Prim2SF y) as [s|s| |s m e] eqn:E.
  - left. now exists s.
  - exfalso. destruct s; vm_compute in Hy; discriminate Hy.
  - exfalso. vm_compute in Hy. discriminate Hy.
  - right. now exists s, m, e.
Qed.

(** Every number except NaN equals itself. *)
Lemma SFeqb_refl : forall x : spec_float, x <> S754_nan -> SFeqb x x = true.
Proof.
  intros [s|s| |s m e] Hx; unfold SFeqb; simpl.
  - reflexivity.
  - now destruct s.
  - congruence.
  - rewrite Z.compare_refl, Pos.compare_cont_refl. now destruct s.
Qed.

(** a + (b - a) * 0 is a, by the comparison [===], unless b - a overflows or
    is not a number. *)
Lemma lerp64_at_0 : forall a b : float,
  is_finite (b - a) = true -> PrimFloat.eqb (a + (b - a) * 0) a = true.
Proof.
  intros a b Hfin.
  assert (Ha : Prim2SF a <> S754_nan).
  { intros Ha. destruct (is_finite_SF _ Hfin) as [[s Hs]|(s & m & e & Hs)];
      rewrite sub_spec, Ha in Hs; unfold SF64sub, SFsub in Hs;
      destruct (Prim2SF b); discriminate Hs. }
  rewrite eqb_spec, add_spec, mul_spec.
  change (Prim2SF 0) with (S754_zero false).
  destruct (is_finite_SF _ Hfin) as [[s Hs]|(s & m & e & Hs)]; rewrite Hs.
  - unfold SF64mul, SFmul, SF64add, SFadd.
    destruct (Prim2SF a) as [sa|sa| |sa ma ea] eqn:Ea.
    + destruct sa, s; reflexivity.
    + apply SFeqb_refl. discriminate.
    + congruence.
    + apply SFeqb_refl. discriminate.
  - unfold SF64mul, SFmul, SF64add, SFadd.
    destruct (Prim2SF a) as [sa|sa| |sa ma ea] eqn:Ea.
    + destruct sa, s; reflexivity.
    + apply SFeqb_refl. discriminate.
    + congruence.
    + apply SFeqb_refl. discriminate.
Qed.

(** Multiplying a mantissa by 2^52 is shifting it left 52 times. *)
Lemma mul_pow52 : forall m : positive,
  (m * 4503599627370496)%positive = Pos.iter xO m 52.
Proof. intros m. rewrite Pos.mul_comm. reflexivity. Qed.

(** Shifting right 52 times undoes it, with nothing lost. *)
Lemma shr_52 : forall m : positive,
  SpecFloat.iter_pos shr_1 52 {| shr_m := Z.pos (Pos.iter xO m 52); shr_r := false; shr_s := false |} =
  {| shr_m := Z.pos m; shr_r := false; shr_s := false |}.
Proof. intros m. reflexivity. Qed.

(** Multiplying a valid number by 1, on specification floats. *)
Lemma SFmul_one : forall x : spec_float,
  valid_binary x = true -> SF64mul x (Prim2SF 1) = x.
Proof.
  intros [s|s| |s m e] Hx; change (Prim2SF 1) with (S754_finite false 4503599627370496 (-52));
    unfold SF64mul, SFmul; rewrite ?xorb_false_r; try reflexivity.
  unfold SpecFloat.valid_binary, SpecFloat.bounded, SpecFloat.canonical_mantissa in Hx.
  apply andb_prop in Hx as [Hcanon Hle].
  apply Z.eqb_eq in Hcanon. apply Z.leb_le in Hle. change (Z.sub emax prec) with 971%Z in Hle.
  rewrite mul_pow52.
  assert (Hshift : (fexp prec emax (Zdigits2 (Z.pos (Pos.iter xO m 52)) + (e + -52))
                    - (e + -52) = 52)%Z).
  { unfold Zdigits2. rewrite digits2_pos_iter_xO.
    replace (Z.pos (digits2_pos m + 52) + (e + -52))%Z with (Z.pos (digits2_pos m) + e)%Z by lia.
    rewrite Hcanon. lia. }
  assert (Hshift' : (fexp prec emax (Zdigits2 (Z.pos m) + (e + -52 + 52)) - (e + -52 + 52) = 0)%Z).
  { unfold Zdigits2. replace (e + -52 + 52)%Z with e by lia. rewrite Hcanon. lia. }
  unfold binary_round_aux, shr_fexp. rewrite Hshift.
  cbv beta iota delta [shr shr_record_of_loc]. rewrite shr_52.
  cbv beta iota delta [shr_m loc_of_shr_record round_nearest_even].
  rewrite Hshift'.
  cbv beta iota delta [shr shr_record_of_loc shr_m].
  change (Z.sub emax prec) with 971%Z.
  replace (e + -52 + 52)%Z with e by lia.
  destruct (Z.leb_spec e 971); [reflexivity | lia].
Qed.

(** x * 1 is x, for every x (also infinities and NaN). *)
Lemma mul_one : forall x : float, (x * 1)%float = x.
Proof.
  intros x. apply Prim2SF_inj. rewrite mul_spec. apply SFmul_one, Prim2SF_valid.
Qed.

(** *** Rounding a quotient *)

Section Quotients.

Local Open Scope Z_scope.

(** Rounding is a shift followed by [round_finish]. *)
Lemma binary_round_aux_finish : forall s mx ex lx,
  binary_round_aux prec emax s mx ex lx =
  let '(mrs', e') := shr_fexp prec emax mx ex lx in
  round_finish s (round_nearest_even (shr_m mrs') (loc_of_shr_record mrs')) e'.
Proof. reflexivity. Qed.

(** A 53-bit mantissa is not shifted. *)
Lemma shr_fexp_53 : forall (q : positive) (e : Z) (l : location),
  Z.pos (digits2_pos q) = 53 -> -1074 <= e ->
  shr_fexp prec emax (Z.pos q) e l = (shr_record_of_loc (Z.pos q) l, e).
Proof.
  intros q e l Hd He. unfold shr_fexp.
  replace (fexp prec emax (Zdigits2 (Z.pos q) + e) - e) with 0; [reflexivity|].
  unfold Zdigits2. rewrite Hd. unfold fexp, emin, prec, emax. lia.
Qed.

(** A 54-bit mantissa is shifted by one bit. *)
Lemma shr_fexp_54 : forall (q : positive) (e : Z) (l : location),
  Z.pos (digits2_pos q) = 54 -> -1075 <= e ->
  shr_fexp prec emax (Z.pos q) e l = (shr_1 (shr_record_of_loc (Z.pos q) l), e + 1).
Proof.
  intros q e l Hd He. unfold shr_fexp.
  replace (fexp prec emax (Zdigits2 (Z.pos q) + e) - e) with 1; [reflexivity|].
  unfold Zdigits2. rewrite Hd. unfold fexp, emin, prec, emax. lia.
Qed.

(** [round_finish] on a mantissa between 2^52 and 2^53: the mantissa is kept,
    or halved when it is 2^53. *)
Lemma round_finish_spec : forall (p0 : positive) (e : Z),
  2 ^ 52 <= Z.pos p0 <= 2 ^ 53 -> -1074 <= e <= 970 ->
  exists M E, round_finish false (Z.pos p0) e = S754_finite false M E
              /\ Z.pos (digits2_pos M) = 53
              /\ ((E = e /\ Z.pos M = Z.pos p0) \/ (E = e + 1 /\ 2 * Z.pos M = Z.pos p0)).
Proof.
  intros p0 e Hp He. unfold round_finish.
  destruct (Z.eq_dec (Z.pos p0) (2 ^ 53)) as [Heq|Hne].
  - assert (p0 = 9007199254740992%positive) as -> by (change (2 ^ 53) with 9007199254740992 in Heq; congruence).
    rewrite shr_fexp_54 by (reflexivity || lia).
    cbn [shr_1 shr_record_of_loc shr_m orb].
    change (Z.sub emax prec) with 971.
    destruct (Z.leb_spec (e + 1) 971); [|lia].
    exists 4503599627370496%positive, (e + 1). split; [reflexivity|].
    split; [reflexivity|]. right. split; reflexivity.
  - assert (Hd : Z.pos (digits2_pos p0) = 53) by (apply digits2_pos_unique; simpl; lia).
    rewrite shr_fexp_53 by (assumption || lia).
    cbn [shr_record_of_loc shr_m].
    change (Z.sub emax prec) with 971.
    destruct (Z.leb_spec e 971); [|lia].
    exists p0, e. split; [reflexivity|]. split; [exact Hd|]. left. split; reflexivity.
Qed.

(** The location computed from a remainder compares twice the remainder
    with the divisor. *)
Lemma new_location_spec : forall m r : Z,
  0 < m -> 0 <= r < m ->
  match new_location m r with
  | loc_Exact => r = 0
  | loc_Inexact Lt => 0 < 2 * r < m
  | loc_Inexact Eq => 2 * r = m
  | loc_Inexact Gt => m < 2 * r
  end.
Proof.
  intros m r Hm Hr. unfold new_location, new_location_even, new_location_odd.
  destruct (Z.even m) eqn:Hev.
  - destruct (Z.eqb_spec r 0) as [|Hr0]; [assumption|].
    destruct (Z.compare_spec (2 * r) m); lia.
  - destruct (Z.eqb_spec r 0) as [|Hr0]; [assumption|].
    assert (Hodd : Z.odd m = true) by (rewrite <- Z.negb_even, Hev; reflexivity).
    apply Z.odd_spec in Hodd. destruct Hodd as [k Hk].
    destruct (Z.compare_spec (2 * r + 1) m); lia.
Qed.

(** A shift record remembers its location. *)
Lemma loc_of_record_of_loc : forall (m : Z) (l : location),
  loc_of_shr_record (shr_record_of_loc m l) = l.
Proof. intros m [|[]]; reflexivity. Qed.

(** A shift record remembers its mantissa. *)
Lemma shr_m_record_of_loc : forall (m : Z) (l : location),
  shr_m (shr_record_of_loc m l) = m.
Proof. intros m [|[]]; reflexivity. Qed.

(** [round_finish] keeps an error bound of half a unit in the last place. *)
Lemma finish_bound : forall (M0 e m2 N c : Z),
  2 ^ 52 <= M0 <= 2 ^ 53 -> -1074 <= e <= 970 -> 0 < m2 -> 0 < c ->
  - (c * m2) <= 2 * c * m2 * M0 - 2 * N <= c * m2 ->
  exists M E d, round_finish false M0 e = S754_finite false M E
                /\ Z.pos (digits2_pos M) = 53
                /\ E = e + d /\ 0 <= d <= 1
                /\ - (c * m2 * 2 ^ d) <= 2 * c * m2 * Z.pos M * 2 ^ d - 2 * N <= c * m2 * 2 ^ d.
Proof.
  intros M0 e m2 N c HM He Hm2 Hc Hb.
  destruct M0 as [|p0|p0]; try (simpl in HM; lia).
  destruct (round_finish_spec p0 e HM He) as (M & E & Hr & Hd & [[HE HMp]|[HE HMp]]).
  - exists M, E, 0. split; [exact Hr|]. split; [exact Hd|]. split; [lia|]. split; [lia|].
    change (2 ^ 0) with 1. rewrite HMp. lia.
  - exists M, E, 1. split; [exact Hr|]. split; [exact Hd|]. split; [lia|]. split; [lia|].
    change (2 ^ 1) with 2.
    replace (2 * c * m2 * Z.pos M * 2) with (2 * c * m2 * (2 * Z.pos M)) by ring.
    rewrite HMp. nia.
Qed.

(** Rounding a quotient [q] with remainder [r] of a division by [m2], for
    [q] of 53 or 54 bits: a 53-bit mantissa [M] at an exponent raised by
    [d], within half a unit in the last place of [q + r / m2]. *)
Lemma round_div_spec : forall (q m2 : positive) (r e' : Z),
  2 ^ 52 <= Z.pos q < 2 ^ 54 -> 0 <= r < Z.pos m2 -> -1074 <= e' <= 900 ->
  exists M E d,
    binary_round_aux prec emax false (Z.pos q) e' (new_location (Z.pos m2) r) =
    S754_finite false M E
    /\ Z.pos (digits2_pos M) = 53
    /\ E = e' + d /\ 0 <= d <= 2
    /\ - (Z.pos m2 * 2 ^ d)
       <= 2 * Z.pos m2 * Z.pos M * 2 ^ d - 2 * (Z.pos q * Z.pos m2 + r)
       <= Z.pos m2 * 2 ^ d.
Proof.
  intros q m2 r e' Hq Hr He.
  pose proof (new_location_spec (Z.pos m2) r ltac:(lia) Hr) as Hloc.
  rewrite binary_round_aux_finish.
  destruct (Z.lt_ge_cases (Z.pos q) (2 ^ 53)) as [Hlt|Hge].
  - (* 53 digits: no shift *)
    assert (Hd : Z.pos (digits2_pos q) = 53) by (apply digits2_pos_unique; simpl; lia).
    rewrite shr_fexp_53 by (assumption || lia).
    rewrite loc_of_record_of_loc, shr_m_record_of_loc.
    assert (HM0 : 2 ^ 52 <= round_nearest_even (Z.pos q) (new_location (Z.pos m2) r) <= 2 ^ 53
                  /\ - (1 * Z.pos m2)
                     <= 2 * 1 * Z.pos m2 * round_nearest_even (Z.pos q) (new_location (Z.pos m2) r)
                        - 2 * (Z.pos q * Z.pos m2 + r)
                     <= 1 * Z.pos m2).
    { destruct (new_location (Z.pos m2) r) as [|[]]; cbn [round_nearest_even];
        try destruct (Z.even (Z.pos q)); lia. }
    destruct HM0 as [HM0 Hb].
    assert (He1 : -1074 <= e' <= 970) by lia.
    assert (Hm2 : 0 < Z.pos m2) by lia.
    destruct (finish_bound (round_nearest_even (Z.pos q) (new_location (Z.pos m2) r)) e'
                (Z.pos m2) (Z.pos q * Z.pos m2 + r) 1 HM0 He1 Hm2 eq_refl Hb)
      as (M & E & d & Hres & HdM & HE & Hdr & Hbound).
    exists M, E, d. split; [exact Hres|]. split; [exact HdM|]. split; [exact HE|].
    split; [lia|]. rewrite !Z.mul_1_l in Hbound. replace (2 * 1) with 2 in Hbound by lia.
    exact Hbound.
  - (* 54 digits: one shift *)
    assert (Hd : Z.pos (digits2_pos q) = 54) by (apply digits2_pos_unique; simpl; lia).
    rewrite shr_fexp_54 by (assumption || lia).
    set (mrs := shr_1 (shr_record_of_loc (Z.pos q) (new_location (Z.pos m2) r))).
    assert (HM0 : 2 ^ 52 <= round_nearest_even (shr_m mrs) (loc_of_shr_record mrs) <= 2 ^ 53
                  /\ - (2 * Z.pos m2)
                     <= 2 * 2 * Z.pos m2 * round_nearest_even (shr_m mrs) (loc_of_shr_record mrs)
                        - 2 * (Z.pos q * Z.pos m2 + r)
                     <= 2 * Z.pos m2).
    { subst mrs.
      destruct q as [p|p|]; [| |simpl in Hq; lia];
        pose proof (Pos2Z.inj_xI p) as HxI; pose proof (Pos2Z.inj_xO p) as HxO;
        destruct (new_location (Z.pos m2) r) as [|[]];
        cbn [shr_1 shr_record_of_loc loc_of_shr_record shr_m orb round_nearest_even];
        try destruct (Z.even (Z.pos p)); lia. }
    destruct HM0 as [HM0 Hb].
    assert (He1 : -1074 <= e' + 1 <= 970) by lia.
    assert (Hm2 : 0 < Z.pos m2) by lia.
    destruct (finish_bound (round_nearest_even (shr_m mrs) (loc_of_shr_record mrs)) (e' + 1)
                (Z.pos m2) (Z.pos q * Z.pos m2 + r) 2 HM0 He1 Hm2 eq_refl Hb)
      as (M & E & d & Hres & HdM & HE & Hdr & Hbound).
    exists M, E, (1 + d). split; [exact Hres|]. split; [exact HdM|]. split; [lia|].
    split; [lia|].
    rewrite Z.pow_add_r by lia. change (2 ^ 1) with 2. lia.
Qed.

(** Euclidean division as quotient and remainder. *)
Lemma div_eucl_div_mod : forall a b : Z, Z.div_eucl a b = (a / b, a mod b).
Proof. intros a b. unfold Z.div, Z.modulo. now destruct (Z.div_eucl a b). Qed.

(** The core of the division of two normal numbers with small exponents. *)
Lemma SFdiv_core_normal : forall (m1 m2 : positive) (e1 e2 : Z),
  Z.pos (digits2_pos m1) = 53 -> Z.pos (digits2_pos m2) = 53 ->
  -52 <= e1 <= 0 -> -52 <= e2 <= 0 ->
  SFdiv_core_binary prec emax (Z.pos m1) e1 (Z.pos m2) e2 =
  ((Z.pos m1 * 2 ^ 53) / Z.pos m2, e1 - e2 - 53,
   new_location (Z.pos m2) ((Z.pos m1 * 2 ^ 53) mod Z.pos m2)).
Proof.
  intros m1 m2 e1 e2 Hd1 Hd2 He1 He2. unfold SFdiv_core_binary, Zdigits2.
  rewrite Hd1, Hd2.
  replace (Z.min (fexp prec emax (53 + e1 - (53 + e2))) (e1 - e2)) with (e1 - e2 - 53)
    by (unfold fexp, emin, prec, emax; lia).
  replace (e1 - e2 - (e1 - e2 - 53)) with 53 by lia.
  cbv beta iota zeta.
  rewrite Z.shiftl_mul_pow2, div_eucl_div_mod by lia. reflexivity.
Qed.

(** The quotient of two normal numbers with small exponents: a normal
    number within half a unit in the last place of the exact quotient.  With
    [N = m1 * 2^53] the exact quotient is [N / m2 * 2^(e1 - e2 - 53)]. *)
Lemma SFdiv_normal : forall (m1 m2 : positive) (e1 e2 : Z),
  Z.pos (digits2_pos m1) = 53 -> Z.pos (digits2_pos m2) = 53 ->
  -52 <= e1 <= 0 -> -52 <= e2 <= 0 ->
  exists M E d,
    SF64div (S754_finite false m1 e1) (S754_finite false m2 e2) = S754_finite false M E
    /\ Z.pos (digits2_pos M) = 53
    /\ E = e1 - e2 - 53 + d /\ 0 <= d <= 2
    /\ - (Z.pos m2 * 2 ^ d)
       <= 2 * Z.pos m2 * Z.pos M * 2 ^ d - 2 * (Z.pos m1 * 2 ^ 53)
       <= Z.pos m2 * 2 ^ d.
Proof.
  intros m1 m2 e1 e2 Hd1 Hd2 He1 He2.
  unfold SF64div, SFdiv. rewrite SFdiv_core_normal by assumption.
  cbn [xorb].
  apply digits2_pos_bounds in Hd1, Hd2. change (2 ^ (53 - 1)) with (2 ^ 52) in *.
  pose proof (Z.div_mod (Z.pos m1 * 2 ^ 53) (Z.pos m2) ltac:(lia)) as Hdm.
  pose proof (Z.mod_pos_bound (Z.pos m1 * 2 ^ 53) (Z.pos m2) ltac:(lia)) as Hr.
  set (q := (Z.pos m1 * 2 ^ 53) / Z.pos m2) in *.
  set (r := (Z.pos m1 * 2 ^ 53) mod Z.pos m2) in *.
  assert (Hq : 2 ^ 52 <= q < 2 ^ 54).
  { split.
    - apply Z.div_le_lower_bound; [lia|].
      change (2 ^ 53) with (2 * 2 ^ 52). nia.
    - apply Z.div_lt_upper_bound; [lia|].
      change (2 ^ 54) with (2 * 2 ^ 53). nia. }
  destruct q as [|qp|qp] eqn:Eq; try (simpl in Hq; lia).
  destruct (round_div_spec qp m2 r (e1 - e2 - 53) Hq Hr ltac:(lia))
    as (M & E & d & Hres & HdM & HE & Hdr & Hb).
  exists M, E, d. split; [exact Hres|]. split; [exact HdM|]. split; [exact HE|].
  split; [exact Hdr|].
  replace (Z.pos m1 * 2 ^ 53) with (Z.pos qp * Z.pos m2 + r) by lia. exact Hb.
Qed.

(** *** The order of the rounded quotients

    Three facts of integer arithmetic, with [K = 2^52] the least 53-bit
    mantissa, [U] the scaled value of one unit at exponent -52, [M] the
    mantissas of rounded quotients and [P] the scaled weights of their
    exponents.  A rounded quotient of [i < n] cannot have a mantissa at
    weight [U] or more. *)
Lemma below_one : forall K U n i M P : Z,
  0 < K -> 0 < U -> n < 2 * K -> 1 <= i -> i < n -> K <= M -> U <= P ->
  2 * n * M * P <= 2 * i * (K * U) + n * P -> False.
Proof.
  intros K U n i M P HK HU Hn Hi Hin HM HP Herr.
  assert (H1 : 2 * n * K * P <= 2 * n * M * P).
  { apply Z.mul_le_mono_nonneg_r; [lia|]. apply Z.mul_le_mono_nonneg_l; lia. }
  assert (H2 : 2 * i * (K * U) <= 2 * (n - 1) * (K * P)).
  { apply Z.mul_le_mono_nonneg;
      [lia | lia | apply Z.mul_nonneg_nonneg; lia | apply Z.mul_le_mono_nonneg_l; lia]. }
  assert (H3 : 2 * K * P <= n * P) by lia.
  assert (H4 : n * P < 2 * K * P) by (apply Z.mul_lt_mono_pos_r; lia).
  lia.
Qed.

(** At the same weight, the mantissa for [i] is below the mantissa for
    [j > i]. *)
Lemma same_exponent : forall K U n i j Mi Mj P : Z,
  0 < K -> 0 < U -> n < 2 * K -> 1 <= i -> i < j -> j <= n ->
  0 < P -> 2 * P <= U -> Mj <= Mi ->
  2 * n * Mi * P <= 2 * i * (K * U) + n * P ->
  2 * j * (K * U) - n * P <= 2 * n * Mj * P ->
  False.
Proof.
  intros K U n i j Mi Mj P HK HU Hn Hi Hij Hjn HP HPU HM Hei Hej.
  assert (H1 : 2 * n * Mj * P <= 2 * n * Mi * P).
  { apply Z.mul_le_mono_nonneg_r; [lia|]. apply Z.mul_le_mono_nonneg_l; lia. }
  assert (H2 : 2 * (i + 1) * (K * U) <= 2 * j * (K * U)).
  { apply Z.mul_le_mono_nonneg_r; [apply Z.mul_nonneg_nonneg; lia | lia]. }
  assert (H3 : K * U <= n * P) by lia.
  assert (H4 : n * P < 2 * K * P) by (apply Z.mul_lt_mono_pos_r; lia).
  assert (H5 : 2 * K * P <= K * U).
  { replace (2 * K * P) with (K * (2 * P)) by ring. apply Z.mul_le_mono_nonneg_l; lia. }
  lia.
Qed.

(** The quotient for [j > i] cannot have a smaller weight than the one for
    [i]. *)
Lemma smaller_exponent : forall K U n i j Mi Mj Pi Pj : Z,
  0 < K -> 0 < U -> n < 2 * K -> 1 <= i -> i < j -> j <= n ->
  0 < Pj -> 2 * Pj <= Pi -> 2 * Pi <= U -> K <= Mi -> Mj < 2 * K -> 0 <= Mj ->
  2 * n * Mi * Pi <= 2 * i * (K * U) + n * Pi ->
  2 * j * (K * U) - n * Pj <= 2 * n * Mj * Pj ->
  False.
Proof.
  intros K U n i j Mi Mj Pi Pj HK HU Hn Hi Hij Hjn HPj HPji HPU HMi HMj HMj0 Hei Hej.
  assert (Hv : Mj * Pj <= Mi * Pi).
  { apply Z.le_trans with (2 * K * Pj).
    - apply Z.mul_le_mono_nonneg_r; lia.
    - apply Z.le_trans with (K * Pi).
      + replace (2 * K * Pj) with (K * (2 * Pj)) by ring. apply Z.mul_le_mono_nonneg_l; lia.
      + apply Z.mul_le_mono_nonneg_r; lia. }
  assert (H1 : 2 * n * Mj * Pj <= 2 * n * Mi * Pi).
  { replace (2 * n * Mj * Pj) with (2 * n * (Mj * Pj)) by ring.
    replace (2 * n * Mi * Pi) with (2 * n * (Mi * Pi)) by ring.
    apply Z.mul_le_mono_nonneg_l; lia. }
  assert (H2 : 2 * (i + 1) * (K * U) <= 2 * j * (K * U)).
  { apply Z.mul_le_mono_nonneg_r; [apply Z.mul_nonneg_nonneg; lia | lia]. }
  assert (H3 : 2 * (K * U) <= n * Pi + n * Pj) by lia.
  assert (H4 : n * Pj <= n * Pi) by (apply Z.mul_le_mono_nonneg_l; lia).
  assert (H5 : n * Pi < 2 * K * Pi) by (apply Z.mul_lt_mono_pos_r; lia).
  assert (H6 : 2 * K * Pi <= K * U).
  { replace (2 * K * Pi) with (K * (2 * Pi)) by ring. apply Z.mul_le_mono_nonneg_l; lia. }
  lia.
Qed.

(** The error bound of [SFdiv_normal] for the quotient [i / n] of two safe
    integers, scaled by [2^160]: with [P = 2^(E + 160)] the result is
    [M * P] and the exact quotient is [i * 2^160 / n]. *)
Lemma scaled_error : forall (i n : Z) (mi mn M : positive) (ei en E d : Z),
  0 < i -> 0 < n ->
  -52 <= ei <= 0 -> -52 <= en <= 0 ->
  Z.pos mi = i * 2 ^ (- ei) -> Z.pos mn = n * 2 ^ (- en) ->
  E = ei - en - 53 + d -> 0 <= d <= 2 ->
  - (Z.pos mn * 2 ^ d) <= 2 * Z.pos mn * Z.pos M * 2 ^ d - 2 * (Z.pos mi * 2 ^ 53)
                       <= Z.pos mn * 2 ^ d ->
  - (n * 2 ^ (E + 160)) <= 2 * n * Z.pos M * 2 ^ (E + 160) - 2 * i * (2 ^ 52 * 2 ^ 108)
                        <= n * 2 ^ (E + 160).
Proof.
  intros i n mi mn M ei en E d Hi Hn Hei Hen Hmi Hmn HE Hd Hb.
  set (c := 2 ^ (107 + ei)).
  assert (Hc : 0 < c) by (apply Z.pow_pos_nonneg; lia).
  assert (HP : 2 ^ (E + 160) = 2 ^ d * 2 ^ (- en) * c).
  { unfold c. rewrite <- !Z.pow_add_r by lia. f_equal. lia. }
  assert (HW : 2 ^ (- ei) * 2 ^ 53 * c = 2 ^ 52 * 2 ^ 108).
  { unfold c. rewrite <- !Z.pow_add_r by lia. f_equal. lia. }
  rewrite HP.
  replace (2 * i * (2 ^ 52 * 2 ^ 108)) with (2 * i * (2 ^ (- ei) * 2 ^ 53 * c))
    by (now rewrite HW).
  replace (n * (2 ^ d * 2 ^ (- en) * c)) with (Z.pos mn * 2 ^ d * c)
    by (rewrite Hmn; ring).
  replace (2 * n * Z.pos M * (2 ^ d * 2 ^ (- en) * c) - 2 * i * (2 ^ (- ei) * 2 ^ 53 * c))
    with ((2 * Z.pos mn * Z.pos M * 2 ^ d - 2 * (Z.pos mi * 2 ^ 53)) * c)
    by (rewrite Hmn, Hmi; ring).
  split.
  - rewrite <- Z.mul_opp_l. apply Z.mul_le_mono_nonneg_r; lia.
  - apply Z.mul_le_mono_nonneg_r; lia.
Qed.

(** In binary64 the quotients [i / n] of safe integers increase strictly
    with [i]. *)
Theorem Z2F_div_lt : forall i j n : Z,
  0 <= i -> i < j -> j <= n -> n < 2 ^ 53 ->
  PrimFloat.ltb (PrimFloat.div (Z2F i) (Z2F n)) (PrimFloat.div (Z2F j) (Z2F n)) = true.
Proof.
  intros i j n Hi Hij Hjn Hn.
  destruct (Z2F_normal n ltac:(lia)) as (mn & en & Hxn & Hdn & Hen & Hmn).
  destruct (Z2F_normal j ltac:(lia)) as (mj & ej & Hxj & Hdj & Hej & Hmj).
  destruct (SFdiv_normal mj mn ej en Hdj Hdn Hej Hen)
    as (Mj & Ej & dj & Hrj & HdMj & HEj & Hdjr & Hbj).
  rewrite ltb_spec, !div_spec, Hxn, Hxj, Hrj.
  destruct (Z.eq_dec i 0) as [->|Hi0].
  - reflexivity.
  - destruct (Z2F_normal i ltac:(lia)) as (mi & ei & Hxi & Hdi & Hei & Hmi).
    destruct (SFdiv_normal mi mn ei en Hdi Hdn Hei Hen)
      as (Mi & Ei & di & Hri & HdMi & HEi & Hdir & Hbi).
    rewrite Hxi, Hri. apply SFltb_finite.
    pose proof (scaled_error i n mi mn Mi ei en Ei di ltac:(lia) ltac:(lia)
                  Hei Hen Hmi Hmn HEi Hdir Hbi) as Herri.
    pose proof (scaled_error j n mj mn Mj ej en Ej dj ltac:(lia) ltac:(lia)
                  Hej Hen Hmj Hmn HEj Hdjr Hbj) as Herrj.
    apply digits2_pos_bounds in HdMi, HdMj.
    change (2 ^ (53 - 1)) with (2 ^ 52) in *.
    change (2 ^ 53) with (2 * 2 ^ 52) in HdMi, HdMj, Hn.
    set (K := 2 ^ 52) in *. set (U := 2 ^ 108) in *.
    assert (HK : 0 < K) by (unfold K; lia).
    assert (HU : 0 < U) by (unfold U; lia).
    assert (HPi : 0 < 2 ^ (Ei + 160)) by (apply Z.pow_pos_nonneg; lia).
    assert (HPj : 0 < 2 ^ (Ej + 160)) by (apply Z.pow_pos_nonneg; lia).
    (* the result for i is below one *)
    assert (HEi53 : Ei <= -53).
    { destruct (Z.le_gt_cases Ei (-53)) as [H|H]; [exact H|]. exfalso.
      assert (HUP : U <= 2 ^ (Ei + 160)) by (unfold U; apply Z.pow_le_mono_r; lia).
      apply (below_one K U n i (Z.pos Mi) (2 ^ (Ei + 160))); try lia. }
    assert (HUi : 2 * 2 ^ (Ei + 160) <= U).
    { rewrite <- Z.pow_succ_r by lia. unfold U. apply Z.pow_le_mono_r; lia. }
    destruct (Z.lt_trichotomy Ei Ej) as [Hlt|[Heq|Hgt]].
    + now left.
    + right. split; [exact Heq|].
      destruct (Z.lt_ge_cases (Z.pos Mi) (Z.pos Mj)) as [H|H]; [exact H|]. exfalso.
      rewrite <- Heq in Herrj.
      apply (same_exponent K U n i j (Z.pos Mi) (Z.pos Mj) (2 ^ (Ei + 160))); try lia.
    + exfalso.
      assert (HPji : 2 * 2 ^ (Ej + 160) <= 2 ^ (Ei + 160)).
      { rewrite <- Z.pow_succ_r by lia. apply Z.pow_le_mono_r; lia. }
      apply (smaller_exponent K U n i j (Z.pos Mi) (Z.pos Mj)
               (2 ^ (Ei + 160)) (2 ^ (Ej + 160))); try lia.
Qed.

End Quotients.

(* ------------------------------------------------------------------ *)
(** ** The checkpoint list: the loop in closed form *)

Lemma Zseq_length : forall k i, length (Zseq i k) = k.
Proof. induction k as [|k IH]; intros i; simpl; [reflexivity | now rewrite IH]. Qed.

Lemma Zseq_nth_error : forall k i j,
  (j < k)%nat -> nth_error (Zseq i k) j = Some (i + Z.of_nat j)%Z.
Proof.
  induction k as [|k IH]; intros i j Hj; [lia|].
  destruct j as [|j]; simpl.
  - f_equal; lia.
  - rewrite IH by lia. f_equal; lia.
Qed.

Section PathModelFacts.

Context {num : Type} `{Arith num}.
Variables start end_ : vec3 num.
Variable n : Z.

(** The loop pushes one checkpoint per counter value up to [n], and stops
    there whatever fuel is left. *)
Lemma linePoints_loop_spec : forall fuel i pts,
  linePoints_loop fuel start end_ n i pts =
  pts ++ map (checkpoint start end_ n)
             (Zseq i (Nat.min fuel (Z.to_nat (n - i + 1)))).
Proof.
  induction fuel as [|fuel IH]; intros i pts; simpl.
  - now rewrite app_nil_r.
  - destruct (Z.leb_spec i n) as [Hle|Hgt].
    + rewrite IH.
      replace (Z.to_nat (n - i + 1)) with (S (Z.to_nat (n - (i + 1) + 1))) by lia.
      simpl. now rewrite <- app_assoc.
    + replace (Z.to_nat (n - i + 1)) with O by lia.
      simpl. now rewrite app_nil_r.
Qed.

Lemma linePoints_closed_form :
  linePoints start end_ n = map (checkpoint start end_ n) (Zseq 0 (Z.to_nat (n + 1))).
Proof.
  unfold linePoints. rewrite linePoints_loop_spec. simpl.
  now replace (n - 0 + 1)%Z with (n + 1)%Z by lia; rewrite Nat.min_id.
Qed.

(** The fuel given in [linePoints] is enough: more fuel, same list. *)
Lemma linePoints_fuel : forall extra,
  linePoints_loop (Z.to_nat (n + 1) + extra) start end_ n 0 [] = linePoints start end_ n.
Proof.
  intros extra. rewrite linePoints_closed_form, linePoints_loop_spec. simpl.
  replace (n - 0 + 1)%Z with (n + 1)%Z by lia.
  now replace (Nat.min (Z.to_nat (n + 1) + extra) (Z.to_nat (n + 1)))
    with (Z.to_nat (n + 1)) by lia.
Qed.

Lemma linePoints_length : length (linePoints start end_ n) = Z.to_nat (n + 1).
Proof. now rewrite linePoints_closed_form, length_map, Zseq_length. Qed.

Lemma linePoints_nth_error : forall i,
  (0 <= i <= n)%Z ->
  nth_error (linePoints start end_ n) (Z.to_nat i) = Some (checkpoint start end_ n i).
Proof.
  intros i Hi. rewrite linePoints_closed_form, nth_error_map, Zseq_nth_error by lia.
  simpl. f_equal. f_equal. lia.
Qed.

Lemma checkpoint_position : forall i,
  position (checkpoint start end_ n i) = lerpVec start end_ (t (checkpoint start end_ n i)).
Proof. reflexivity. Qed.

End PathModelFacts.

(* ------------------------------------------------------------------ *)
(** ** The checkpoint list in binary64 *)

Lemma binary64_param : forall (start end_ : vec3 float) (n i : Z),
  t (checkpoint start end_ n i) = PrimFloat.div (Z2F i) (Z2F n).
Proof. reflexivity. Qed.

Lemma binary64_first_param : forall n : Z,
  (1 <= n < 2 ^ 53)%Z -> PrimFloat.div (Z2F 0) (Z2F n) = 0%float.
Proof.
  intros n Hn. destruct (Z2F_normal n Hn) as (m & e & Hm & _).
  change (Z2F 0) with 0%float. exact (zero_div _ _ _ Hm).
Qed.

(* ------------------------------------------------------------------ *)
(** ** The checkpoint list in exact arithmetic *)

Lemma exact_param : forall (start end_ : vec3 R) (n i : Z),
  t (checkpoint start end_ n i) = (IZR i / IZR n)%R.
Proof. reflexivity. Qed.

Lemma exact_param_lt : forall (n i j : Z),
  (1 <= n)%Z -> (i < j)%Z -> (IZR i / IZR n < IZR j / IZR n)%R.
Proof.
  intros n i j Hn Hij.
  assert (0 < IZR n)%R by (apply IZR_lt; lia).
  apply Rmult_lt_compat_r; [now apply Rinv_0_lt_compat | now apply IZR_lt].
Qed.

Lemma exact_lerp_0 : forall a b : R, lerp a b 0%R = a.
Proof. intros; unfold lerp; simpl; ring. Qed.

Lemma exact_lerp_1 : forall a b : R, lerp a b 1%R = b.
Proof. intros; unfold lerp; simpl; ring. Qed.

Lemma exact_first_param : forall n : Z, (1 <= n)%Z -> (IZR 0 / IZR n = 0)%R.
Proof. intros n Hn. unfold Rdiv. ring. Qed.

Lemma exact_last_param : forall n : Z, (1 <= n)%Z -> (IZR n / IZR n = 1)%R.
Proof.
  intros n Hn. assert (0 < IZR n)%R by (apply IZR_lt; lia).
  field. lra.
Qed.

Lemma linePoints_nth_error_inv :
  forall (num : Type) (A : Arith num) (start end_ : vec3 num) (n : Z) (i : nat) (p : point num),
    nth_error (linePoints start end_ n) i = Some p ->
    (Z.of_nat i <= n)%Z /\ p = checkpoint start end_ n (Z.of_nat i).
Proof.
  intros num A start end_ n i p Hp.
  assert (Hi : (i < Z.to_nat (n + 1))%nat).
  { rewrite <- (linePoints_length start end_ n). apply nth_error_Some. congruence. }
  split; [lia|].
  replace i with (Z.to_nat (Z.of_nat i)) in Hp by lia.
  rewrite linePoints_nth_error in Hp by lia. congruence.
Qed.

(* ------------------------------------------------------------------ *)
(** ** Claims about the checkpoint list *)

(** C6. For every start, end and count [n >= 1], [linePoints] holds exactly
    [n + 1] checkpoints, in the order of their indices [0, ..., n]; the
    checkpoint at index [i] has the parameter [t = i / n] and the position
    interpolated at [t].  The parameters start at 0, end at 1 and increase
    strictly with the index: in exact arithmetic for every count, and in
    binary64 for every count below 2^53. *)
Theorem C6_linePoints_parameters : forall n : Z,
  (1 <= n)%Z ->
  (forall (num : Type) (A : Arith num) (start end_ : vec3 num),
      length (linePoints start end_ n) = S (Z.to_nat n)
      /\ forall i : Z, (0 <= i <= n)%Z ->
           exists p, nth_error (linePoints start end_ n) (Z.to_nat i) = Some p
                     /\ t p = (of_int i / of_int n)%js
                     /\ position p = lerpVec start end_ (t p))
  /\ (forall (start end_ : vec3 R),
        (forall p, nth_error (linePoints start end_ n) 0 = Some p -> t p = 0%R)
        /\ (forall p, nth_error (linePoints start end_ n) (Z.to_nat n) = Some p -> t p = 1%R)
        /\ (forall (i j : nat) (p q : point R),
              (i < j)%nat ->
              nth_error (linePoints start end_ n) i = Some p ->
              nth_error (linePoints start end_ n) j = Some q ->
              (t p < t q)%R))
  /\ ((n < 2 ^ 53)%Z ->
      forall (start end_ : vec3 float),
        (forall p, nth_error (linePoints start end_ n) 0 = Some p -> t p = 0%float)
        /\ (forall p, nth_error (linePoints start end_ n) (Z.to_nat n) = Some p ->
            t p = 1%float)
        /\ (forall (i j : nat) (p q : point float),
              (i < j)%nat ->
              nth_error (linePoints start end_ n) i = Some p ->
              nth_error (linePoints start end_ n) j = Some q ->
              PrimFloat.ltb (t p) (t q) = true)).
Proof.
  intros n Hn. split; [|split].
  - intros num A start end_. split.
    + rewrite linePoints_length. lia.
    + intros i Hi. exists (checkpoint start end_ n i).
      split; [now apply linePoints_nth_error|]. split; reflexivity.
  - intros start end_. split; [|split].
    + intros p Hp. apply linePoints_nth_error_inv in Hp as [_ ->].
      rewrite exact_param. now apply exact_first_param.
    + intros p Hp. apply linePoints_nth_error_inv in Hp as [_ ->].
      rewrite exact_param, Z2Nat.id by lia. now apply exact_last_param.
    + intros i j p q Hij Hp Hq.
      apply linePoints_nth_error_inv in Hp as [_ ->].
      apply linePoints_nth_error_inv in Hq as [_ ->].
      rewrite !exact_param. apply exact_param_lt; lia.
  - intros Hsafe start end_. split; [|split].
    + intros p Hp. apply linePoints_nth_error_inv in Hp as [_ ->].
      rewrite binary64_param. apply binary64_first_param. lia.
    + intros p Hp. apply linePoints_nth_error_inv in Hp as [_ ->].
      rewrite binary64_param, Z2Nat.id by lia. apply Z2F_div_self. lia.
    + intros i j p q Hij Hp Hq.
      apply linePoints_nth_error_inv in Hp as [_ ->].
      apply linePoints_nth_error_inv in Hq as [Hj ->].
      rewrite !binary64_param. apply Z2F_div_lt; lia.
Qed.

Lemma C6_linePoints_parameters_witness :
  length (linePoints default_start default_end 2) = 3%nat.
Proof.
  exact (proj1 (proj1 (C6_linePoints_parameters 2 ltac:(lia)) float binary64
                  default_start default_end)).
Defined.

(** C1, as amended.  For every start, end and count [n >= 1] the first
    checkpoint and the checkpoint at index [n] are computed like every other
    one, by the interpolation formula at [t = 0 / n] and [t = n / n]; nothing
    assigns the end points directly.  In exact arithmetic these two positions
    are [start] and [end].  In binary64, for a count below 2^53, the first
    position is [start] on every axis where [end - start] is finite (up to
    the sign of a zero, as [===] compares), and the last position is
    [start + (end - start)] on every axis, with the rounding of the
    subtraction and of the addition. *)
Theorem C1_endpoints_by_interpolation : forall n : Z,
  (1 <= n)%Z ->
  (forall (num : Type) (A : Arith num) (start end_ : vec3 num),
      exists p0 pn,
        nth_error (linePoints start end_ n) 0 = Some p0
        /\ nth_error (linePoints start end_ n) (Z.to_nat n) = Some pn
        /\ position p0 = lerpVec start end_ (of_int 0 / of_int n)%js
        /\ position pn = lerpVec start end_ (of_int n / of_int n)%js)
  /\ (forall (start end_ : vec3 R),
        exists p0 pn,
          nth_error (linePoints start end_ n) 0 = Some p0
          /\ nth_error (linePoints start end_ n) (Z.to_nat n) = Some pn
          /\ position p0 = start
          /\ position pn = end_)
  /\ ((n < 2 ^ 53)%Z ->
      forall (start end_ : vec3 float),
        exists p0 pn,
          nth_error (linePoints start end_ n) 0 = Some p0
          /\ nth_error (linePoints start end_ n) (Z.to_nat n) = Some pn
          /\ (is_finite (c0 end_ - c0 start) = true ->
              PrimFloat.eqb (x p0) (c0 start) = true)
          /\ (is_finite (c1 end_ - c1 start) = true ->
              PrimFloat.eqb (y p0) (c1 start) = true)
          /\ (is_finite (c2 end_ - c2 start) = true ->
              PrimFloat.eqb (z p0) (c2 start) = true)
          /\ position pn =
             Vec3 (c0 start + (c0 end_ - c0 start))%float
                  (c1 start + (c1 end_ - c1 start))%float
                  (c2 start + (c2 end_ - c2 start))%float).
Proof.
  intros n Hn. split; [|split].
  - intros num A start end_.
    exists (checkpoint start end_ n 0), (checkpoint start end_ n n).
    split; [apply (linePoints_nth_error start end_ n 0); lia|].
    split; [apply linePoints_nth_error; lia|]. split; reflexivity.
  - intros start end_.
    exists (checkpoint start end_ n 0), (checkpoint start end_ n n).
    split; [apply (linePoints_nth_error start end_ n 0); lia|].
    split; [apply linePoints_nth_error; lia|].
    rewrite !checkpoint_position, !exact_param.
    rewrite exact_first_param, exact_last_param by assumption.
    unfold lerpVec. rewrite !exact_lerp_0, !exact_lerp_1.
    destruct start, end_. split; reflexivity.
  - intros Hsafe start end_.
    exists (checkpoint start end_ n 0), (checkpoint start end_ n n).
    split; [apply (linePoints_nth_error start end_ n 0); lia|].
    split; [apply linePoints_nth_error; lia|].
    assert (H0 : PrimFloat.div (Z2F 0) (Z2F n) = 0%float)
      by (apply binary64_first_param; lia).
    assert (H1 : PrimFloat.div (Z2F n) (Z2F n) = 1%float)
      by (apply Z2F_div_self; lia).
    unfold checkpoint, position, lerpVec. simpl. rewrite H0, H1.
    split; [apply lerp64_at_0|]. split; [apply lerp64_at_0|].
    split; [apply lerp64_at_0|]. now rewrite !mul_one.
Qed.

Lemma C1_endpoints_by_interpolation_witness :
  exists p0 pn : point float,
    nth_error (linePoints default_start default_end 2) 0 = Some p0
    /\ nth_error (linePoints default_start default_end 2) (Z.to_nat 2) = Some pn
    /\ position p0 = lerpVec default_start default_end (of_int 0 / of_int 2)%js
    /\ position pn = lerpVec default_start default_end (of_int 2 / of_int 2)%js.
Proof.
  exact (proj1 (C1_endpoints_by_interpolation 2 ltac:(lia)) float binary64
           default_start default_end).
Defined.

(** C1, as stated, fails in binary64: from start (0.7, 0, 0) to end
    (0.1, 0, 0) with one leg, the checkpoint at index 1 has
    x = 0.7 + (0.1 - 0.7) * 1 = 0.09999999999999998, which is not the x of
    [end]. *)
Lemma C1_last_checkpoint_is_not_end :
  exists p : point float,
    nth_error (linePoints (Vec3 0.7 0 0)%float (Vec3 0.1 0 0)%float 1) 1 = Some p
    /\ x p = 0.099999999999999978%float
    /\ PrimFloat.eqb (x p) 0.1 = false
    /\ position p <> (Vec3 0.1 0 0)%float.
Proof.
  eexists. split; [vm_compute; reflexivity|]. simpl.
  split; [vm_compute; reflexivity|]. split; [vm_compute; reflexivity|].
  intros E. apply (f_equal (fun v => PrimFloat.eqb (c0 v) 0.1)) in E.
  vm_compute in E. discriminate E.
Qed.

(* ------------------------------------------------------------------ *)
(** ** Reconciling the flags with a new length *)

Lemma array_set_length_app : forall (l1 l2 : list bool) (b v : bool) (i : nat),
  length l1 = i -> array_set (l1 ++ b :: l2) i v = l1 ++ v :: l2.
Proof.
  induction l1 as [|a l1 IH]; intros l2 b v i <-; simpl; [reflexivity|].
  now rewrite IH.
Qed.

Lemma firstn_succ_nth : forall (prev : list bool) (i : nat),
  (i < length prev)%nat ->
  firstn (S i) prev = firstn i prev ++ [array_get prev i].
Proof.
  induction prev as [|a prev IH]; intros i Hi; simpl in Hi; [lia|].
  destruct i as [|i]; [reflexivity|].
  change (firstn (S (S i)) (a :: prev)) with (a :: firstn (S i) prev).
  rewrite IH by lia. reflexivity.
Qed.

(** The invariant of the copying loop: the first [i] flags are those of
    [prev], the rest is still [false]. *)
Lemma reconcile_loop_spec : forall fuel prev n i,
  (i <= Nat.min (length prev) n)%nat ->
  reconcile_loop fuel prev n i (firstn i prev ++ repeat false (n - i)) =
  let k := Nat.min (i + fuel) (Nat.min (length prev) n) in
  firstn k prev ++ repeat false (n - k).
Proof.
  induction fuel as [|fuel IH]; intros prev n i Hi; simpl.
  - now replace (Nat.min (i + 0) (Nat.min (length prev) n)) with i by lia.
  - destruct (Nat.ltb_spec i (Nat.min (length prev) n)) as [Hlt|Hge].
    + replace (n - i)%nat with (S (n - S i)) by lia. simpl repeat.
      rewrite array_set_length_app by (rewrite length_firstn; lia).
      replace (firstn i prev ++ array_get prev i :: repeat false (n - S i))
        with (firstn (S i) prev ++ repeat false (n - S i))
        by (rewrite firstn_succ_nth by lia; now rewrite <- app_assoc).
      rewrite IH by lia. cbv zeta.
      now replace (S i + fuel)%nat with (i + S fuel)%nat by lia.
    + now replace (Nat.min (i + S fuel) (Nat.min (length prev) n)) with i by lia.
Qed.

Lemma reconcile_closed_form : forall prev n,
  reconcile prev n = firstn n prev ++ repeat false (n - length prev).
Proof.
  intros prev n. unfold reconcile.
  pose proof (reconcile_loop_spec (Nat.min (length prev) n) prev n 0 ltac:(lia)) as Hs.
  simpl in Hs. rewrite Nat.sub_0_r in Hs. rewrite Hs, Nat.min_id.
  destruct (Nat.le_ge_cases (length prev) n) as [Hle|Hge].
  - rewrite Nat.min_l by lia. rewrite firstn_all. now rewrite firstn_all2 by lia.
  - rewrite Nat.min_r by lia. rewrite Nat.sub_diag.
    now replace (n - length prev)%nat with O by lia.
Qed.

(** The loop stops at [Math.min(prev.length, n)] by its own test. *)
Lemma reconcile_fuel : forall prev n extra,
  reconcile_loop (Nat.min (length prev) n + extra) prev n 0 (repeat false n) =
  reconcile prev n.
Proof.
  intros prev n extra. rewrite reconcile_closed_form.
  pose proof (reconcile_loop_spec (Nat.min (length prev) n + extra) prev n 0 ltac:(lia)) as Hs.
  simpl in Hs. rewrite Nat.sub_0_r in Hs. rewrite Hs.
  replace (Nat.min (Nat.min (length prev) n + extra) (Nat.min (length prev) n))
    with (Nat.min (length prev) n) by lia.
  destruct (Nat.le_ge_cases (length prev) n) as [Hle|Hge].
  - rewrite Nat.min_l by lia. rewrite firstn_all. now rewrite firstn_all2 by lia.
  - rewrite Nat.min_r by lia. rewrite Nat.sub_diag.
    now replace (n - length prev)%nat with O by lia.
Qed.

(** C7. For every previous flag list and every new length [n],
    [reconcile] returns a list of length exactly [n]; every index below
    [min (length prev) n] holds the previous flag, every other index holds
    [false]; and when [n] is the previous length the list is unchanged. *)
Theorem C7_reconcile : forall (prev : list bool) (n : nat),
  length (reconcile prev n) = n
  /\ (forall i, (i < Nat.min (length prev) n)%nat ->
        nth_error (reconcile prev n) i = nth_error prev i)
  /\ (forall i, (Nat.min (length prev) n <= i < n)%nat ->
        nth_error (reconcile prev n) i = Some false)
  /\ (n = length prev -> reconcile prev n = prev).
Proof.
  intros prev n. rewrite reconcile_closed_form.
  assert (Hlen : length (firstn n prev) = Nat.min n (length prev))
    by apply length_firstn.
  split; [|split; [|split]].
  - rewrite length_app, repeat_length. lia.
  - intros i Hi. rewrite nth_error_app1 by lia.
    rewrite nth_error_firstn.
    destruct (Nat.ltb_spec i n); [reflexivity | lia].
  - intros i Hi. rewrite nth_error_app2 by lia.
    apply nth_error_repeat. lia.
  - intros ->. rewrite firstn_all, Nat.sub_diag. apply app_nil_r.
Qed.

(* ------------------------------------------------------------------ *)
(** ** The current checkpoint *)

Lemma findIndex_first : forall (A : Type) (f : A -> bool) (l : list A) (i : nat) (a : A),
  nth_error l i = Some a -> f a = true ->
  (forall j b, (j < i)%nat -> nth_error l j = Some b -> f b = false) ->
  findIndex f l = Some i.
Proof.
  intros A f. induction l as [|c l IH]; intros i a Hi Ha Hbefore.
  - destruct i; discriminate Hi.
  - destruct i as [|i]; simpl in *.
    + injection Hi as ->. now rewrite Ha.
    + rewrite (Hbefore 0%nat c) by (reflexivity || lia).
      rewrite (IH i a Hi Ha); [reflexivity|].
      intros j b Hj Hb. apply (Hbefore (S j) b); [lia | exact Hb].
Qed.

Lemma findIndex_none : forall (A : Type) (f : A -> bool) (l : list A),
  (forall a, In a l -> f a = false) -> findIndex f l = None.
Proof.
  intros A f. induction l as [|c l IH]; intros Hall; simpl; [reflexivity|].
  rewrite (Hall c) by now left.
  rewrite IH; [reflexivity|]. intros a Ha. apply Hall. now right.
Qed.

Lemma nth_error_last : forall (A : Type) (l : list A) (d : A),
  l <> [] -> nth_error l (length l - 1) = Some (last l d).
Proof.
  intros A. induction l as [|a l IH]; intros d Hne; [congruence|].
  destruct l as [|b l]; [reflexivity|].
  replace (length (a :: b :: l) - 1)%nat with (S (length (b :: l) - 1))
    by (simpl; lia).
  change (nth_error (b :: l) (length (b :: l) - 1) = Some (last (b :: l) d)).
  apply IH. discriminate.
Qed.

(** C9. For flags aligned to a non-empty checkpoint list, [currentPoint] is
    the checkpoint at the smallest index whose flag is false; when every flag
    is true it is the last checkpoint; for the flags [true, false, true] over
    three checkpoints it is the checkpoint at index 1. *)
Theorem C9_currentPoint : forall (P : Type) (done : list bool) (linePoints : list P),
  length done = length linePoints ->
  linePoints <> [] ->
  (forall i, nth_error done i = Some false ->
             (forall j, (j < i)%nat -> nth_error done j = Some true) ->
             exists p, nth_error linePoints i = Some p
                       /\ currentPoint done linePoints = Some p)
  /\ ((forall v, In v done -> v = true) ->
      forall d, currentPoint done linePoints = Some (last linePoints d))
  /\ (forall p0 p1 p2 : P, currentPoint [true; false; true] [p0; p1; p2] = Some p1).
Proof.
  intros P done linePoints Hlen Hne. split; [|split].
  - intros i Hi Hbefore.
    assert (Hlt : (i < length linePoints)%nat).
    { rewrite <- Hlen. apply nth_error_Some. congruence. }
    destruct (nth_error linePoints i) as [p|] eqn:Hp;
      [|apply nth_error_None in Hp; lia].
    exists p. split; [reflexivity|]. unfold currentPoint.
    rewrite (findIndex_first _ _ done i false Hi eq_refl); [exact Hp|].
    intros j b Hj Hb. rewrite (Hbefore j Hj) in Hb. now injection Hb as <-.
  - intros Hall d. unfold currentPoint.
    rewrite findIndex_none by (intros a Ha; now rewrite (Hall a Ha)).
    destruct linePoints as [|p l]; [congruence|].
    now apply nth_error_last.
  - reflexivity.
Qed.

Lemma C9_currentPoint_witness :
  exists p, nth_error [10; 20; 30]%nat 1 = Some p
            /\ currentPoint [true; false; true] [10; 20; 30]%nat = Some p.
Proof.
  refine (proj1 (C9_currentPoint nat [true; false; true] [10; 20; 30]%nat
                   eq_refl _) 1%nat eq_refl _).
  - discriminate.
  - intros [|[|j]] Hj; [reflexivity | lia | lia].
Defined.

(* ------------------------------------------------------------------ *)
(** ** The progress figure *)

Lemma completedCount_le_length : forall done : list bool,
  (completedCount done <= length done)%nat.
Proof. intros done. apply filter_length_le. Qed.

Lemma completedCount_all_true : forall done : list bool,
  (forall v, In v done -> v = true) -> completedCount done = length done.
Proof.
  unfold completedCount. intros done.
  induction done as [|v done IH]; intros Hall; [reflexivity|].
  simpl. rewrite (Hall v) by now left. simpl. f_equal.
  apply IH. intros w Hw. apply Hall. now right.
Qed.

Lemma completedCount_none_true : forall done : list bool,
  (forall v, In v done -> v = false) -> completedCount done = 0%nat.
Proof.
  unfold completedCount. intros done.
  induction done as [|v done IH]; intros Hall; [reflexivity|].
  simpl. rewrite (Hall v) by now left.
  apply IH. intros w Hw. apply Hall. now right.
Qed.

(** [progress] in exact arithmetic, for more than one checkpoint. *)
Lemma exact_progress : forall (done : list bool) (L : nat),
  (1 < L)%nat ->
  progress done L = (INR (completedCount done) / INR (L - 1) * 100)%R.
Proof.
  intros done L HL. unfold progress.
  destruct (Nat.ltb_spec 1 L) as [Hlt|Hge]; [|lia].
  simpl. now rewrite <- !INR_IZR_INZ.
Qed.

(** C2, as amended.  For flags aligned to [L] checkpoints, [progress] is
    [completedCount / (L - 1) * 100] when [L > 1] and 0 when [L <= 1].  In
    exact arithmetic it lies between 0 and [100 * L / (L - 1)]; it is 0 when
    no flag is true, at most 100 exactly when at most [L - 1] flags are true,
    and [100 * L / (L - 1)], above 100, when all [L] flags of a path of more
    than one checkpoint are true.  In binary64, for fewer than 2^53 legs, it
    is 0 when no flag is true and 100 when exactly [L - 1] flags are true. *)
Theorem C2_progress_formula_and_range : forall (done : list bool) (L : nat),
  length done = L ->
  (forall (num : Type) (A : Arith num),
      ((1 < L)%nat ->
         progress done L =
         (of_int (Z.of_nat (completedCount done)) / of_int (Z.of_nat (L - 1))
            * of_int 100)%js)
      /\ ((L <= 1)%nat -> progress done L = of_int 0))
  /\ ((1 < L)%nat ->
      (0 <= progress done L <= 100 * INR L / INR (L - 1))%R
      /\ ((forall v, In v done -> v = false) -> progress done L = 0%R)
      /\ ((completedCount done <= L - 1)%nat <-> (progress done L <= 100)%R)
      /\ ((forall v, In v done -> v = true) ->
          progress done L = (100 * INR L / INR (L - 1))%R
          /\ (100 < progress done L)%R))
  /\ ((1 < L)%nat -> (Z.of_nat (L - 1) < 2 ^ 53)%Z ->
      ((forall v, In v done -> v = false) -> progress done L = 0%float)
      /\ (completedCount done = (L - 1)%nat -> progress done L = 100%float)).
Proof.
  intros done L Hlen. split; [|split].
  - intros num A. unfold progress. split; intros HL.
    + destruct (Nat.ltb_spec 1 L); [reflexivity | lia].
    + destruct (Nat.ltb_spec 1 L); [lia | reflexivity].
  - intros HL. rewrite exact_progress by assumption.
    pose proof (completedCount_le_length done) as Hc. rewrite Hlen in Hc.
    assert (Hpos : (0 < INR (L - 1))%R) by (apply lt_0_INR; lia).
    assert (Hc0 : (0 <= INR (completedCount done))%R) by apply pos_INR.
    assert (HcL : (INR (completedCount done) <= INR L)%R) by now apply le_INR.
    assert (HL1 : (INR L = INR (L - 1) + 1)%R).
    { rewrite <- S_INR. f_equal. lia. }
    split; [|split; [|split]].
    + split.
      * apply Rmult_le_pos; [|lra]. apply Rmult_le_pos; [lra|].
        apply Rlt_le. now apply Rinv_0_lt_compat.
      * apply Rmult_le_reg_r with (INR (L - 1)); [exact Hpos|].
        field_simplify; lra.
    + intros Hnone. rewrite completedCount_none_true by assumption.
      simpl. unfold Rdiv. ring.
    + split.
      * intros Hle. apply le_INR in Hle.
        apply Rmult_le_reg_r with (INR (L - 1)); [exact Hpos|].
        field_simplify; lra.
      * intros Hle. apply INR_le.
        apply Rmult_le_compat_r with (r := INR (L - 1)) in Hle; [|lra].
        field_simplify in Hle; lra.
    + intros Hall. rewrite completedCount_all_true, Hlen by assumption. split.
      * field. lra.
      * apply Rmult_lt_reg_r with (INR (L - 1)); [exact Hpos|].
        field_simplify; lra.
  - intros HL Hsafe. unfold progress.
    destruct (Nat.ltb_spec 1 L) as [_|Hge]; [|lia]. simpl. split.
    + intros Hnone. rewrite completedCount_none_true by assumption.
      change (Z.of_nat 0) with 0%Z. rewrite binary64_first_param by lia. reflexivity.
    + intros ->. rewrite Z2F_div_self by lia. reflexivity.
Qed.

Lemma C2_progress_formula_and_range_witness :
  (0 <= progress [true; false; true] 3 <= 100 * INR 3 / INR (3 - 1))%R.
Proof.
  exact (proj1 (proj1 (proj2 (C2_progress_formula_and_range [true; false; true] 3 eq_refl))
                  ltac:(lia))).
Defined.

(** C2, as stated, fails: with three checkpoints and all three flags true
    the figure is 3 / 2 * 100 = 150, outside [0, 100] and not 100. *)
Lemma C2_progress_exceeds_100 :
  length [true; true; true] = 3%nat
  /\ progress [true; true; true] 3 = 150%float
  /\ PrimFloat.leb (progress [true; true; true] 3) 100 = false
  /\ progress [true; true; true] 3 = 150%R.
Proof.
  split; [reflexivity|]. split; [vm_compute; reflexivity|].
  split; [vm_compute; reflexivity|].
  rewrite exact_progress by lia. simpl. lra.
Qed.

(* ------------------------------------------------------------------ *)
(** ** Import, export and load: what the handlers do to the world *)

(** [handleImportJSON] case by case: a text that does not parse, or that
    denotes [null], raises inside [try] and ends in the [alert]; a document
    whose [start] and [end] are both truthy sets the five cells; any other
    document does nothing at all. *)
Lemma handleImportJSON_spec : forall (file : text) (w : world),
  handleImportJSON file w =
  match file with
  | JSONText VUndefined | JSONText VNull | EmptyText | NotJSON =>
      (Ok tt, World (app w) (alerts w ++ ["Invalid JSON"%string]))
  | JSONText obj =>
      if truthy (prop obj "start") && truthy (prop obj "end")
      then (Ok tt, World (imported obj) (alerts w))
      else (Ok tt, w)
  end.
Proof.
  intros file w. unfold handleImportJSON, try_catch, bind, lift, js_and.
  destruct file as [| |obj]; simpl; try reflexivity.
  destruct obj as [| |b|n|s|elems|props]; simpl; try reflexivity.
  destruct (truthy (lookup "start" props)) eqn:Hs; simpl.
  - destruct (truthy (lookup "end" props)) eqn:He; simpl; reflexivity.
  - unfold ret. rewrite Hs. reflexivity.
Qed.

(** The loading effect case by case. *)
Lemma load_spec : forall (ls : localStorage) (stateKey : string) (w : world),
  load ls stateKey w =
  match getItem ls stateKey with
  | None | Some EmptyText | Some NotJSON
  | Some (JSONText VUndefined) | Some (JSONText VNull) => (Ok tt, w)
  | Some (JSONText obj) =>
      if truthy (prop obj "start") && truthy (prop obj "end")
         && truthy (prop obj "numCheckpoints")
      then (Ok tt, World (loaded obj) (alerts w))
      else (Ok tt, w)
  end.
Proof.
  intros ls stateKey w. unfold load.
  destruct (getItem ls stateKey) as [[| |obj]|]; simpl; try reflexivity.
  unfold try_catch, bind, lift, js_and.
  destruct obj as [| |b|n|s|elems|props]; simpl; try reflexivity.
  destruct (truthy (lookup "start" props)) eqn:Hs; simpl.
  - destruct (truthy (lookup "end" props)) eqn:He; simpl.
    + destruct (truthy (lookup "numCheckpoints" props)) eqn:Hn; simpl; reflexivity.
    + unfold ret. repeat (rewrite ?He; simpl). reflexivity.
  - unfold ret. repeat (rewrite ?Hs; simpl). reflexivity.
Qed.

(** Neither handler lets an exception out. *)
Lemma handleImportJSON_returns : forall file w, fst (handleImportJSON file w) = Ok tt.
Proof.
  intros file w. rewrite handleImportJSON_spec.
  destruct file as [| |[| |b|n|s|elems|props]]; try reflexivity;
    match goal with |- context [if ?c then _ else _] => destruct c end; reflexivity.
Qed.

Lemma load_returns : forall ls stateKey w, fst (load ls stateKey w) = Ok tt.
Proof.
  intros ls stateKey w. rewrite load_spec.
  destruct (getItem ls stateKey) as [[| |[| |b|n|s|elems|props]]|]; try reflexivity;
    match goal with |- context [if ?c then _ else _] => destruct c end; reflexivity.
Qed.

(* ------------------------------------------------------------------ *)
(** ** Writing a snapshot as JSON *)

Lemma number_exact_to_json : forall n : float,
  number_exact n = true -> number_to_json n = VNum n.
Proof.
  intros n Hn. unfold number_exact in Hn. apply andb_prop in Hn as [Hfin Hzero].
  unfold number_to_json. rewrite Hfin.
  destruct (is_zero n); [|reflexivity].
  simpl in Hzero. apply FloatAxioms.Leibniz.eqb_spec in Hzero. now subst n.
Qed.

Lemma number_exact_truthy : forall n : float,
  number_exact n = true -> is_zero n = false -> truthy (VNum n) = true.
Proof.
  intros n Hn Hz. unfold number_exact in Hn. apply andb_prop in Hn as [Hfin _].
  unfold is_finite in Hfin. simpl. rewrite Hz. simpl.
  destruct (is_nan n); [discriminate Hfin | reflexivity].
Qed.

(** The document written for a snapshot whose numbers JSON can write holds
    the five cells as they are. *)
Lemma export_exact_snapshot : forall sn : snapshot,
  snapshot_exact sn = true ->
  handleExportJSON (state_of_snapshot sn) = JSONText (data (state_of_snapshot sn)).
Proof.
  intros [[a0 a1 a2] [b0 b1 b2] c r flags] Hsn.
  unfold snapshot_exact, vec3_exact in Hsn. cbn -[number_exact] in Hsn.
  rewrite !andb_true_iff in Hsn.
  destruct Hsn as [[[[[? ?] ?] [[? ?] ?]] ?] ?].
  unfold handleExportJSON, JSON_stringify, data, state_of_snapshot, array_of_vec3.
  cbn -[number_to_json].
  rewrite !number_exact_to_json by assumption.
  rewrite map_map. reflexivity.
Qed.

(** Two numbers that [===] tells apart are different values. *)
Lemma VNum_neq : forall a b : float,
  PrimFloat.eqb a b = false -> PrimFloat.eqb b b = true -> VNum a <> VNum b.
Proof.
  intros a b Hab Hbb E.
  assert (Heq : a = b)
    by exact (f_equal (fun v => match v with VNum n => n | _ => a end) E).
  subst a. congruence.
Qed.

(* ------------------------------------------------------------------ *)
(** ** Claims about import, export and load *)

(** C4, as amended.  For every snapshot whose numbers JSON can write
    (finite, not the negative zero) and whose checkpoint count and radius are
    not zero, importing the exported text succeeds, raises no notice, and
    leaves exactly that snapshot in the five cells, whatever the state
    before. *)
Theorem C4_export_import_round_trip : forall (sn : snapshot) (w : world),
  snapshot_exact sn = true ->
  is_zero (snap_checkpointCount sn) = false ->
  is_zero (snap_radius sn) = false ->
  handleImportJSON (handleExportJSON (state_of_snapshot sn)) w =
  (Ok tt, World (state_of_snapshot sn) (alerts w)).
Proof.
  intros sn w Hsn Hc Hr.
  rewrite export_exact_snapshot, handleImportJSON_spec by assumption.
  unfold snapshot_exact in Hsn. rewrite !andb_true_iff in Hsn.
  destruct Hsn as [[_ Hce] Hre].
  unfold imported, data. cbn [prop lookup String.eqb Ascii.eqb Bool.eqb].
  cbn [state_of_snapshot radius start end_ numCheckpoints done array_of_vec3].
  cbn [truthy andb]. unfold js_or.
  rewrite !number_exact_truthy by assumption. reflexivity.
Qed.

Lemma C4_export_import_round_trip_witness :
  handleImportJSON
    (handleExportJSON
       (state_of_snapshot (Snapshot default_start default_end 50 500 [true; false])))
    (World initial []) =
  (Ok tt,
   World (state_of_snapshot (Snapshot default_start default_end 50 500 [true; false])) []).
Proof.
  exact (C4_export_import_round_trip
           (Snapshot default_start default_end 50 500 [true; false])
           (World initial []) eq_refl eq_refl eq_refl).
Defined.

(** C4, as stated, fails for a snapshot whose radius is 0: the radius comes
    back as 500.  The loading effect leaves such a snapshot in the cells when
    the stored document has [radius] 0. *)
Lemma C4_zero_radius_is_not_restored :
  snapshot_exact (Snapshot default_start default_end 50 0 []) = true
  /\ radius (state_of_snapshot (Snapshot default_start default_end 50 0 [])) = VNum 0
  /\ radius (app (snd (handleImportJSON
                         (handleExportJSON
                            (state_of_snapshot (Snapshot default_start default_end 50 0 [])))
                         (World initial [])))) = VNum 500
  /\ app (snd (load (fun _ => Some (JSONText
                      (data (state_of_snapshot (Snapshot default_start default_end 50 0 [])))))
                 "nms-line-state-v1" (World initial []))) =
     state_of_snapshot (Snapshot default_start default_end 50 0 []).
Proof.
  repeat split; vm_compute; reflexivity.
Qed.

(** C5, as amended.  [handleImportJSON] never throws to its caller, and for
    every text it either sets all five cells from the document (count, radius
    and flags from their defaults when absent or falsy) or leaves the state
    exactly as it was.  The state is left as it was exactly when the text is
    not well-formed JSON, denotes [null], or has no truthy [start] or no
    truthy [end].  The notice "Invalid JSON" is shown in the first two cases
    only: a document that merely lacks [start] or [end] is ignored without a
    notice, as the text [{"start":[0,0,0]}] is. *)
Theorem C5_import_all_or_nothing : forall (file : text) (w : world),
  fst (handleImportJSON file w) = Ok tt
  /\ ((forall obj, file = JSONText obj -> obj = VNull \/ obj = VUndefined) ->
      snd (handleImportJSON file w) =
      World (app w) (alerts w ++ ["Invalid JSON"%string]))
  /\ (forall obj, file = JSONText obj -> obj <> VNull -> obj <> VUndefined ->
      (truthy (prop obj "start") && truthy (prop obj "end") = false ->
         snd (handleImportJSON file w) = w)
      /\ (truthy (prop obj "start") && truthy (prop obj "end") = true ->
         snd (handleImportJSON file w) = World (imported obj) (alerts w)))
  /\ snd (handleImportJSON
            (JSONText (VObj [("start"%string, VArr [VNum 0; VNum 0; VNum 0])])) w) = w.
Proof.
  intros file w. split; [apply handleImportJSON_returns|].
  rewrite !handleImportJSON_spec. split; [|split].
  - intros Hnull. destruct file as [| |obj]; try reflexivity.
    destruct (Hnull obj eq_refl) as [-> | ->]; reflexivity.
  - intros obj -> Hnn Hnu. split; intros Hguard.
    + destruct obj; try congruence; simpl in *; rewrite ?Hguard; reflexivity.
    + destruct obj; try congruence; simpl in *; rewrite ?Hguard;
        try discriminate; reflexivity.
  - reflexivity.
Qed.

(** C5, as stated, fails on its own example: importing [{"start":[0,0,0]}]
    leaves the state unchanged but shows no notice. *)
Lemma C5_missing_end_shows_no_notice :
  handleImportJSON (JSONText (VObj [("start"%string, VArr [VNum 0; VNum 0; VNum 0])]))
    (World initial []) = (Ok tt, World initial [])
  /\ alerts (snd (handleImportJSON
                    (JSONText (VObj [("start"%string, VArr [VNum 0; VNum 0; VNum 0])]))
                    (World initial []))) = [].
Proof. split; vm_compute; reflexivity. Qed.

(** C8. The loading effect never throws to its caller and shows no notice.
    When nothing is stored under the key, when the stored text does not
    parse, or when the stored document lacks [start], [end] or
    [numCheckpoints], the state is left as it is.  When the document is
    accepted, the cells take its [start], [end] and [numCheckpoints]; a
    missing [radius] becomes 500 and a missing [done] the empty list. *)
Theorem C8_load : forall (ls : localStorage) (stateKey : string) (w : world),
  fst (load ls stateKey w) = Ok tt
  /\ alerts (snd (load ls stateKey w)) = alerts w
  /\ (getItem ls stateKey = None -> snd (load ls stateKey w) = w)
  /\ (forall s e, getItem ls stateKey = Some s -> JSON_parse s = Throw e ->
        snd (load ls stateKey w) = w)
  /\ (forall obj, getItem ls stateKey = Some (JSONText obj) ->
        (prop obj "start" = VUndefined \/ prop obj "end" = VUndefined
         \/ prop obj "numCheckpoints" = VUndefined ->
         snd (load ls stateKey w) = w)
        /\ (truthy (prop obj "start") && truthy (prop obj "end")
            && truthy (prop obj "numCheckpoints") = false ->
            snd (load ls stateKey w) = w)
        /\ (truthy (prop obj "start") && truthy (prop obj "end")
            && truthy (prop obj "numCheckpoints") = true ->
            start (app (snd (load ls stateKey w))) = prop obj "start"
            /\ end_ (app (snd (load ls stateKey w))) = prop obj "end"
            /\ numCheckpoints (app (snd (load ls stateKey w))) = prop obj "numCheckpoints"
            /\ radius (app (snd (load ls stateKey w))) =
               js_nullish (prop obj "radius") (VNum 500)
            /\ done (app (snd (load ls stateKey w))) =
               js_nullish (prop obj "done") (VArr [])
            /\ (prop obj "radius" = VUndefined ->
                radius (app (snd (load ls stateKey w))) = VNum 500)
            /\ (prop obj "done" = VUndefined ->
                done (app (snd (load ls stateKey w))) = VArr []))).
Proof.
  intros ls stateKey w. split; [apply load_returns|].
  rewrite !load_spec. split; [|split; [|split; [|]]].
  - destruct (getItem ls stateKey) as [[| |[| |b|n|s|elems|props]]|]; try reflexivity;
      match goal with |- context [if ?c then _ else _] => destruct c end; reflexivity.
  - intros ->. reflexivity.
  - intros s e -> Hparse. destruct s as [| |obj]; try reflexivity. discriminate Hparse.
  - intros obj ->. split.
    + intros Hmissing.
      destruct obj as [| |b|n|s|elems|props]; try reflexivity. simpl in *.
      destruct Hmissing as [-> | [-> | ->]]; simpl;
        rewrite ?andb_false_r; reflexivity.
    + split; intros Hguard.
      * destruct obj as [| |b|n|s|elems|props]; try reflexivity.
        simpl in *. now rewrite Hguard.
      * destruct obj as [| |b|n|s|elems|props]; try discriminate Hguard.
        simpl in *. rewrite Hguard. simpl.
        repeat split; intros ->; reflexivity.
Qed.

Lemma C8_load_witness :
  snd (load (fun _ => None) "nms-line-state-v1" (World initial [])) = World initial [].
Proof.
  exact (proj1 (proj2 (proj2 (C8_load (fun _ => None) "nms-line-state-v1" (World initial []))))
           eq_refl).
Defined.

(** C10. On import a numeric field that is present but zero is treated as
    absent: [numCheckpoints] 0 becomes 50 and [radius] 0 becomes 500, since
    the defaults are taken with [||].  The loading effect takes its defaults
    with [??] and keeps a stored [radius] of 0.  So the two disagree on the
    same document. *)
Theorem C10_zero_fields_import_and_load :
  forall (props : list (string * value)) (ls : localStorage) (stateKey : string) (w : world),
    truthy (lookup "start" props) = true ->
    truthy (lookup "end" props) = true ->
    (lookup "numCheckpoints" props = VNum 0 ->
       numCheckpoints (app (snd (handleImportJSON (JSONText (VObj props)) w))) = VNum 50)
    /\ (lookup "radius" props = VNum 0 ->
       radius (app (snd (handleImportJSON (JSONText (VObj props)) w))) = VNum 500)
    /\ (lookup "radius" props = VNum 0 ->
       truthy (lookup "numCheckpoints" props) = true ->
       getItem ls stateKey = Some (JSONText (VObj props)) ->
       radius (app (snd (load ls stateKey w))) = VNum 0
       /\ radius (app (snd (load ls stateKey w))) <>
          radius (app (snd (handleImportJSON (JSONText (VObj props)) w)))).
Proof.
  intros props ls stateKey w Hs He.
  assert (Himport : snd (handleImportJSON (JSONText (VObj props)) w) =
                    World (imported (VObj props)) (alerts w)).
  { rewrite handleImportJSON_spec. simpl. now rewrite Hs, He. }
  rewrite Himport. unfold imported. simpl.
  split; [|split].
  - intros ->. reflexivity.
  - intros ->. reflexivity.
  - intros Hr Hn Hget. rewrite load_spec, Hget. simpl.
    rewrite Hs, He, Hn. unfold loaded, js_or. simpl. rewrite Hr. simpl.
    split; [reflexivity|]. apply VNum_neq; reflexivity.
Qed.

Lemma C10_zero_fields_import_and_load_witness :
  radius (app (snd (handleImportJSON
                      (JSONText (VObj [("start"%string, VArr []); ("end"%string, VArr []);
                                       ("numCheckpoints"%string, VNum 7);
                                       ("radius"%string, VNum 0)]))
                      (World initial [])))) = VNum 500.
Proof.
  exact (proj1 (proj2 (C10_zero_fields_import_and_load
                         [("start"%string, VArr []); ("end"%string, VArr []);
                          ("numCheckpoints"%string, VNum 7); ("radius"%string, VNum 0)]
                         (fun _ => None) "nms-line-state-v1" (World initial [])
                         eq_refl eq_refl)) eq_refl).
Defined.

(* ------------------------------------------------------------------ *)
(** ** The checkpoint count at the three entry points *)

Lemma count_input_clamped : forall parsed : parseInt_result,
  (1 <= count_input parsed)%Z.
Proof. intros parsed. unfold count_input. lia. Qed.

Lemma count_input_below_one : forall parsed : parseInt_result,
  (forall n, parsed = Some n -> (n < 1)%Z) -> count_input parsed = 1%Z.
Proof.
  intros [n|] Hn; unfold count_input; [|reflexivity].
  specialize (Hn n eq_refl). destruct (Z.eqb_spec n 0); lia.
Qed.

Lemma count_input_at_least_one : forall n : Z,
  (1 <= n)%Z -> count_input (Some n) = n.
Proof. intros n Hn. unfold count_input. destruct (Z.eqb_spec n 0); lia. Qed.

(** C3, as amended.  A count typed into the count field is clamped: an entry
    that is not a number, or is below 1, becomes 1, any other entry is kept,
    no error arises, and the checkpoint list for the resulting count, which
    is also the list derived from the state after the edit, has at least two
    elements.  JSON import does not clamp: a count that is zero or
    absent is replaced by the default 50.  The loading effect does not clamp
    either: it ignores a stored document whose count is zero or absent. *)
Theorem C3_count_entry_points :
  (forall (parsed : parseInt_result) (w : world),
      onChange_numCheckpoints parsed w =
      (Ok tt, World (State (radius (app w)) (start (app w)) (end_ (app w))
                       (VNum (Z2F (count_input parsed))) (done (app w)))
                (alerts w))
      /\ (1 <= count_input parsed)%Z
      /\ ((forall n, parsed = Some n -> (n < 1)%Z) -> count_input parsed = 1%Z)
      /\ (forall n, parsed = Some n -> (1 <= n)%Z -> count_input parsed = n)
      /\ (forall (num : Type) (A : Arith num) (start end_ : vec3 num),
            (2 <= length (linePoints start end_ (count_input parsed)))%nat)
      /\ ((count_input parsed < 2 ^ 53)%Z ->
          forall a b : vec3 float,
            vec3_of_array (start (app w)) = Some a ->
            vec3_of_array (end_ (app w)) = Some b ->
            state_linePoints (app (snd (onChange_numCheckpoints parsed w))) =
            Some (linePoints a b (count_input parsed))))
  /\ (forall (props : list (string * value)) (w : world),
        truthy (lookup "start" props) = true ->
        truthy (lookup "end" props) = true ->
        truthy (lookup "numCheckpoints" props) = false ->
        numCheckpoints (app (snd (handleImportJSON (JSONText (VObj props)) w))) = VNum 50)
  /\ (forall (props : list (string * value)) (ls : localStorage) (stateKey : string)
             (w : world),
        getItem ls stateKey = Some (JSONText (VObj props)) ->
        truthy (lookup "numCheckpoints" props) = false ->
        snd (load ls stateKey w) = w).
Proof.
  split; [|split].
  - intros parsed w. split; [reflexivity|].
    split; [apply count_input_clamped|].
    split; [apply count_input_below_one|].
    split; [intros n -> Hn; now apply count_input_at_least_one|].
    split.
    + intros num A start end_. rewrite linePoints_length.
      pose proof (count_input_clamped parsed). lia.
    + intros Hsafe a b Ha Hb. unfold state_linePoints. cbn.
      rewrite Ha, Hb, integer_of_Z2F; [reflexivity|].
      pose proof (count_input_clamped parsed). lia.
  - intros props w Hs He Hn. rewrite handleImportJSON_spec. simpl.
    rewrite Hs, He. simpl. unfold js_or. now rewrite Hn.
  - intros props ls stateKey w Hget Hn. rewrite load_spec, Hget. simpl.
    now rewrite Hn, andb_false_r.
Qed.

(** C3, as stated, fails on import: a document whose count is 0 leaves the
    count 50 in the state, not 1. *)
Lemma C3_import_zero_count_is_not_clamped_to_one :
  numCheckpoints
    (app (snd (handleImportJSON
                 (JSONText (VObj [("start"%string, VArr [VNum 0; VNum 0; VNum 0]);
                                  ("end"%string, VArr [VNum 400; VNum 50; VNum (-300)]);
                                  ("numCheckpoints"%string, VNum 0)]))
                 (World initial [])))) = VNum 50
  /\ VNum 50 <> VNum 1.
Proof.
  split; [vm_compute; reflexivity|]. apply VNum_neq; reflexivity.
Qed.

(** A negative count passes through import and through load unchanged, and
    the checkpoint list derived from it is empty. *)
Lemma negative_count_is_not_clamped :
  let document :=
    VObj [("start"%string, VArr [VNum 0; VNum 0; VNum 0]);
          ("end"%string, VArr [VNum 400; VNum 50; VNum (-300)]);
          ("numCheckpoints"%string, VNum (-5))] in
  let after_import := app (snd (handleImportJSON (JSONText document) (World initial []))) in
  let after_load :=
    app (snd (load (fun _ => Some (JSONText document)) "nms-line-state-v1"
                (World initial []))) in
  numCheckpoints after_import = VNum (-5)
  /\ numCheckpoints after_load = VNum (-5)
  /\ state_linePoints after_import = Some []
  /\ state_linePoints after_load = Some []
  /\ state_linePoints initial = Some (linePoints default_start default_end 50).
Proof. repeat split; vm_compute; reflexivity. Qed.

Lemma C3_count_entry_points_witness :
  (2 <= length (linePoints default_start default_end (count_input (Some (-4)%Z))))%nat.
Proof.
  exact (proj1 (proj2 (proj2 (proj2 (proj2
           (proj1 C3_count_entry_points (Some (-4)%Z) (World initial []))))))
           float binary64 default_start default_end).
Defined.

Lemma C5_import_all_or_nothing_witness :
  snd (handleImportJSON NotJSON (World initial [])) =
  World initial ["Invalid JSON"%string].
Proof.
  refine (proj1 (proj2 (C5_import_all_or_nothing NotJSON (World initial []))) _).
  intros obj Habsurd. discriminate Habsurd.
Defined.

Lemma C7_reconcile_witness :
  nth_error (reconcile [true; false; true] 5) 1 = nth_error [true; false; true] 1.
Proof.
  refine (proj1 (proj2 (C7_reconcile [true; false; true] 5)) 1%nat _).
  simpl. lia.
Defined.

(* ------------------------------------------------------------------ *)
(** * Further properties of the component

    The remaining functions of [src/App.jsx]: [distance], the progress bar,
    the check boxes, the saving effect, the text inputs, [toCSV] and
    [formatNum]. *)

(* ------------------------------------------------------------------ *)
(** ** Signs in binary64

    Rounding never turns a mantissa that is not negative into a negative
    number or into [NaN]; so squares, sums of squares and their square roots
    carry no minus sign. *)

(** Shifting right keeps a mantissa that is not negative so. *)
Lemma shr_1_nonneg : forall mrs : shr_record,
  (0 <= shr_m mrs)%Z -> (0 <= shr_m (shr_1 mrs))%Z.
Proof.
  intros [m r s] Hm. simpl in Hm.
  destruct m as [|[p|p|]|p]; simpl; lia.
Qed.

Lemma iter_shr_1_nonneg : forall (p : positive) (mrs : shr_record),
  (0 <= shr_m mrs)%Z -> (0 <= shr_m (SpecFloat.iter_pos shr_1 p mrs))%Z.
Proof.
  induction p as [p IH|p IH|]; intros mrs Hm; simpl.
  - now apply IH, IH, shr_1_nonneg.
  - now apply IH, IH.
  - now apply shr_1_nonneg.
Qed.

Lemma shr_fexp_nonneg : forall (m e : Z) (l : location),
  (0 <= m)%Z -> (0 <= shr_m (fst (shr_fexp prec emax m e l)))%Z.
Proof.
  intros m e l Hm. unfold shr_fexp, shr.
  assert (H0 : (0 <= shr_m (shr_record_of_loc m l))%Z)
    by (destruct l as [|[| |]]; exact Hm).
  destruct (fexp prec emax (Zdigits2 m + e) - e)%Z; simpl; try exact H0.
  now apply iter_shr_1_nonneg.
Qed.

Lemma round_nearest_even_nonneg : forall (m : Z) (l : location),
  (0 <= m)%Z -> (0 <= round_nearest_even m l)%Z.
Proof.
  intros m l Hm. unfold round_nearest_even.
  destruct l as [|[| |]]; try lia. destruct (Z.even m); lia.
Qed.

(** Rounding a mantissa that is not negative, with the sign [false], gives
    a number without a minus sign, never [NaN]. *)
Lemma binary_round_aux_unsigned : forall (m e : Z) (l : location),
  (0 <= m)%Z -> unsigned (binary_round_aux prec emax false m e l) = true.
Proof.
  intros m e l Hm. unfold binary_round_aux.
  pose proof (shr_fexp_nonneg m e l Hm) as H1.
  destruct (shr_fexp prec emax m e l) as [mrs' e']. simpl in H1.
  pose proof (shr_fexp_nonneg _ e' loc_Exact
                (round_nearest_even_nonneg _ (loc_of_shr_record mrs') H1)) as H2.
  destruct (shr_fexp prec emax (round_nearest_even (shr_m mrs') (loc_of_shr_record mrs'))
              e' loc_Exact) as [mrs'' e'']. simpl in H2.
  destruct (shr_m mrs'') as [|p|p]; [reflexivity| |lia].
  destruct (e'' <=? emax - prec)%Z; reflexivity.
Qed.

(** Rounding with the opposite sign gives the opposite number. *)
Lemma binary_round_aux_opp : forall (s : bool) (m e : Z) (l : location),
  binary_round_aux prec emax (negb s) m e l = SFopp (binary_round_aux prec emax s m e l).
Proof.
  intros s m e l. unfold binary_round_aux.
  destruct (shr_fexp prec emax m e l) as [mrs' e'].
  destruct (shr_fexp prec emax (round_nearest_even (shr_m mrs') (loc_of_shr_record mrs'))
              e' loc_Exact) as [mrs'' e''].
  destruct (shr_m mrs'') as [|p|p]; [reflexivity| |reflexivity].
  destruct (e'' <=? emax - prec)%Z; reflexivity.
Qed.

(** Normalising the opposite integer gives the opposite number, zero apart. *)
Lemma binary_normalize_opp : forall (z e : Z),
  binary_normalize prec emax (- z) e false =
  match z with
  | Z0 => S754_zero false
  | _ => SFopp (binary_normalize prec emax z e false)
  end.
Proof.
  intros [|p|p] e; [reflexivity| |]; simpl; unfold binary_round;
    destruct (shl_align p e (fexp prec emax (Z.pos (digits2_pos p) + e))) as [mz ez].
  - apply (binary_round_aux_opp false).
  - apply (binary_round_aux_opp true).
Qed.

Lemma binary_normalize_unsigned : forall (z e : Z),
  (0 <= z)%Z -> unsigned (binary_normalize prec emax z e false) = true.
Proof.
  intros [|p|p] e Hz; [reflexivity| |lia]. simpl. unfold binary_round.
  destruct (shl_align p e (fexp prec emax (Z.pos (digits2_pos p) + e))) as [mz ez].
  now apply binary_round_aux_unsigned.
Qed.

(** A number and its opposite have the same square. *)
Lemma SFmul_opp_opp : forall x : spec_float,
  SF64mul (SFopp x) (SFopp x) = SF64mul x x.
Proof.
  intros [s|s| |s m e]; try reflexivity; destruct s; reflexivity.
Qed.

(** A square carries no minus sign, and is [NaN] only for [NaN]. *)
Lemma SFmul_square_unsigned : forall x : spec_float,
  unsigned (SF64mul x x) = match x with S754_nan => false | _ => true end.
Proof.
  intros [s|s| |s m e];
    [destruct s; reflexivity | destruct s; reflexivity | reflexivity | ].
  destruct s; cbv beta iota delta [SF64mul SFmul xorb];
    apply binary_round_aux_unsigned; lia.
Qed.

(** The sum of two numbers without a minus sign has none. *)
Lemma SFadd_unsigned : forall x y : spec_float,
  unsigned x = true -> unsigned y = true -> unsigned (SF64add x y) = true.
Proof.
  intros [sx|sx| |sx mx ex] [sy|sy| |sy my ey] Hx Hy; simpl in Hx, Hy;
    try discriminate;
    apply negb_true_iff in Hx; apply negb_true_iff in Hy; subst; try reflexivity.
  unfold SF64add, SFadd. cbv zeta. apply binary_normalize_unsigned.
  unfold cond_Zopp. lia.
Qed.

Lemma SFadd_nan_r : forall x, SF64add x S754_nan = S754_nan.
Proof. intros [s|s| |s m e]; reflexivity. Qed.

(** The square root of a number without a minus sign has none. *)
Lemma SFsqrt_unsigned : forall x : spec_float,
  unsigned x = true -> unsigned (SF64sqrt x) = true.
Proof.
  intros [s|s| |s m e] Hx; simpl in Hx; try discriminate;
    apply negb_true_iff in Hx; subst; try reflexivity.
  unfold SF64sqrt, SFsqrt, SFsqrt_core_binary. cbv zeta.
  match goal with |- context [Z.sqrtrem ?n] =>
    pose proof (Z.sqrtrem_sqrt n) as Hq; pose proof (Z.sqrt_nonneg n) as Hn;
    destruct (Z.sqrtrem n) as [q r] end.
  simpl in Hq. subst q. now apply binary_round_aux_unsigned.
Qed.

(** [is_nan], [is_finite] and [is_zero] read on the specification floats. *)
Lemma is_nan_spec : forall x : float,
  is_nan x = match Prim2SF x with S754_nan => true | _ => false end.
Proof.
  intros x. unfold is_nan. rewrite eqb_spec.
  destruct (Prim2SF x) as [s|s| |s m e] eqn:E;
    [destruct s; reflexivity | destruct s; reflexivity | reflexivity | ].
  rewrite SFeqb_refl; [reflexivity | discriminate].
Qed.

Lemma leb_zero_unsigned : forall x : float,
  unsigned (Prim2SF x) = true -> PrimFloat.leb 0 x = true.
Proof.
  intros x Hx. rewrite leb_spec. change (Prim2SF 0) with (S754_zero false).
  destruct (Prim2SF x) as [s|s| |s m e]; simpl in Hx; try discriminate;
    apply negb_true_iff in Hx; subst; reflexivity.
Qed.

Lemma leb_zero_nan : forall x : float,
  Prim2SF x = S754_nan -> PrimFloat.leb 0 x = false.
Proof.
  intros x Hx. rewrite leb_spec, Hx. reflexivity.
Qed.

(* ------------------------------------------------------------------ *)
(** ** The distance between two points *)

(** X1. In binary64 [distance] is never negative: it is [NaN] exactly when
    one of the three coordinate differences is [NaN], and otherwise it is
    at least 0 (possibly infinite). *)
Theorem distance_nan_or_nonnegative : forall a b : vec3 float,
  is_nan (distance a b) =
    is_nan (c0 a - c0 b) || is_nan (c1 a - c1 b) || is_nan (c2 a - c2 b)
  /\ PrimFloat.leb 0 (distance a b) = negb (is_nan (distance a b))
  /\ PrimFloat.ltb (distance a b) 0 = false.
Proof.
  intros a b. unfold distance. cbn [sub mul add Math_sqrt binary64 binary64_sqrt].
  set (dx := (c0 a - c0 b)%float). set (dy := (c1 a - c1 b)%float).
  set (dz := (c2 a - c2 b)%float).
  set (d := PrimFloat.sqrt (dx * dx + dy * dy + dz * dz)).
  assert (Hd : Prim2SF d =
            SF64sqrt (SF64add (SF64add (SF64mul (Prim2SF dx) (Prim2SF dx))
                                       (SF64mul (Prim2SF dy) (Prim2SF dy)))
                              (SF64mul (Prim2SF dz) (Prim2SF dz)))).
  { unfold d. now rewrite sqrt_spec, !add_spec, !mul_spec. }
  pose proof (SFmul_square_unsigned (Prim2SF dx)) as Hx.
  pose proof (SFmul_square_unsigned (Prim2SF dy)) as Hy.
  pose proof (SFmul_square_unsigned (Prim2SF dz)) as Hz.
  assert (Hcases :
    (Prim2SF d = S754_nan
     /\ is_nan dx || is_nan dy || is_nan dz = true)
    \/ (unsigned (Prim2SF d) = true
        /\ is_nan dx || is_nan dy || is_nan dz = false)).
  { rewrite !is_nan_spec.
    destruct (Prim2SF dx) as [sx|sx| |sx mx ex] eqn:Ex;
      [| |left; split; [now rewrite Hd|reflexivity]|];
      (destruct (Prim2SF dy) as [sy|sy| |sy my ey] eqn:Ey;
       [| |left; split; [rewrite Hd; cbn [SF64mul SFmul]; now rewrite SFadd_nan_r|reflexivity]|]);
      (destruct (Prim2SF dz) as [sz|sz| |sz mz ez] eqn:Ez;
       [| |left; split; [rewrite Hd; cbn [SF64mul SFmul]; now rewrite SFadd_nan_r|reflexivity]|]);
      right; (split; [|reflexivity]); rewrite Hd;
      apply SFsqrt_unsigned, SFadd_unsigned; try apply SFadd_unsigned; assumption. }
  destruct Hcases as [[Hnan Hn]|[Hu Hn]]; rewrite Hn.
  - rewrite is_nan_spec, Hnan. split; [reflexivity|]. split.
    + now apply leb_zero_nan.
    + rewrite ltb_spec, Hnan. reflexivity.
  - assert (Hnn : is_nan d = false).
    { rewrite is_nan_spec. destruct (Prim2SF d); try reflexivity. discriminate Hu. }
    rewrite Hnn. split; [reflexivity|]. split.
    + now apply leb_zero_unsigned.
    + rewrite ltb_spec. change (Prim2SF 0) with (S754_zero false).
      destruct (Prim2SF d) as [s|s| |s m e]; simpl in Hu; try discriminate;
        apply negb_true_iff in Hu; subst; reflexivity.
Qed.


(** [(x - y) * (x - y)] and [(y - x) * (y - x)] are the same number. *)
Lemma SFsub_square_sym : forall x y : spec_float,
  SF64mul (SF64sub x y) (SF64sub x y) = SF64mul (SF64sub y x) (SF64sub y x).
Proof.
  intros [sx|sx| |sx mx ex] [sy|sy| |sy my ey];
    try reflexivity;
    try (destruct sx; destruct sy; reflexivity);
    try (destruct sx; reflexivity);
    try (destruct sy; reflexivity).
  unfold SF64sub, SFsub. cbv zeta. rewrite (Z.min_comm ey ex).
    set (ez := Z.min ex ey).
    set (A := cond_Zopp sx (Z.pos (fst (shl_align mx ex ez)))).
    set (B := cond_Zopp sy (Z.pos (fst (shl_align my ey ez)))).
    replace (B - A)%Z with (- (A - B))%Z by lia.
    rewrite binary_normalize_opp.
    destruct (A - B)%Z eqn:E; [reflexivity| |]; now rewrite SFmul_opp_opp.
Qed.

(** X2. In binary64, for all coordinates (infinite ones and [NaN]
    included), [distance(a, b)] and [distance(b, a)] are the same number. *)
Theorem distance_symmetric : forall a b : vec3 float,
  distance a b = distance b a.
Proof.
  intros a b. unfold distance. cbn [sub mul add Math_sqrt binary64 binary64_sqrt].
  assert (Hsq : forall u v : float, ((u - v) * (u - v) = (v - u) * (v - u))%float).
  { intros u v. apply Prim2SF_inj. rewrite !mul_spec, !sub_spec.
    apply SFsub_square_sym. }
  now rewrite (Hsq (c0 a)), (Hsq (c1 a)), (Hsq (c2 a)).
Qed.

Lemma is_finite_spec : forall x : float,
  is_finite x = match Prim2SF x with
                | S754_zero _ | S754_finite _ _ _ => true
                | _ => false
                end.
Proof.
  intros x. unfold is_finite, is_infinity. rewrite is_nan_spec, eqb_spec, abs_spec.
  change (Prim2SF infinity) with (S754_infinity false).
  destruct (Prim2SF x) as [s|s| |s m e]; reflexivity.
Qed.

(** [x - x] is the positive zero for a finite [x], and [NaN] otherwise. *)
Lemma SFsub_self : forall x : spec_float,
  SF64sub x x = match x with
                | S754_zero _ | S754_finite _ _ _ => S754_zero false
                | _ => S754_nan
                end.
Proof.
  intros [s|s| |s m e];
    [destruct s; reflexivity | destruct s; reflexivity | reflexivity | ].
  unfold SF64sub, SFsub. cbv zeta.
  match goal with |- binary_normalize _ _ ?d _ _ = _ =>
    replace d with 0%Z by (symmetry; apply Z.sub_diag) end.
  reflexivity.
Qed.

Lemma sub_self : forall x : float,
  (x - x)%float = if is_finite x then 0%float else nan.
Proof.
  intros x. apply Prim2SF_inj. rewrite sub_spec, SFsub_self, is_finite_spec.
  destruct (Prim2SF x); reflexivity.
Qed.

(** X3. In binary64 the distance from a point to itself is 0 when its three
    coordinates are finite, and [NaN] when one of them is infinite or
    [NaN]. *)
Theorem distance_to_itself : forall a : vec3 float,
  distance a a =
  if is_finite (c0 a) && is_finite (c1 a) && is_finite (c2 a) then 0%float else nan.
Proof.
  intros a. unfold distance. cbn [sub mul add Math_sqrt binary64 binary64_sqrt].
  rewrite !sub_self.
  destruct (is_finite (c0 a)), (is_finite (c1 a)), (is_finite (c2 a));
    vm_compute; reflexivity.
Qed.


(** [distance] in exact arithmetic. *)
Lemma exact_distance : forall a b : vec3 R,
  distance a b =
  R_sqrt.sqrt ((c0 a - c0 b) * (c0 a - c0 b) + (c1 a - c1 b) * (c1 a - c1 b)
               + (c2 a - c2 b) * (c2 a - c2 b))%R.
Proof. reflexivity. Qed.

Lemma sum_squares_nonneg : forall u v w : R, (0 <= u * u + v * v + w * w)%R.
Proof. intros u v w. nra. Qed.

Lemma sqrt_le_sum : forall X s r : R,
  (0 <= s)%R -> (0 <= r)%R -> (X <= (s + r) * (s + r))%R ->
  (R_sqrt.sqrt X <= s + r)%R.
Proof.
  intros X s r Hs Hr HX.
  rewrite <- (sqrt_square (s + r)) by lra.
  destruct (Rle_lt_dec 0 X) as [H0|H0].
  - now apply sqrt_le_1_alt.
  - rewrite sqrt_neg_0 by lra. apply sqrt_pos.
Qed.

(** The Cauchy-Schwarz inequality in three dimensions, with [s] and [r] the
    lengths of the two vectors. *)
Lemma cauchy_schwarz3 : forall u0 u1 u2 v0 v1 v2 s r : R,
  (0 <= s)%R -> (0 <= r)%R ->
  (s * s = u0 * u0 + u1 * u1 + u2 * u2)%R ->
  (r * r = v0 * v0 + v1 * v1 + v2 * v2)%R ->
  (u0 * v0 + u1 * v1 + u2 * v2 <= s * r)%R.
Proof.
  intros u0 u1 u2 v0 v1 v2 s r Hs Hr HU HV.
  destruct (Rle_lt_dec (u0 * v0 + u1 * v1 + u2 * v2) (s * r)) as [H|H]; [exact H|].
  exfalso.
  assert (Hsr : (0 <= s * r)%R) by now apply Rmult_le_pos.
  assert (Hsq : ((s * r) * (s * r) <
                 (u0 * v0 + u1 * v1 + u2 * v2) * (u0 * v0 + u1 * v1 + u2 * v2))%R)
    by nra.
  assert (Hid : ((s * r) * (s * r) -
                 (u0 * v0 + u1 * v1 + u2 * v2) * (u0 * v0 + u1 * v1 + u2 * v2) =
                 (u0 * v1 - u1 * v0) * (u0 * v1 - u1 * v0)
                 + (u0 * v2 - u2 * v0) * (u0 * v2 - u2 * v0)
                 + (u1 * v2 - u2 * v1) * (u1 * v2 - u2 * v1))%R).
  { replace ((s * r) * (s * r))%R with ((s * s) * (r * r))%R by ring.
    rewrite HU, HV. ring. }
  pose proof (sum_squares_nonneg (u0 * v1 - u1 * v0) (u0 * v2 - u2 * v0)
                (u1 * v2 - u2 * v1)).
  lra.
Qed.

(** X4. In exact arithmetic [distance] is the Euclidean metric: it is not
    negative, it is 0 exactly for equal points, it is symmetric, and it
    satisfies the triangle inequality. *)
Theorem distance_exact_metric : forall a b c : vec3 R,
  (0 <= distance a b)%R
  /\ (distance a b = 0%R <-> a = b)
  /\ distance a b = distance b a
  /\ (distance a c <= distance a b + distance b c)%R.
Proof.
  intros [a0 a1 a2] [b0 b1 b2] [c0' c1' c2']. rewrite !exact_distance.
  cbn [c0 c1 c2]. split; [apply sqrt_pos|]. split; [|split].
  - split.
    + intros H0. apply sqrt_eq_0 in H0; [|apply sum_squares_nonneg].
      pose proof (Rle_0_sqr (a0 - b0)) as Hx. pose proof (Rle_0_sqr (a1 - b1)) as Hy.
      pose proof (Rle_0_sqr (a2 - b2)) as Hz. unfold Rsqr in Hx, Hy, Hz.
      assert (a0 - b0 = 0)%R by (apply Rsqr_0_uniq; unfold Rsqr; lra).
      assert (a1 - b1 = 0)%R by (apply Rsqr_0_uniq; unfold Rsqr; lra).
      assert (a2 - b2 = 0)%R by (apply Rsqr_0_uniq; unfold Rsqr; lra).
      f_equal; lra.
    + intros E. injection E as -> -> ->.
      replace ((b0 - b0) * (b0 - b0) + (b1 - b1) * (b1 - b1) + (b2 - b2) * (b2 - b2))%R
        with 0%R by ring.
      apply sqrt_0.
  - f_equal. ring.
  - set (U := ((a0 - b0) * (a0 - b0) + (a1 - b1) * (a1 - b1) + (a2 - b2) * (a2 - b2))%R).
    set (V := ((b0 - c0') * (b0 - c0') + (b1 - c1') * (b1 - c1') + (b2 - c2') * (b2 - c2'))%R).
    assert (HU : (0 <= U)%R) by apply sum_squares_nonneg.
    assert (HV : (0 <= V)%R) by apply sum_squares_nonneg.
    pose proof (sqrt_pos U) as Hs. pose proof (sqrt_pos V) as Hr.
    pose proof (sqrt_sqrt U HU) as HsU. pose proof (sqrt_sqrt V HV) as HrV.
    apply sqrt_le_sum; [exact Hs | exact Hr |].
    pose proof (cauchy_schwarz3 (a0 - b0) (a1 - b1) (a2 - b2)
                  (b0 - c0') (b1 - c1') (b2 - c2') (R_sqrt.sqrt U) (R_sqrt.sqrt V)
                  Hs Hr HsU HrV) as Hcs.
    unfold U, V in *. nra.
Qed.

(** Two points of the line at the parameters [u] and [v] are [|u - v|] times
    the length of the segment apart. *)
Lemma exact_distance_lerp : forall (a b : vec3 R) (u v : R),
  distance (lerpVec a b u) (lerpVec a b v) = (Rabs (u - v) * distance a b)%R.
Proof.
  intros [a0 a1 a2] [b0 b1 b2] u v. rewrite !exact_distance.
  unfold lerpVec, lerp. cbn [c0 c1 c2 add sub mul exact].
  rewrite <- (sqrt_Rsqr_abs (u - v)).
  rewrite <- sqrt_mult_alt by apply Rle_0_sqr.
  f_equal. unfold Rsqr. ring.
Qed.

Lemma exact_lerpVec_0 : forall a b : vec3 R, lerpVec a b 0%R = a.
Proof. intros [a0 a1 a2] [b0 b1 b2]. unfold lerpVec. now rewrite !exact_lerp_0. Qed.

Lemma exact_lerpVec_1 : forall a b : vec3 R, lerpVec a b 1%R = b.
Proof. intros [a0 a1 a2] [b0 b1 b2]. unfold lerpVec. now rewrite !exact_lerp_1. Qed.

(** X5. In exact arithmetic, for a count [n >= 1], the checkpoints are evenly
    spaced along the segment: two consecutive checkpoints are
    [distance(start, end) / n] apart, and the checkpoint with parameter [t]
    lies at [t] times the total distance from [start] and at [(1 - t)] times
    the total distance from [end], the two adding up to the total. *)
Theorem checkpoints_evenly_spaced : forall (start end_ : vec3 R) (n : Z),
  (1 <= n)%Z ->
  (forall (i : nat) (p q : point R),
      nth_error (linePoints start end_ n) i = Some p ->
      nth_error (linePoints start end_ n) (S i) = Some q ->
      distance (position p) (position q) = (distance start end_ / IZR n)%R)
  /\ (forall (i : nat) (p : point R),
      nth_error (linePoints start end_ n) i = Some p ->
      distance start (position p) = (t p * distance start end_)%R
      /\ distance (position p) end_ = ((1 - t p) * distance start end_)%R
      /\ (distance start (position p) + distance (position p) end_ = distance start end_)%R).
Proof.
  intros start end_ n Hn.
  assert (Hpos : (0 < IZR n)%R) by (apply IZR_lt; lia).
  split.
  - intros i p q Hp Hq.
    apply linePoints_nth_error_inv in Hp. apply linePoints_nth_error_inv in Hq.
    destruct Hp as [_ ->]. destruct Hq as [_ ->].
    rewrite !checkpoint_position, !exact_param, exact_distance_lerp.
    replace (Z.of_nat (S i)) with (Z.of_nat i + 1)%Z by lia. rewrite plus_IZR.
    replace (IZR (Z.of_nat i) / IZR n - (IZR (Z.of_nat i) + 1) / IZR n)%R
      with (- (1 / IZR n))%R by (field; lra).
    rewrite Rabs_Ropp, Rabs_pos_eq.
    + unfold Rdiv. ring.
    + apply Rlt_le. apply Rdiv_lt_0_compat; lra.
  - intros i p Hp. apply linePoints_nth_error_inv in Hp. destruct Hp as [Hi ->].
    rewrite !checkpoint_position, !exact_param.
    set (u := (IZR (Z.of_nat i) / IZR n)%R).
    assert (Hu : (0 <= u <= 1)%R).
    { unfold u. split.
      - apply Rmult_le_pos; [apply IZR_le; lia | apply Rlt_le, Rinv_0_lt_compat; lra].
      - apply Rmult_le_reg_r with (IZR n); [lra|].
        unfold Rdiv. rewrite Rmult_assoc, Rinv_l by lra.
        rewrite Rmult_1_r, Rmult_1_l. apply IZR_le. lia. }
    assert (H1 : distance start (lerpVec start end_ u) = (u * distance start end_)%R).
    { rewrite <- (exact_lerpVec_0 start end_) at 1. rewrite exact_distance_lerp.
      replace (0 - u)%R with (- u)%R by ring. rewrite Rabs_Ropp, Rabs_pos_eq; lra. }
    assert (H2 : distance (lerpVec start end_ u) end_ = ((1 - u) * distance start end_)%R).
    { rewrite <- (exact_lerpVec_1 start end_) at 2. rewrite exact_distance_lerp.
      replace (u - 1)%R with (- (1 - u))%R by ring. rewrite Rabs_Ropp, Rabs_pos_eq; lra. }
    rewrite H1, H2. split; [reflexivity|]. split; [reflexivity|]. ring.
Qed.

Lemma checkpoints_evenly_spaced_witness :
  distance (position (checkpoint (Vec3 0 0 0)%R (Vec3 4 0 3)%R 2 0))
           (position (checkpoint (Vec3 0 0 0)%R (Vec3 4 0 3)%R 2 1)) =
  (distance (Vec3 0 0 0) (Vec3 4 0 3) / IZR 2)%R.
Proof.
  exact (proj1 (checkpoints_evenly_spaced (Vec3 0 0 0)%R (Vec3 4 0 3)%R 2 ltac:(lia))
           0%nat _ _ eq_refl eq_refl).
Defined.



(* ------------------------------------------------------------------ *)
(** ** Counts below 1 *)

Lemma SFmul_nan_r : forall x : spec_float, SF64mul x S754_nan = S754_nan.
Proof. intros [s|s| |s m e]; reflexivity. Qed.

(** Interpolating at [NaN] gives [NaN], whatever the end points. *)
Lemma lerp64_at_nan : forall a b : float, lerp a b nan = nan.
Proof.
  intros a b. unfold lerp. cbn [add sub mul binary64]. apply Prim2SF_inj.
  rewrite add_spec, mul_spec. change (Prim2SF nan) with S754_nan.
  now rewrite SFmul_nan_r, SFadd_nan_r.
Qed.

(** X6. For a negative count the loop of [linePoints] is not entered: the
    list is empty, [currentPoint] is undefined and [progress] is 0,
    whatever the flags.  For the count 0 the list holds one checkpoint whose
    parameter is 0 / 0, so that its parameter and its coordinates are all
    [NaN] in binary64, and [progress] is 0. *)
Theorem linePoints_degenerate_counts :
  (forall (num : Type) (A : Arith num) (start end_ : vec3 num) (n : Z) (done : list bool),
      (n < 0)%Z ->
      linePoints start end_ n = []
      /\ currentPoint done (linePoints start end_ n) = None
      /\ progress done (length (linePoints start end_ n)) = of_int 0)
  /\ (forall (start end_ : vec3 float) (done : list bool),
      linePoints start end_ 0 = [Point nan nan nan nan]
      /\ progress done (length (linePoints start end_ 0)) = 0%float).
Proof.
  split.
  - intros num A start end_ n done Hn.
    assert (E : linePoints start end_ n = []).
    { rewrite linePoints_closed_form. now replace (Z.to_nat (n + 1)) with O by lia. }
    rewrite E. split; [reflexivity|]. split; [|reflexivity].
    unfold currentPoint. destruct (findIndex (fun v => negb v) done) as [[|i]|]; reflexivity.
  - intros start end_ done. split; [|reflexivity].
    rewrite linePoints_closed_form.
    change (Zseq 0 (Z.to_nat (0 + 1))) with [0%Z]. cbn [map].
    unfold checkpoint. cbv zeta. cbn [of_int div binary64].
    replace (PrimFloat.div (Z2F 0) (Z2F 0)) with nan by (vm_compute; reflexivity).
    unfold lerpVec. cbn [c0 c1 c2]. now rewrite !lerp64_at_nan.
Qed.

(* ------------------------------------------------------------------ *)
(** ** Start and end at the same point *)

(** The parameter [i / n] of a checkpoint is the positive zero or a positive
    finite number. *)
Lemma param64_shape : forall i n : Z,
  (0 <= i <= n)%Z -> (1 <= n < 2 ^ 53)%Z ->
  Prim2SF (PrimFloat.div (Z2F i) (Z2F n)) = S754_zero false
  \/ exists M E, Prim2SF (PrimFloat.div (Z2F i) (Z2F n)) = S754_finite false M E.
Proof.
  intros i n Hi Hn.
  destruct (Z2F_normal n Hn) as (mn & en & Hmn & Hdn & Hen & _).
  destruct (Z.eq_dec i 0) as [->|Hne].
  - left. change (Z2F 0) with 0%float. now rewrite (zero_div _ _ _ Hmn).
  - right. destruct (Z2F_normal i ltac:(lia)) as (mi & ei & Hmi & Hdi & Hei & _).
    destruct (SFdiv_normal mi mn ei en Hdi Hdn Hei Hen) as (M & E & d & Hdiv & _).
    exists M, E. now rewrite div_spec, Hmi, Hmn.
Qed.

(** Interpolating between [a] and [a] gives [a], as [==] compares. *)
Lemma lerp64_coincident : forall a t : float,
  is_finite a = true ->
  (Prim2SF t = S754_zero false \/ exists M E, Prim2SF t = S754_finite false M E) ->
  PrimFloat.eqb (lerp a a t) a = true.
Proof.
  intros a t Ha Ht. unfold lerp. cbn [add sub mul binary64].
  rewrite sub_self, Ha.
  assert (H0 : (0 * t)%float = 0%float).
  { apply Prim2SF_inj. rewrite mul_spec. change (Prim2SF 0) with (S754_zero false).
    destruct Ht as [->|(M & E & ->)]; reflexivity. }
  rewrite H0, eqb_spec, add_spec. change (Prim2SF 0) with (S754_zero false).
  rewrite is_finite_spec in Ha.
  destruct (Prim2SF a) as [s|s| |s m e]; try discriminate Ha.
  - destruct s; reflexivity.
  - unfold SF64add, SFadd. apply SFeqb_refl. discriminate.
Qed.

(** X7. In binary64, when [start] and [end] are the same point with finite
    coordinates, every checkpoint of a count from 1 to below 2^53 lies at
    that point: each of its coordinates equals ([==]) the coordinate of
    [start]. *)
Theorem coincident_endpoints : forall (a : vec3 float) (n : Z),
  is_finite (c0 a) && is_finite (c1 a) && is_finite (c2 a) = true ->
  (1 <= n < 2 ^ 53)%Z ->
  forall (i : nat) (p : point float),
    nth_error (linePoints a a n) i = Some p ->
    PrimFloat.eqb (x p) (c0 a) = true
    /\ PrimFloat.eqb (y p) (c1 a) = true
    /\ PrimFloat.eqb (z p) (c2 a) = true.
Proof.
  intros a n Hfin Hn.
  - intros i p Hp. apply linePoints_nth_error_inv in Hp. destruct Hp as [Hi ->].
    rewrite !andb_true_iff in Hfin. destruct Hfin as [[H0 H1] H2].
    pose proof (param64_shape (Z.of_nat i) n ltac:(lia) Hn) as Ht.
    unfold checkpoint. cbv zeta. cbn [x y z lerpVec c0 c1 c2 of_int div binary64].
    repeat split; now apply lerp64_coincident.
Qed.

Lemma coincident_endpoints_witness :
  PrimFloat.eqb (x (checkpoint default_end default_end 2 1)) (c0 default_end) = true
  /\ PrimFloat.eqb (y (checkpoint default_end default_end 2 1)) (c1 default_end) = true
  /\ PrimFloat.eqb (z (checkpoint default_end default_end 2 1)) (c2 default_end) = true.
Proof.
  refine (coincident_endpoints default_end 2 eq_refl _ 1%nat _ eq_refl).
  split; [lia | reflexivity].
Defined.

(* ------------------------------------------------------------------ *)
(** ** The check boxes *)

(** The stores [array_set] and the reads [array_get]. *)
Lemma array_set_length : forall (d : list bool) (i : nat) (v : bool),
  length (array_set d i v) = Nat.max (length d) (S i).
Proof.
  induction d as [|b d IH]; intros i v.
  - induction i as [|i IHi]; simpl; [reflexivity|]. simpl in IHi. now rewrite IHi.
  - destruct i as [|i]; simpl; [lia|]. now rewrite IH.
Qed.

Lemma array_get_nil : forall i, array_get [] i = false.
Proof. intros [|i]; reflexivity. Qed.

Lemma array_set_get_same : forall (d : list bool) (i : nat) (v : bool),
  array_get (array_set d i v) i = v.
Proof.
  induction d as [|b d IH]; intros i v.
  - induction i as [|i IHi]; simpl; [reflexivity|]. exact IHi.
  - destruct i as [|i]; simpl; [reflexivity|]. apply IH.
Qed.

Lemma array_set_get_other : forall (d : list bool) (i j : nat) (v : bool),
  j <> i -> array_get (array_set d i v) j = array_get d j.
Proof.
  induction d as [|b d IH]; intros i j v Hj.
  - rewrite array_get_nil. revert j Hj.
    induction i as [|i IHi]; intros j Hj.
    + destruct j as [|j]; [congruence|]. simpl. apply array_get_nil.
    + destruct j as [|j]; [reflexivity|]. simpl. apply IHi. congruence.
  - destruct i as [|i]; destruct j as [|j]; simpl; try reflexivity; try congruence.
    apply IH. congruence.
Qed.

(** X8. Ticking or clearing the box of row [i] sets flag [i] and changes no
    other flag.  The list keeps its length when it has a flag [i]; when it
    is shorter it grows to [i + 1] flags, the new ones before [i] reading
    [false].  Setting the box twice is the same as setting it the second
    time, and setting it to the value it has changes nothing. *)
Theorem onChange_done_changes_one_flag : forall (d : list bool) (i : nat) (checked : bool),
  length (onChange_done i checked d) = Nat.max (length d) (S i)
  /\ ((i < length d)%nat -> length (onChange_done i checked d) = length d)
  /\ array_get (onChange_done i checked d) i = checked
  /\ (forall j, j <> i -> array_get (onChange_done i checked d) j = array_get d j)
  /\ (forall w, onChange_done i w (onChange_done i checked d) = onChange_done i w d)
  /\ (array_get d i = checked -> (i < length d)%nat -> onChange_done i checked d = d).
Proof.
  intros d i checked. unfold onChange_done. cbv zeta.
  split; [apply array_set_length|].
  split; [intros Hi; rewrite array_set_length; lia|].
  split; [apply array_set_get_same|].
  split; [intros j Hj; now apply array_set_get_other|].
  split.
  - intros w. revert i. induction d as [|b d IH]; intros i.
    + induction i as [|i IHi]; simpl; [reflexivity|]. now rewrite IHi.
    + destruct i as [|i]; simpl; [reflexivity|]. now rewrite IH.
  - revert i. induction d as [|b d IH]; intros i Hget Hi; simpl in Hi; [lia|].
    destruct i as [|i]; simpl in *.
    + now subst.
    + rewrite IH; [reflexivity | exact Hget | lia].
Qed.

Lemma completedCount_cons : forall (b : bool) (d : list bool),
  completedCount (b :: d) = ((if b then 1 else 0) + completedCount d)%nat.
Proof. intros [|] d; reflexivity. Qed.

(** A store changes the count of true flags by the new flag minus the old
    one. *)
Lemma completedCount_array_set : forall (d : list bool) (i : nat) (v : bool),
  (completedCount (array_set d i v) + (if array_get d i then 1 else 0) =
   completedCount d + (if v then 1 else 0))%nat.
Proof.
  induction d as [|b d IH]; intros i v.
  - rewrite array_get_nil. induction i as [|i IHi].
    + destruct v; reflexivity.
    + simpl array_set. rewrite completedCount_cons. simpl in *. exact IHi.
  - destruct i as [|i].
    + simpl array_set. unfold array_get. simpl nth. rewrite !completedCount_cons.
      destruct b, v; simpl; lia.
    + simpl array_set. unfold array_get. simpl nth. rewrite !completedCount_cons.
      specialize (IH i v). unfold array_get in IH. lia.
Qed.

(** X9. Setting the box of row [i] changes [completedCount] by the difference
    between the new flag and the old one.  In exact arithmetic, over more
    than one checkpoint, ticking an unticked box raises [progress] by
    [100 / (L - 1)] and clearing a ticked box lowers it by as much. *)
Theorem onChange_done_counts_one_leg : forall (d : list bool) (i : nat) (checked : bool),
  (completedCount (onChange_done i checked d) + (if array_get d i then 1 else 0) =
   completedCount d + (if checked then 1 else 0))%nat
  /\ (forall L : nat, (1 < L)%nat -> array_get d i = false ->
        (progress (onChange_done i true d) L = progress d L + 100 / INR (L - 1))%R)
  /\ (forall L : nat, (1 < L)%nat -> array_get d i = true ->
        (progress (onChange_done i false d) L = progress d L - 100 / INR (L - 1))%R).
Proof.
  intros d i checked.
  split; [apply completedCount_array_set|].
  split; intros L HL Hget; rewrite !exact_progress by exact HL.
  - pose proof (completedCount_array_set d i true) as Hc. rewrite Hget in Hc.
    unfold onChange_done. cbv zeta.
    replace (completedCount (array_set d i true)) with (S (completedCount d)) by lia.
    rewrite S_INR.
    assert (0 < INR (L - 1))%R by (apply lt_0_INR; lia).
    field. lra.
  - pose proof (completedCount_array_set d i false) as Hc. rewrite Hget in Hc.
    unfold onChange_done. cbv zeta.
    replace (completedCount d) with (S (completedCount (array_set d i false))) by lia.
    rewrite S_INR.
    assert (0 < INR (L - 1))%R by (apply lt_0_INR; lia).
    field. lra.
Qed.



(** What [findIndex] returns: the first index that passes the test. *)
Lemma findIndex_Some_inv : forall (A : Type) (f : A -> bool) (l : list A) (i : nat),
  findIndex f l = Some i ->
  (exists a, nth_error l i = Some a /\ f a = true)
  /\ (forall j b, (j < i)%nat -> nth_error l j = Some b -> f b = false).
Proof.
  intros A f. induction l as [|c l IH]; intros i Hi; simpl in Hi; [discriminate|].
  destruct (f c) eqn:Hc.
  - injection Hi as <-. split; [now exists c|]. intros j b Hj. lia.
  - destruct (findIndex f l) as [k|] eqn:Hk; [|discriminate].
    injection Hi as <-. destruct (IH k eq_refl) as [[a [Ha Hfa]] Hbefore].
    split; [now exists a|].
    intros [|j] b Hj Hb; simpl in Hb.
    + now injection Hb as <-.
    + apply (Hbefore j b); [lia | exact Hb].
Qed.

Lemma findIndex_None_inv : forall (A : Type) (f : A -> bool) (l : list A),
  findIndex f l = None -> forall a, In a l -> f a = false.
Proof.
  intros A f. induction l as [|c l IH]; intros Hn a Ha; [destruct Ha|].
  simpl in Hn. destruct (f c) eqn:Hc; [discriminate|].
  destruct (findIndex f l) eqn:Hk; [discriminate|].
  destruct Ha as [<-|Ha]; [exact Hc | now apply IH].
Qed.

(** After ticking the first unticked box, the first unticked box is the
    first one behind it. *)
Lemma findIndex_after_check : forall (d : list bool) (i : nat),
  findIndex (fun v => negb v) d = Some i ->
  findIndex (fun v => negb v) (array_set d i true) =
  option_map (fun k => (S i + k)%nat) (findIndex (fun v => negb v) (skipn (S i) d)).
Proof.
  induction d as [|b d IH]; intros i Hi; simpl in Hi; [discriminate|].
  destruct b; simpl in Hi.
  - destruct (findIndex (fun v => negb v) d) as [k|] eqn:Hk; [|discriminate].
    injection Hi as <-.
    change (array_set (true :: d) (S k) true) with (true :: array_set d k true).
    change (skipn (S (S k)) (true :: d)) with (skipn (S k) d).
    cbn [findIndex negb]. rewrite (IH k eq_refl).
    destruct (findIndex (fun v => negb v) (skipn (S k) d)); reflexivity.
  - injection Hi as <-. simpl.
    destruct (findIndex (fun v => negb v) d); reflexivity.
Qed.

Lemma nth_error_skipn_shift : forall (A : Type) (l : list A) (i k : nat),
  nth_error (skipn i l) k = nth_error l (i + k).
Proof.
  intros A. induction l as [|a l IH]; intros i k.
  - rewrite skipn_nil. destruct k, (i + 0)%nat, i; reflexivity || (destruct (i + S k)%nat; reflexivity).
  - destruct i as [|i]; [reflexivity|]. simpl. apply IH.
Qed.

(** X10. For flags aligned to the checkpoint list whose first unticked box
    is row [i], the current checkpoint is checkpoint [i]; after ticking that
    box it is the checkpoint of the next unticked row [j > i], every row
    between being ticked, or, when no unticked row is left, the last
    checkpoint, all flags then being true. *)
Theorem onChange_done_moves_current_forward :
  forall (P : Type) (d : list bool) (linePoints : list P) (i : nat),
    length d = length linePoints ->
    findIndex (fun v => negb v) d = Some i ->
    currentPoint d linePoints = nth_error linePoints i
    /\ ((exists j, (i < j < length d)%nat
           /\ nth_error d j = Some false
           /\ (forall k, (i < k < j)%nat -> nth_error d k = Some true)
           /\ currentPoint (onChange_done i true d) linePoints = nth_error linePoints j)
        \/ (completedCount (onChange_done i true d) = length d
            /\ currentPoint (onChange_done i true d) linePoints =
               nth_error linePoints (length linePoints - 1))).
Proof.
  intros P d linePoints i Hlen Hi.
  split; [unfold currentPoint; now rewrite Hi|].
  pose proof (findIndex_after_check d i Hi) as Hafter.
  destruct (findIndex_Some_inv _ _ _ _ Hi) as [[a [Ha Hfa]] Hbefore].
  assert (Hlt : (i < length d)%nat) by (apply nth_error_Some; congruence).
  destruct (findIndex (fun v => negb v) (skipn (S i) d)) as [k|] eqn:Hk.
  - left. exists (S i + k)%nat.
    destruct (findIndex_Some_inv _ _ _ _ Hk) as [[b [Hb Hfb]] Hbetween].
    rewrite nth_error_skipn_shift in Hb.
    assert (Hj : (S i + k < length d)%nat) by (apply nth_error_Some; congruence).
    split; [lia|]. split; [|split].
    + destruct b; [discriminate Hfb | exact Hb].
    + intros m Hm.
      destruct (nth_error d m) as [c|] eqn:Hc;
        [|apply nth_error_None in Hc; lia].
      specialize (Hbetween (m - S i)%nat c ltac:(lia)).
      rewrite nth_error_skipn_shift in Hbetween.
      replace (S i + (m - S i))%nat with m in Hbetween by lia.
      specialize (Hbetween Hc). destruct c; [reflexivity | discriminate].
    + unfold currentPoint, onChange_done. cbv zeta. now rewrite Hafter.
  - right. simpl in Hafter.
    assert (Hall : forall v, In v (array_set d i true) -> v = true).
    { intros v Hv. pose proof (findIndex_None_inv _ _ _ Hafter v Hv) as Hf.
      destruct v; [reflexivity | discriminate]. }
    split.
    + unfold onChange_done. cbv zeta. rewrite completedCount_all_true by exact Hall.
      rewrite array_set_length. lia.
    + unfold currentPoint, onChange_done. cbv zeta. rewrite Hafter.
      destruct linePoints as [|p l]; [simpl in Hlen; lia | reflexivity].
Qed.

Lemma onChange_done_moves_current_forward_witness :
  currentPoint [true; false; true; false] [10; 20; 30; 40]%nat =
  nth_error [10; 20; 30; 40]%nat 1.
Proof.
  exact (proj1 (onChange_done_moves_current_forward nat [true; false; true; false]
                  [10; 20; 30; 40]%nat 1%nat eq_refl eq_refl)).
Defined.

(** X11. The edge cases of [currentPoint].  When every flag there is is true,
    also when there are fewer flags than checkpoints or none at all, it is
    the last checkpoint.  It is undefined exactly when there is no
    checkpoint, or when the first unticked box lies past the last
    checkpoint. *)
Theorem currentPoint_edge_cases : forall (P : Type) (done : list bool) (linePoints : list P),
  ((forall v, In v done -> v = true) ->
     currentPoint done linePoints = nth_error linePoints (length linePoints - 1))
  /\ currentPoint [] linePoints = nth_error linePoints (length linePoints - 1)
  /\ (currentPoint done linePoints = None <->
      linePoints = []
      \/ exists i, findIndex (fun v => negb v) done = Some i
                   /\ (length linePoints <= i)%nat).
Proof.
  intros P done linePoints.
  assert (Hlast : forall l : list P, l <> [] -> nth_error l (length l - 1) <> None).
  { intros l Hl. apply nth_error_Some. destruct l; [congruence | simpl; lia]. }
  split; [|split].
  - intros Hall. unfold currentPoint.
    rewrite findIndex_none by (intros a Ha; now rewrite (Hall a Ha)).
    destruct linePoints; reflexivity.
  - unfold currentPoint. simpl. destruct linePoints; reflexivity.
  - unfold currentPoint. destruct (findIndex (fun v => negb v) done) as [i|] eqn:Hi.
    + split.
      * intros Hn. right. exists i. split; [reflexivity|]. now apply nth_error_None.
      * intros [->|(j & Hj & Hle)]; [now destruct i|].
        injection Hj as <-. now apply nth_error_None.
    + split.
      * intros Hn. left. destruct linePoints as [|p l]; [reflexivity|].
        exfalso. now apply (Hlast (p :: l)).
      * intros [->|(j & Hj & _)]; [reflexivity | discriminate Hj].
Qed.

(* ------------------------------------------------------------------ *)
(** ** Reconciling the flags with the check boxes and with itself *)

(** The store in closed form. *)
Lemma array_set_closed_form : forall (d : list bool) (i : nat) (v : bool),
  array_set d i v =
  firstn i d ++ repeat false (i - length d) ++ v :: skipn (S i) d.
Proof.
  induction d as [|b d IH]; intros i v.
  - rewrite firstn_nil, skipn_nil, Nat.sub_0_r. simpl.
    induction i as [|i IHi]; simpl; [reflexivity | now rewrite IHi].
  - destruct i as [|i]; [reflexivity|]. simpl. now rewrite IH.
Qed.

Lemma array_set_app_l : forall (l1 l2 : list bool) (i : nat) (v : bool),
  (i < length l1)%nat -> array_set (l1 ++ l2) i v = array_set l1 i v ++ l2.
Proof.
  induction l1 as [|b l1 IH]; intros l2 i v Hi; simpl in Hi; [lia|].
  destruct i as [|i]; simpl; [reflexivity|]. rewrite IH by lia. reflexivity.
Qed.

Lemma array_set_firstn : forall (d : list bool) (n i : nat) (v : bool),
  (i < n)%nat -> (i < length d)%nat ->
  firstn n (array_set d i v) = array_set (firstn n d) i v.
Proof.
  induction d as [|b d IH]; intros n i v Hn Hi; simpl in Hi; [lia|].
  destruct n as [|n]; [lia|]. destruct i as [|i]; simpl; [reflexivity|].
  rewrite IH by lia. reflexivity.
Qed.

Lemma array_set_repeat_false : forall (l : list bool) (k i : nat) (v : bool),
  (length l <= i)%nat -> (i < length l + k)%nat ->
  array_set (l ++ repeat false k) i v =
  l ++ repeat false (i - length l) ++ v :: repeat false (length l + k - S i).
Proof.
  induction l as [|b l IH]; intros k i v Hl Hi; simpl in *.
  - rewrite Nat.sub_0_r. revert k Hi. induction i as [|i IHi]; intros k Hi.
    + destruct k as [|k]; [lia|]. simpl. now rewrite Nat.sub_0_r.
    + destruct k as [|k]; [lia|]. simpl. rewrite IHi by lia. reflexivity.
  - destruct i as [|i]; [lia|]. simpl. rewrite IH by lia. reflexivity.
Qed.

Lemma completedCount_app : forall l1 l2 : list bool,
  completedCount (l1 ++ l2) = (completedCount l1 + completedCount l2)%nat.
Proof. intros l1 l2. unfold completedCount. now rewrite filter_app, length_app. Qed.

Lemma completedCount_repeat_false : forall k, completedCount (repeat false k) = 0%nat.
Proof. induction k as [|k IH]; [reflexivity | exact IH]. Qed.

Lemma completedCount_firstn : forall (d : list bool) (n : nat),
  (completedCount (firstn n d) <= completedCount d)%nat.
Proof.
  intros d n. rewrite <- (firstn_skipn n d) at 2. rewrite completedCount_app. lia.
Qed.

Lemma firstn_repeat_false : forall k n : nat,
  firstn k (repeat false n) = repeat false (Nat.min k n).
Proof.
  induction k as [|k IH]; intros [|n]; simpl; try reflexivity. now rewrite IH.
Qed.

(** X12. Reconciling to [n] flags and then to [m <= n] flags is reconciling
    to [m] at once; reconciling to [n] and then to [m >= n] keeps only the
    first [n] of the original flags, the others being cleared.  Reconciling
    never raises [completedCount].  It commutes with setting the box of a
    row [i < n]. *)
Theorem reconcile_composes : forall (d : list bool) (n : nat),
  (forall m, (m <= n)%nat -> reconcile (reconcile d n) m = reconcile d m)
  /\ (forall m, (n <= m)%nat -> reconcile (reconcile d n) m = reconcile (firstn n d) m)
  /\ (completedCount (reconcile d n) <= completedCount d)%nat
  /\ (forall i checked, (i < n)%nat ->
        reconcile (onChange_done i checked d) n = onChange_done i checked (reconcile d n)).
Proof.
  intros d n. split; [|split; [|split]].
  - intros m Hm. rewrite !reconcile_closed_form.
    rewrite length_app, length_firstn, repeat_length.
    replace (Nat.min n (length d) + (n - length d))%nat with n by lia.
    replace (m - n)%nat with O by lia. simpl. rewrite app_nil_r.
    destruct (Nat.le_gt_cases m (length d)) as [Hle|Hgt].
    + rewrite firstn_app, length_firstn.
      replace (m - Nat.min n (length d))%nat with O by lia. simpl. rewrite app_nil_r.
      rewrite firstn_firstn. replace (Nat.min m n) with m by lia.
      replace (m - length d)%nat with O by lia. simpl. now rewrite app_nil_r.
    + rewrite firstn_app, length_firstn.
      rewrite (firstn_all2 (n := n) d) by lia.
      rewrite (firstn_all2 (n := m) d) by lia.
      replace (Nat.min n (length d)) with (length d) by lia.
      rewrite firstn_repeat_false. now replace (Nat.min (m - length d) (n - length d)) with (m - length d)%nat by lia.
  - intros m Hm. rewrite !reconcile_closed_form.
    rewrite !length_app, !length_firstn, repeat_length.
    replace (Nat.min n (length d) + (n - length d))%nat with n by lia.
    rewrite (firstn_all2 (n := m)) by (rewrite length_app, length_firstn, repeat_length; lia).
    rewrite (firstn_all2 (n := m) (firstn n d)) by (rewrite length_firstn; lia).
    rewrite <- app_assoc, <- repeat_app. f_equal. f_equal. lia.
  - rewrite reconcile_closed_form, completedCount_app, completedCount_repeat_false.
    pose proof (completedCount_firstn d n). lia.
  - intros i checked Hi. unfold onChange_done. cbv zeta.
    rewrite !reconcile_closed_form, array_set_length.
    destruct (Nat.lt_ge_cases i (length d)) as [Hlt|Hge].
    + rewrite array_set_firstn by lia.
      rewrite array_set_app_l by (rewrite length_firstn; lia).
      now replace (Nat.max (length d) (S i)) with (length d) by lia.
    + rewrite (firstn_all2 (n := n) d) by lia.
      rewrite array_set_repeat_false by lia.
      rewrite array_set_closed_form, skipn_all2 by lia.
      rewrite (firstn_all2 (n := i) d) by lia.
      rewrite firstn_all2 by (rewrite !length_app, repeat_length; simpl; lia).
      rewrite <- !app_assoc. simpl. f_equal. f_equal. f_equal.
      f_equal. lia.
Qed.


(* ------------------------------------------------------------------ *)
(** ** Progress and the current checkpoint *)

(** The first unticked box behind [k] ticked ones is box [k]. *)
Lemma findIndex_prefix : forall k r : nat,
  (0 < r)%nat ->
  findIndex (fun v => negb v) (repeat true k ++ repeat false r) = Some k.
Proof.
  induction k as [|k IH]; intros r Hr; simpl.
  - destruct r as [|r]; [lia | reflexivity].
  - now rewrite IH.
Qed.

(** X13. When the first [k] boxes are ticked and the others are not, over the
    checkpoints of a count [n >= 1] with [k <= n], the current checkpoint is
    checkpoint [k], and [progress] is 100 times the parameter [t] of the
    current checkpoint, computed by the same operations: in binary64 as in
    exact arithmetic. *)
Theorem progress_follows_current_point :
  forall (num : Type) (A : Arith num) (start end_ : vec3 num) (n : Z) (k : nat),
    (1 <= n)%Z -> (Z.of_nat k <= n)%Z ->
    let pts := linePoints start end_ n in
    let done := repeat true k ++ repeat false (length pts - k) in
    length done = length pts
    /\ exists p, nth_error pts k = Some p
                 /\ currentPoint done pts = Some p
                 /\ progress done (length pts) = (t p * of_int 100)%js.
Proof.
  intros num A start end_ n k Hn Hk pts done.
  assert (Hlen : length pts = Z.to_nat (n + 1)) by apply linePoints_length.
  split.
  - unfold done. rewrite length_app, !repeat_length. lia.
  - exists (checkpoint start end_ n (Z.of_nat k)).
    assert (Hp : nth_error pts k = Some (checkpoint start end_ n (Z.of_nat k))).
    { unfold pts. rewrite <- (Nat2Z.id k) at 1. apply linePoints_nth_error. lia. }
    split; [exact Hp|]. split.
    + unfold currentPoint, done. rewrite findIndex_prefix by lia. exact Hp.
    + unfold progress. destruct (Nat.ltb_spec 1 (length pts)) as [_|Hle]; [|lia].
      unfold done. rewrite completedCount_app, completedCount_repeat_false, Nat.add_0_r.
      rewrite completedCount_all_true
        by (intros v Hv; now apply repeat_spec in Hv).
      rewrite repeat_length.
      replace (Z.of_nat (length pts - 1)) with n by lia.
      reflexivity.
Qed.

Lemma progress_follows_current_point_witness :
  let pts := linePoints default_start default_end 4 in
  let done := repeat true 2 ++ repeat false (length pts - 2) in
  length done = length pts
  /\ exists p, nth_error pts 2 = Some p
               /\ currentPoint done pts = Some p
               /\ progress done (length pts) = (t p * of_int 100)%js.
Proof.
  exact (progress_follows_current_point float binary64 default_start default_end 4 2
           ltac:(lia) ltac:(lia)).
Defined.

(* ------------------------------------------------------------------ *)
(** ** The width of the progress bar *)

(** [Math.max(0, p)] and [Math.min(100, q)], the two calls of the bar. *)
Lemma Math_max_0 : forall p : float,
  Math_max 0 p = if is_nan p then nan else if PrimFloat.ltb 0 p then p else 0%float.
Proof.
  intros p. unfold Math_max.
  change (is_nan 0) with false. change (get_sign 0) with false.
  now rewrite andb_false_r.
Qed.

Lemma Math_min_100 : forall q : float,
  Math_min 100 q = if is_nan q then nan else if PrimFloat.ltb q 100 then q else 100%float.
Proof.
  intros q. unfold Math_min.
  change (is_nan 100) with false. change (is_zero 100) with false.
  now rewrite andb_false_r.
Qed.

(** Comparing the other way round gives the opposite answer. *)
Lemma SFcompare_antisym : forall x y : spec_float,
  SFcompare y x = option_map CompOpp (SFcompare x y).
Proof.
  intros [sx|sx| |sx mx ex] [sy|sy| |sy my ey]; try reflexivity;
    try (destruct sx; reflexivity); try (destruct sy; reflexivity);
    try (destruct sx, sy; reflexivity).
  assert (H : Pos.compare_cont Eq my mx = CompOpp (Pos.compare_cont Eq mx my))
    by (rewrite Pos.compare_cont_antisym; reflexivity).
  destruct sx, sy; try reflexivity; simpl;
    rewrite (Z.compare_antisym ex ey), H; destruct (ex ?= ey)%Z; simpl; reflexivity.
Qed.

Lemma ltb_leb : forall x y : float,
  PrimFloat.ltb x y = true -> PrimFloat.leb x y = true.
Proof.
  intros x y. rewrite ltb_spec, leb_spec. unfold SFltb, SFleb.
  destruct (SFcompare (Prim2SF x) (Prim2SF y)) as [[| |]|]; congruence.
Qed.

Lemma ltb_asym : forall x y : float,
  PrimFloat.ltb x y = true -> PrimFloat.ltb y x = false.
Proof.
  intros x y. rewrite !ltb_spec. unfold SFltb.
  rewrite (SFcompare_antisym (Prim2SF x) (Prim2SF y)).
  destruct (SFcompare (Prim2SF x) (Prim2SF y)) as [[| |]|]; simpl; congruence.
Qed.

Lemma leb_not_ltb : forall x y : float,
  PrimFloat.leb x y = true -> PrimFloat.ltb x y = false -> PrimFloat.eqb x y = true.
Proof.
  intros x y. rewrite ltb_spec, leb_spec, eqb_spec. unfold SFltb, SFleb, SFeqb.
  destruct (SFcompare (Prim2SF x) (Prim2SF y)) as [[| |]|]; congruence.
Qed.

Lemma eqb_sym : forall x y : float, PrimFloat.eqb x y = PrimFloat.eqb y x.
Proof.
  intros x y. rewrite !eqb_spec. unfold SFeqb.
  rewrite (SFcompare_antisym (Prim2SF y) (Prim2SF x)).
  destruct (SFcompare (Prim2SF y) (Prim2SF x)) as [[| |]|]; reflexivity.
Qed.

Lemma above_100_positive : forall p : float,
  PrimFloat.ltb 100 p = true -> PrimFloat.ltb 0 p = true.
Proof.
  intros p. rewrite !ltb_spec.
  change (Prim2SF 0) with (S754_zero false).
  replace (Prim2SF 100) with (S754_finite false 7036874417766400 (-46))
    by (vm_compute; reflexivity).
  destruct (Prim2SF p) as [s|s| |s m e];
    [destruct s | destruct s | | destruct s];
    try (intros _; reflexivity); cbn [SFltb SFcompare]; congruence.
Qed.

(** The three outcomes of the clamp. *)
Lemma bar_width_cases : forall p : float,
  is_nan p = false ->
  (PrimFloat.ltb 0 p = false /\ bar_width p = 0%float)
  \/ (PrimFloat.ltb 0 p = true /\ PrimFloat.ltb p 100 = true /\ bar_width p = p)
  \/ (PrimFloat.ltb 0 p = true /\ PrimFloat.ltb p 100 = false /\ bar_width p = 100%float).
Proof.
  intros p Hp. unfold bar_width. rewrite Math_max_0, Hp.
  destruct (PrimFloat.ltb 0 p) eqn:H0; rewrite Math_min_100.
  - rewrite Hp. destruct (PrimFloat.ltb p 100) eqn:H1; auto.
  - left. split; reflexivity.
Qed.

Lemma bar_width_range : forall p : float,
  is_nan p = false ->
  PrimFloat.leb 0 (bar_width p) = true /\ PrimFloat.leb (bar_width p) 100 = true.
Proof.
  intros p Hp.
  destruct (bar_width_cases p Hp) as [[H0 ->]|[[H0 [H1 ->]]|[H0 [H1 ->]]]].
  - split; reflexivity.
  - split; now apply ltb_leb.
  - split; reflexivity.
Qed.

(** X14. The width of the bar is [NaN] when the progress figure is; for
    every other figure it lies between 0 and 100: it is 0 for a negative
    figure, 100 for a figure above 100, and the figure itself (as [==]
    compares) for a figure from 0 to 100. *)
Theorem bar_width_clamps : forall p : float,
  (is_nan p = true -> is_nan (bar_width p) = true)
  /\ (is_nan p = false ->
      PrimFloat.leb 0 (bar_width p) = true
      /\ PrimFloat.leb (bar_width p) 100 = true
      /\ (PrimFloat.ltb p 0 = true -> bar_width p = 0%float)
      /\ (PrimFloat.ltb 100 p = true -> bar_width p = 100%float)
      /\ (PrimFloat.leb 0 p = true -> PrimFloat.leb p 100 = true ->
          PrimFloat.eqb (bar_width p) p = true)).
Proof.
  intros p. split.
  - intros Hp. unfold bar_width. rewrite Math_max_0, Hp. reflexivity.
  - intros Hp.
    assert (Hpp : PrimFloat.eqb p p = true).
    { unfold is_nan in Hp. now apply negb_false_iff in Hp. }
    destruct (bar_width_range p Hp) as [Hlo Hhi].
    split; [exact Hlo|]. split; [exact Hhi|].
    destruct (bar_width_cases p Hp) as [[H0 ->]|[[H0 [H1 ->]]|[H0 [H1 ->]]]].
    + split; [reflexivity|]. split.
      * intros H. apply above_100_positive in H. congruence.
      * intros Hle _. now apply leb_not_ltb.
    + split; [|split].
      * intros H. apply ltb_asym in H. congruence.
      * intros H. apply ltb_asym in H. congruence.
      * intros _ _. exact Hpp.
    + split; [|split].
      * intros H. apply ltb_asym in H. congruence.
      * reflexivity.
      * intros _ Hle. rewrite eqb_sym. now apply leb_not_ltb.
Qed.


Lemma SFmul_unsigned_finite : forall (x : spec_float) (m : positive) (e : Z),
  unsigned x = true -> unsigned (SF64mul x (S754_finite false m e)) = true.
Proof.
  intros [s|s| |s mx ex] m e Hx; simpl in Hx; try discriminate;
    apply negb_true_iff in Hx; subst; try reflexivity.
  cbv beta iota delta [SF64mul SFmul xorb]. apply binary_round_aux_unsigned. lia.
Qed.

Lemma SFdiv_unsigned_finite : forall (x : spec_float) (m : positive) (e : Z),
  unsigned x = true -> unsigned (SF64div x (S754_finite false m e)) = true.
Proof.
  intros [s|s| |s mx ex] m e Hx; simpl in Hx; try discriminate;
    apply negb_true_iff in Hx; subst; try reflexivity.
  cbv beta iota delta [SF64div SFdiv xorb]. unfold SFdiv_core_binary. cbv zeta.
  match goal with |- context [Z.div_eucl ?a ?b] =>
    assert (Ha : (0 <= a)%Z);
    [ | rewrite (div_eucl_div_mod a b);
        apply binary_round_aux_unsigned; apply Z.div_pos; [exact Ha | lia] ]
  end.
  match goal with |- (0 <= match ?s with _ => _ end)%Z => destruct s end;
    try lia. apply Z.shiftl_nonneg. lia.
Qed.

Lemma Z2F_safe_unsigned : forall k : Z,
  (0 <= k < 2 ^ 53)%Z -> unsigned (Prim2SF (Z2F k)) = true.
Proof.
  intros k Hk. destruct (Z.eq_dec k 0) as [->|Hne]; [reflexivity|].
  destruct (Z2F_normal k ltac:(lia)) as (m & e & Hm & _). now rewrite Hm.
Qed.

(** The progress figure in binary64 carries no minus sign and is not [NaN]. *)
Lemma progress64_unsigned : forall (done : list bool) (L : nat),
  (Z.of_nat (length done) < 2 ^ 53)%Z -> (Z.of_nat L <= 2 ^ 53)%Z ->
  unsigned (Prim2SF (progress done L)) = true.
Proof.
  intros done L Hd HL. unfold progress.
  destruct (Nat.ltb_spec 1 L) as [Hlt|Hge]; [|reflexivity].
  cbn [of_int div mul binary64]. rewrite mul_spec, div_spec.
  destruct (Z2F_normal (Z.of_nat (L - 1)) ltac:(lia)) as (m & e & Hm & _).
  rewrite Hm.
  replace (Prim2SF (Z2F 100)) with (S754_finite false 7036874417766400 (-46))
    by (vm_compute; reflexivity).
  apply SFmul_unsigned_finite, SFdiv_unsigned_finite, Z2F_safe_unsigned.
  pose proof (completedCount_le_length done). lia.
Qed.

Lemma unsigned_not_nan : forall x : float,
  unsigned (Prim2SF x) = true -> is_nan x = false.
Proof.
  intros x Hx. rewrite is_nan_spec. destruct (Prim2SF x); try reflexivity.
  discriminate Hx.
Qed.

(** X15. In binary64, for fewer than 2^53 flags and at most 2^53 checkpoints,
    the progress figure is a number, not [NaN], and is not negative; the
    width of the bar computed from it lies between 0 and 100, also when the
    figure itself exceeds 100. *)
Theorem bar_width_of_progress : forall (done : list bool) (L : nat),
  (Z.of_nat (length done) < 2 ^ 53)%Z -> (Z.of_nat L <= 2 ^ 53)%Z ->
  is_nan (progress done L) = false
  /\ PrimFloat.leb 0 (progress done L) = true
  /\ PrimFloat.leb 0 (bar_width (progress done L)) = true
  /\ PrimFloat.leb (bar_width (progress done L)) 100 = true.
Proof.
  intros done L Hd HL.
  pose proof (progress64_unsigned done L Hd HL) as Hu.
  pose proof (unsigned_not_nan _ Hu) as Hn.
  split; [exact Hn|]. split; [now apply leb_zero_unsigned|].
  now apply bar_width_range.
Qed.

Lemma bar_width_of_progress_witness :
  PrimFloat.leb (bar_width (progress [true; true; true] 3)) 100 = true.
Proof.
  refine (proj2 (proj2 (proj2 (bar_width_of_progress [true; true; true] 3 _ _)))).
  - reflexivity.
  - simpl. lia.
Defined.



(* ------------------------------------------------------------------ *)
(** ** Saving and loading *)

(** [getItem] after [setItem]. *)
Lemma getItem_setItem_same : forall ls key s, getItem (setItem ls key s) key = Some s.
Proof. intros ls key s. unfold getItem, setItem. now rewrite String.eqb_refl. Qed.

Lemma getItem_setItem_other : forall ls key key' s,
  key' <> key -> getItem (setItem ls key s) key' = getItem ls key'.
Proof.
  intros ls key key' s Hne. unfold getItem, setItem.
  destruct (String.eqb_spec key' key); [contradiction | reflexivity].
Qed.

(** What the saving effect stores for a snapshot JSON can write. *)
Lemma save_exact_snapshot : forall (sn : snapshot) (ls : localStorage) (stateKey : string),
  snapshot_exact sn = true ->
  getItem (save ls stateKey (state_of_snapshot sn)) stateKey =
  Some (JSONText (data (state_of_snapshot sn))).
Proof.
  intros sn ls stateKey Hsn. unfold save. rewrite getItem_setItem_same.
  f_equal. exact (export_exact_snapshot sn Hsn).
Qed.

Lemma is_zero_truthy : forall n : float,
  is_zero n = true -> truthy (VNum n) = false.
Proof. intros n Hz. simpl. now rewrite Hz. Qed.

(** X16. For a snapshot whose numbers JSON can write, loading what the saving
    effect stored under the same key restores exactly that snapshot, a
    radius of 0 included, when its count is not zero; when its count is zero
    the loading effect leaves the state as it is.  Saving under one key
    leaves the entries of all other keys as they were. *)
Theorem save_load_round_trip :
  forall (sn : snapshot) (ls : localStorage) (stateKey : string) (w : world),
    snapshot_exact sn = true ->
    (is_zero (snap_checkpointCount sn) = false ->
       load (save ls stateKey (state_of_snapshot sn)) stateKey w =
       (Ok tt, World (state_of_snapshot sn) (alerts w)))
    /\ (is_zero (snap_checkpointCount sn) = true ->
       load (save ls stateKey (state_of_snapshot sn)) stateKey w = (Ok tt, w))
    /\ (forall key, key <> stateKey ->
       getItem (save ls stateKey (state_of_snapshot sn)) key = getItem ls key).
Proof.
  intros sn ls stateKey w Hsn.
  pose proof (save_exact_snapshot sn ls stateKey Hsn) as Hget.
  assert (Hc : number_exact (snap_checkpointCount sn) = true).
  { unfold snapshot_exact in Hsn. rewrite !andb_true_iff in Hsn. tauto. }
  split; [|split].
  - intros Hz. rewrite load_spec, Hget.
    unfold data. cbn [prop lookup String.eqb Ascii.eqb Bool.eqb].
    cbn [state_of_snapshot radius start end_ numCheckpoints done array_of_vec3].
    rewrite (number_exact_truthy _ Hc Hz). reflexivity.
  - intros Hz. rewrite load_spec, Hget.
    unfold data. cbn [prop lookup String.eqb Ascii.eqb Bool.eqb].
    cbn [state_of_snapshot radius start end_ numCheckpoints done array_of_vec3].
    rewrite (is_zero_truthy _ Hz). reflexivity.
  - intros key Hne. unfold save. now apply getItem_setItem_other.
Qed.

Lemma save_load_round_trip_witness :
  load (save (fun _ => None) "nms-line-state-v1"
          (state_of_snapshot (Snapshot default_start default_end 50 0 [true; false])))
       "nms-line-state-v1" (World initial []) =
  (Ok tt, World (state_of_snapshot (Snapshot default_start default_end 50 0 [true; false])) []).
Proof.
  exact (proj1 (save_load_round_trip
                  (Snapshot default_start default_end 50 0 [true; false])
                  (fun _ => None) "nms-line-state-v1" (World initial []) eq_refl)
           eq_refl).
Defined.


(* ------------------------------------------------------------------ *)
(** ** Values typed into the count and radius fields *)

Lemma is_zero_spec : forall x : float,
  is_zero x = match Prim2SF x with S754_zero _ => true | _ => false end.
Proof.
  intros x. unfold is_zero. rewrite eqb_spec.
  change (Prim2SF zero) with (S754_zero false).
  destruct (Prim2SF x) as [s|s| |s m e]; try reflexivity; destruct s; reflexivity.
Qed.

(** A count from 1 to below 2^53 is a number JSON can write, and not zero. *)
Lemma Z2F_number_exact : forall k : Z,
  (1 <= k < 2 ^ 53)%Z -> number_exact (Z2F k) = true /\ is_zero (Z2F k) = false.
Proof.
  intros k Hk. destruct (Z2F_normal k Hk) as (m & e & Hm & _).
  unfold number_exact. rewrite is_finite_spec, is_zero_spec, Hm. split; reflexivity.
Qed.

Lemma radius_input_spec : forall parsed : float,
  radius_input parsed = VNum (if is_zero parsed || is_nan parsed then 500%float else parsed).
Proof.
  intros parsed. unfold radius_input, js_or. simpl.
  destruct (is_zero parsed || is_nan parsed); reflexivity.
Qed.

(** The radius field leaves a number JSON can write, and not zero. *)
Lemma radius_input_exact : forall parsed : float,
  is_finite parsed = true \/ is_nan parsed = true ->
  exists r, radius_input parsed = VNum r /\ number_exact r = true /\ is_zero r = false.
Proof.
  intros parsed Hp. rewrite radius_input_spec.
  destruct (is_zero parsed) eqn:Hz; simpl.
  - exists 500%float. repeat split; reflexivity.
  - destruct (is_nan parsed) eqn:Hn.
    + exists 500%float. repeat split; reflexivity.
    + exists parsed. split; [reflexivity|]. split; [|exact Hz].
      unfold number_exact. rewrite Hz. simpl. rewrite andb_true_r.
      destruct Hp as [Hp|Hp]; [exact Hp | discriminate Hp].
Qed.

(** X17. Whatever is typed into the count field (below 2^53) and into the
    radius field (not infinite), the state after the two edits survives
    export followed by import, and saving followed by loading, unchanged:
    the fields never leave a zero or a [NaN] in the count or the radius. *)
Theorem field_entries_round_trip :
  forall (sn : snapshot) (parsedCount : parseInt_result) (parsedRadius : float) (w : world),
    vec3_exact (snap_start sn) = true -> vec3_exact (snap_end sn) = true ->
    (count_input parsedCount < 2 ^ 53)%Z ->
    is_finite parsedRadius = true \/ is_nan parsedRadius = true ->
    let edited :=
      app (snd ((onChange_numCheckpoints parsedCount ;; onChange_radius parsedRadius)
                  (World (state_of_snapshot sn) []))) in
    handleImportJSON (handleExportJSON edited) w = (Ok tt, World edited (alerts w))
    /\ (forall ls stateKey,
          load (save ls stateKey edited) stateKey w = (Ok tt, World edited (alerts w))).
Proof.
  intros sn pc pr w Hs He Hc Hr edited.
  destruct (radius_input_exact pr Hr) as (r & Er & Hrx & Hrz).
  pose proof (count_input_clamped pc) as H1.
  destruct (Z2F_number_exact (count_input pc) ltac:(lia)) as [Hcx Hcz].
  set (sn' := Snapshot (snap_start sn) (snap_end sn) (Z2F (count_input pc)) r
                (snap_completion sn)).
  assert (Eed : edited = state_of_snapshot sn').
  { unfold edited, onChange_numCheckpoints, onChange_radius, bind, setNumCheckpoints,
      setRadius, update. cbn. rewrite Er. reflexivity. }
  assert (Hsn' : snapshot_exact sn' = true).
  { unfold snapshot_exact, sn'. cbn [snap_start snap_end snap_checkpointCount snap_radius].
    now rewrite Hs, He, Hcx, Hrx. }
  rewrite Eed. split.
  - rewrite export_exact_snapshot, handleImportJSON_spec by exact Hsn'.
    unfold imported, data. cbn [prop lookup String.eqb Ascii.eqb Bool.eqb].
    cbn [state_of_snapshot radius start end_ numCheckpoints done array_of_vec3
         snap_start snap_end snap_checkpointCount snap_radius snap_completion sn'].
    cbn [truthy andb]. unfold js_or.
    rewrite !number_exact_truthy by assumption. reflexivity.
  - intros ls stateKey. rewrite load_spec, save_exact_snapshot by exact Hsn'.
    unfold data. cbn [prop lookup String.eqb Ascii.eqb Bool.eqb].
    cbn [state_of_snapshot radius start end_ numCheckpoints done array_of_vec3
         snap_start snap_end snap_checkpointCount snap_radius snap_completion sn'].
    rewrite (number_exact_truthy _ Hcx Hcz). reflexivity.
Qed.

Lemma field_entries_round_trip_witness :
  let edited :=
    app (snd ((onChange_numCheckpoints (Some 0%Z) ;; onChange_radius 0)
                (World (state_of_snapshot (Snapshot default_start default_end 50 500 [])) []))) in
  handleImportJSON (handleExportJSON edited) (World initial []) =
  (Ok tt, World edited []).
Proof.
  refine (proj1 (field_entries_round_trip
                   (Snapshot default_start default_end 50 500 []) (Some 0%Z) 0
                   (World initial []) eq_refl eq_refl _ _)).
  - reflexivity.
  - left. reflexivity.
Defined.



(* ------------------------------------------------------------------ *)
(** ** The start and end inputs *)

Lemma split_nonempty : forall (sep : ascii) (str : string), split sep str <> [].
Proof.
  intros sep str. destruct str as [|c str]; simpl; [discriminate|].
  destruct (Ascii.eqb c sep); [discriminate|].
  destruct (split sep str); discriminate.
Qed.

(** [split] gives one piece more than there are separators. *)
Lemma split_length : forall (sep : ascii) (str : string),
  length (split sep str) = S (occurrences sep str).
Proof.
  intros sep. induction str as [|c str IH]; simpl; [reflexivity|].
  destruct (Ascii.eqb c sep); simpl; [now rewrite IH|].
  pose proof (split_nonempty sep str) as Hne.
  destruct (split sep str) as [|piece pieces]; [congruence|]. exact IH.
Qed.

Section TextInputFacts.

Variable parseFloat : string -> float.
Variable trim : string -> string.

(** What [parseVec3] returns when it returns a vector. *)
Lemma parseVec3_Some : forall (str : string) (v : list float),
  parseVec3 parseFloat trim str = Some v ->
  v = map (fun s => parseFloat (trim s)) (split "," str)
  /\ length v = 3%nat
  /\ existsb is_nan v = false.
Proof.
  intros str v. unfold parseVec3.
  destruct (Nat.eqb_spec (length (map (fun s => parseFloat (trim s)) (split "," str))) 3)
    as [Hlen|Hlen]; simpl; [|discriminate].
  destruct (existsb is_nan (map (fun s => parseFloat (trim s)) (split "," str))) eqn:Hnan;
    [discriminate|].
  intros E. injection E as <-. auto.
Qed.

(** X18. [parseVec3] returns a vector only for a text with exactly two commas
    whose three pieces all parse to numbers other than [NaN], and then
    returns those three numbers in order; a text with another number of
    commas (the empty text among them), or with a piece that parses to
    [NaN], gives [null]. *)
Theorem parseVec3_accepts_three_numbers : forall str : string,
  (forall v, parseVec3 parseFloat trim str = Some v ->
     occurrences "," str = 2%nat
     /\ (exists a b c, v = [a; b; c]
           /\ is_nan a = false /\ is_nan b = false /\ is_nan c = false
           /\ vec3_of_array (VArr (map VNum v)) = Some (Vec3 a b c))
     /\ v = map (fun s => parseFloat (trim s)) (split "," str))
  /\ (occurrences "," str <> 2%nat -> parseVec3 parseFloat trim str = None)
  /\ (forall piece, In piece (split "," str) -> is_nan (parseFloat (trim piece)) = true ->
        parseVec3 parseFloat trim str = None)
  /\ (occurrences "," str = 2%nat ->
      (forall piece, In piece (split "," str) -> is_nan (parseFloat (trim piece)) = false) ->
      parseVec3 parseFloat trim str = Some (map (fun s => parseFloat (trim s)) (split "," str))).
Proof.
  intros str. split; [|split; [|split]].
  - intros v Hv. destruct (parseVec3_Some str v Hv) as (Ev & Hlen & Hnan).
    split; [|split; [|exact Ev]].
    + rewrite Ev, length_map, split_length in Hlen. lia.
    + destruct v as [|a [|b [|c [|d v]]]]; try discriminate Hlen.
      exists a, b, c. simpl in Hnan.
      rewrite orb_false_r in Hnan. apply orb_false_elim in Hnan as [Ha Hbc].
      apply orb_false_elim in Hbc as [Hb Hc]. repeat split; assumption.
  - intros Hocc. unfold parseVec3. rewrite length_map, split_length.
    destruct (Nat.eqb_spec (S (occurrences "," str)) 3); [lia | reflexivity].
  - intros piece Hin Hnan. unfold parseVec3.
    assert (Hex : existsb is_nan (map (fun s => parseFloat (trim s)) (split "," str)) = true).
    { apply existsb_exists. exists (parseFloat (trim piece)). split; [|exact Hnan].
      apply in_map_iff. now exists piece. }
    rewrite Hex. now rewrite orb_true_r.
  - intros Hocc Hall. unfold parseVec3. rewrite length_map, split_length, Hocc. simpl.
    destruct (existsb is_nan (map (fun s => parseFloat (trim s)) (split "," str))) eqn:Hex;
      [|reflexivity].
    apply existsb_exists in Hex as (n & Hin & Hn).
    apply in_map_iff in Hin as (piece & <- & Hp). rewrite (Hall piece Hp) in Hn. discriminate.
Qed.

(** X19. Leaving the start or the end input with a text that [parseVec3]
    rejects changes no cell and shows no notice; with an accepted text it
    sets that one cell to the three numbers, none of them [NaN], and leaves
    the other four cells and the notices as they were. *)
Theorem onBlur_keeps_vectors_valid : forall (str : string) (w : world),
  (parseVec3 parseFloat trim str = None ->
     onBlur_start parseFloat trim str w = (Ok tt, w)
     /\ onBlur_end parseFloat trim str w = (Ok tt, w))
  /\ (forall v, parseVec3 parseFloat trim str = Some v ->
     exists a b c,
       v = [a; b; c]
       /\ is_nan a = false /\ is_nan b = false /\ is_nan c = false
       /\ onBlur_start parseFloat trim str w =
          (Ok tt, World (State (radius (app w)) (array_of_vec3 (Vec3 a b c)) (end_ (app w))
                           (numCheckpoints (app w)) (done (app w)))
                    (alerts w))
       /\ onBlur_end parseFloat trim str w =
          (Ok tt, World (State (radius (app w)) (start (app w)) (array_of_vec3 (Vec3 a b c))
                           (numCheckpoints (app w)) (done (app w)))
                    (alerts w))).
Proof.
  intros str w. split.
  - intros Hnone. unfold onBlur_start, onBlur_end. rewrite Hnone. split; reflexivity.
  - intros v Hv. destruct (parseVec3_Some str v Hv) as (Ev & Hlen & Hnan).
    destruct v as [|a [|b [|c [|d v]]]]; try discriminate Hlen.
    exists a, b, c. simpl in Hnan.
    rewrite orb_false_r in Hnan. apply orb_false_elim in Hnan as [Ha Hbc].
    apply orb_false_elim in Hbc as [Hb Hc].
    unfold onBlur_start, onBlur_end. rewrite Hv. repeat split; assumption.
Qed.

End TextInputFacts.

(* ------------------------------------------------------------------ *)
(** ** The cells that the loading effect tests *)

Lemma truthy_js_or : forall v d : value, truthy d = true -> truthy (js_or v d) = true.
Proof. intros v d Hd. unfold js_or. destruct (truthy v) eqn:Hv; assumption. Qed.

Section GuardFacts.

Variable parseFloat : string -> float.
Variable trim : string -> string.

(** X20. The initial state passes the test [start && end && numCheckpoints]
    of the loading effect, and every handler keeps a state that passes it
    passing: import, load, the count field (for counts below 2^53), the
    radius field and the start and end inputs.  So the count is never left
    0 or [NaN]. *)
Theorem handlers_keep_guard : forall w : world,
  guard (app w) = true ->
  (forall file, guard (app (snd (handleImportJSON file w))) = true)
  /\ (forall ls stateKey, guard (app (snd (load ls stateKey w))) = true)
  /\ (forall parsed, (count_input parsed < 2 ^ 53)%Z ->
        guard (app (snd (onChange_numCheckpoints parsed w))) = true)
  /\ (forall parsed, guard (app (snd (onChange_radius parsed w))) = true)
  /\ (forall str, guard (app (snd (onBlur_start parseFloat trim str w))) = true
                  /\ guard (app (snd (onBlur_end parseFloat trim str w))) = true)
  /\ guard initial = true.
Proof.
  intros w Hw. pose proof Hw as Hw'. unfold guard in Hw'.
  rewrite !andb_true_iff in Hw'. destruct Hw' as [[Hs He] Hn].
  split; [|split; [|split; [|split; [|split]]]].
  - intros file. rewrite handleImportJSON_spec.
    destruct file as [| |obj]; try exact Hw.
    destruct obj as [| |b|n|s|elems|props]; try exact Hw.
    cbn [prop].
    destruct (truthy (lookup "start" props) && truthy (lookup "end" props)) eqn:Hg;
      [|exact Hw].
    apply andb_true_iff in Hg as [Hs' He'].
    unfold guard, imported. cbn [snd app start end_ numCheckpoints prop].
    rewrite Hs', He'. now rewrite truthy_js_or.
  - intros ls stateKey. rewrite load_spec.
    destruct (getItem ls stateKey) as [[| |obj]|]; try exact Hw.
    destruct obj as [| |b|n|s|elems|props]; try exact Hw.
    cbn [prop].
    destruct (truthy (lookup "start" props) && truthy (lookup "end" props)
              && truthy (lookup "numCheckpoints" props)) eqn:Hg; [|exact Hw].
    exact Hg.
  - intros parsed Hc. pose proof (count_input_clamped parsed) as H1.
    destruct (Z2F_number_exact (count_input parsed) ltac:(lia)) as [Hx Hz].
    unfold guard. cbn. rewrite Hs, He. exact (number_exact_truthy _ Hx Hz).
  - intros parsed. exact Hw.
  - intros str. unfold onBlur_start, onBlur_end.
    destruct (parseVec3 parseFloat trim str) as [v|]; [|split; exact Hw].
    unfold guard. cbn. rewrite Hs, He, Hn. split; reflexivity.
  - reflexivity.
Qed.

End GuardFacts.

Lemma handlers_keep_guard_witness :
  guard (app (snd (handleImportJSON NotJSON (World initial [])))) = true.
Proof.
  exact (proj1 (handlers_keep_guard (fun _ => 0%float) (fun s => s) (World initial []) eq_refl)
           NotJSON).
Defined.


(* ------------------------------------------------------------------ *)
(** ** The CSV text *)

Lemma occurrences_app : forall (c : ascii) (a b : string),
  occurrences c (a ++ b) = (occurrences c a + occurrences c b)%nat.
Proof.
  intros c. induction a as [|c' a IH]; intros b; simpl; [reflexivity|].
  rewrite IH. lia.
Qed.

Lemma split_without : forall (sep : ascii) (a : string),
  occurrences sep a = 0%nat -> split sep a = [a].
Proof.
  intros sep. induction a as [|c a IH]; intros Ha; simpl in *; [reflexivity|].
  destruct (Ascii.eqb c sep); [discriminate|]. now rewrite IH.
Qed.

Lemma split_app_sep : forall (sep : ascii) (a rest : string),
  occurrences sep a = 0%nat ->
  split sep (a ++ String sep rest) = a :: split sep rest.
Proof.
  intros sep. induction a as [|c a IH]; intros rest Ha; simpl in *.
  - now rewrite Ascii.eqb_refl.
  - destruct (Ascii.eqb c sep); [discriminate|]. now rewrite IH.
Qed.

(** Splitting what [join] wrote gives the parts back, when no part holds the
    separator. *)
Lemma split_join : forall (sep : ascii) (parts : list string),
  parts <> [] ->
  (forall p, In p parts -> occurrences sep p = 0%nat) ->
  split sep (join (String sep EmptyString) parts) = parts.
Proof.
  intros sep. induction parts as [|p parts IH]; intros Hne Hall; [congruence|].
  destruct parts as [|q parts].
  - simpl. apply split_without. apply Hall. now left.
  - change (join (String sep EmptyString) (p :: q :: parts))
      with (p ++ String sep (join (String sep EmptyString) (q :: parts)))%string.
    rewrite split_app_sep by (apply Hall; now left).
    f_equal. apply IH; [discriminate|]. intros r Hr. apply Hall. now right.
Qed.

Lemma occurrences_join : forall (c : ascii) (sep : string) (parts : list string),
  occurrences c sep = 0%nat ->
  (forall p, In p parts -> occurrences c p = 0%nat) ->
  occurrences c (join sep parts) = 0%nat.
Proof.
  intros c sep. induction parts as [|p parts IH]; intros Hsep Hall; [reflexivity|].
  destruct parts as [|q parts].
  - simpl. apply Hall. now left.
  - change (join sep (p :: q :: parts)) with (p ++ sep ++ join sep (q :: parts))%string.
    rewrite !occurrences_app, Hsep, (Hall p) by now left.
    rewrite IH; [reflexivity | exact Hsep |]. intros r Hr. apply Hall. now right.
Qed.

Lemma map_map_index : forall (A B C : Type) (f : B -> C) (g : A -> nat -> B)
    (rows : list A) (i0 : nat),
  map f (map_index g i0 rows) = map_index (fun r i => f (g r i)) i0 rows.
Proof.
  intros A B C f g. induction rows as [|r rows IH]; intros i0; simpl; [reflexivity|].
  now rewrite IH.
Qed.

Lemma map_index_ext : forall (A B : Type) (f g : A -> nat -> B) (rows : list A) (i0 : nat),
  (forall r i, f r i = g r i) -> map_index f i0 rows = map_index g i0 rows.
Proof.
  intros A B f g. induction rows as [|r rows IH]; intros i0 Hfg; simpl; [reflexivity|].
  now rewrite Hfg, IH.
Qed.

Lemma map_index_length : forall (A B : Type) (f : A -> nat -> B) (rows : list A) (i0 : nat),
  length (map_index f i0 rows) = length rows.
Proof.
  intros A B f. induction rows as [|r rows IH]; intros i0; simpl; [reflexivity|].
  now rewrite IH.
Qed.

Lemma map_index_In : forall (A B : Type) (f : A -> nat -> B) (rows : list A) (i0 : nat) (b : B),
  In b (map_index f i0 rows) -> exists r i, b = f r i.
Proof.
  intros A B f. induction rows as [|r rows IH]; intros i0 b Hb; simpl in Hb; [destruct Hb|].
  destruct Hb as [<-|Hb]; [now exists r, i0 | now apply (IH (S i0))].
Qed.

Section CsvFacts.

Variable Number_toString : float -> string.

(** The lines of the text of [toCSV]. *)
Lemma toCSV_lines :
  (forall n, occurrences "010" (Number_toString n) = 0%nat) ->
  forall rows : list (point float),
    rows <> [] ->
    split "010" (toCSV Number_toString rows) =
    "index,x,y,z,t"%string :: map_index (csv_row Number_toString) 0 rows.
Proof.
  intros Hnl rows Hne. unfold toCSV. cbv zeta.
  change (join "," ["index"; "x"; "y"; "z"; "t"]%string) with "index,x,y,z,t"%string.
  change (newline ++ join newline (map_index (csv_row Number_toString) 0 rows))%string
    with (String "010" (join (String "010" EmptyString)
                          (map_index (csv_row Number_toString) 0 rows))).
  rewrite split_app_sep by reflexivity. f_equal.
  apply split_join.
  - destruct rows; [congruence | discriminate].
  - intros p Hp. apply map_index_In in Hp as (r & i & ->).
    unfold csv_row, csv_fields. apply occurrences_join; [reflexivity|].
    intros q Hq. apply in_map_iff in Hq as (n & <- & _). apply Hnl.
Qed.

(** X21. When the conversion of a number to a string writes no comma and no
    line feed, the text of [toCSV] can be read back: split at the line
    feeds and then at the commas, it gives the header [index, x, y, z, t]
    followed by one line per row, holding the row's index and its four
    numbers.  For a count [n >= 0] the text copied for the checkpoint list
    has [n + 2] lines.  For no rows at all the text is the header followed
    by a line feed. *)
Theorem toCSV_reads_back :
  (forall n, occurrences "," (Number_toString n) = 0%nat) ->
  (forall n, occurrences "010" (Number_toString n) = 0%nat) ->
  (forall rows : list (point float),
      rows <> [] ->
      map (split ",") (split "010" (toCSV Number_toString rows)) =
      ["index"; "x"; "y"; "z"; "t"]%string :: map_index (csv_fields Number_toString) 0 rows)
  /\ (forall (start end_ : vec3 float) (n : Z),
      (0 <= n)%Z ->
      length (split "010" (handleCopyCSV Number_toString (linePoints start end_ n))) =
      (Z.to_nat n + 2)%nat)
  /\ toCSV Number_toString [] = ("index,x,y,z,t" ++ newline)%string.
Proof.
  intros Hcomma Hnl. split; [|split; [|reflexivity]].
  - intros rows Hne. rewrite (toCSV_lines Hnl rows Hne).
    cbn [map]. f_equal.
    rewrite map_map_index. apply map_index_ext. intros r i.
    unfold csv_row. apply split_join; [discriminate|].
    intros q Hq. apply in_map_iff in Hq as (n & <- & _). apply Hcomma.
  - intros start end_ n Hn. unfold handleCopyCSV.
    assert (Hlen : length (linePoints start end_ n) = Z.to_nat (n + 1))
      by apply linePoints_length.
    rewrite toCSV_lines.
    + simpl. rewrite map_index_length, Hlen. lia.
    + exact Hnl.
    + intros E. rewrite E in Hlen. simpl in Hlen. lia.
Qed.

End CsvFacts.

Lemma toCSV_reads_back_witness :
  map (split ",")
      (split "010" (toCSV (fun _ => "0"%string) [Point 0 0 0 0; Point 1 2 3 1]%float)) =
  ["index"; "x"; "y"; "z"; "t"]%string
  :: map_index (csv_fields (fun _ => "0"%string)) 0 [Point 0 0 0 0; Point 1 2 3 1]%float.
Proof.
  refine (proj1 (toCSV_reads_back (fun _ => "0"%string) _ _) _ _).
  - intros n. reflexivity.
  - intros n. reflexivity.
  - discriminate.
Defined.


(* ------------------------------------------------------------------ *)
(** ** The text shown in the start and end inputs *)

Section VectorText.

Variable parseFloat : string -> float.
Variable trim : string -> string.
Variable Number_toString : float -> string.


End VectorText.


(* ------------------------------------------------------------------ *)
(** ** Numbers shown with two decimals *)

Section FormatFacts.

Variable Number_toString : float -> string.

Lemma zeros_length : forall k, String.length (zeros k) = k.
Proof. induction k as [|k IH]; simpl; [reflexivity | now rewrite IH]. Qed.

Lemma append_length : forall a b : string,
  String.length (a ++ b) = (String.length a + String.length b)%nat.
Proof. induction a as [|c a IH]; intros b; simpl; [reflexivity | now rewrite IH]. Qed.

Lemma substring_prefix_length : forall (s : string) (j : nat),
  (j <= String.length s)%nat -> String.length (substring 0 j s) = j.
Proof.
  induction s as [|c s IH]; intros j Hj; simpl in Hj.
  - now replace j with O by lia.
  - destruct j as [|j]; [reflexivity|]. simpl. rewrite IH by lia. reflexivity.
Qed.

Lemma substring_suffix_length : forall (s : string) (j k : nat),
  (j + k <= String.length s)%nat -> String.length (substring j k s) = k.
Proof.
  induction s as [|c s IH]; intros j k Hj; simpl in Hj.
  - replace j with O by lia. now replace k with O by lia.
  - destruct j as [|j].
    + destruct k as [|k]; [reflexivity|]. simpl.
      rewrite (IH 0%nat k) by lia. reflexivity.
    + simpl. apply IH. lia.
Qed.

Lemma substring_0_0 : forall s : string, substring 0 0 s = EmptyString.
Proof. intros [|c s]; reflexivity. Qed.

(** A string is its first [j] characters followed by the rest. *)
Lemma substring_split : forall (s : string) (j k : nat),
  (j + k = String.length s)%nat ->
  (substring 0 j s ++ substring j k s)%string = s.
Proof.
  induction s as [|c s IH]; intros j k Hj; simpl in Hj.
  - replace j with O by lia. now replace k with O by lia.
  - destruct j as [|j].
    + destruct k as [|k]; [lia|].
      change (String c (substring 0 k s) = String c s). f_equal.
      specialize (IH 0%nat k ltac:(lia)). now rewrite substring_0_0 in IH.
    + change (String c (substring 0 j s ++ substring j k s) = String c s).
      f_equal. apply IH. lia.
Qed.

(** The digits before and behind the point. *)
Lemma toFixed_2_shape : forall num den : Z,
  exists a b : string,
    toFixed_2 num den = (a ++ "." ++ b)%string
    /\ String.length b = 2%nat
    /\ (1 <= String.length a)%nat
    /\ (a ++ b)%string =
       (let n := nearest_hundredths num den in
        let m := if (n =? 0)%Z then "0"%string else decimal n in
        zeros (3 - String.length m) ++ m)%string.
Proof.
  intros num den. unfold toFixed_2. cbv zeta.
  set (n := nearest_hundredths num den).
  set (m := if (n =? 0)%Z then "0"%string else decimal n).
  destruct (Nat.leb_spec (String.length m) 2) as [Hk|Hk].
  - set (m' := (zeros (2 + 1 - String.length m) ++ m)%string).
    assert (Hlen : String.length m' = 3%nat).
    { unfold m'. rewrite append_length, zeros_length. lia. }
    exists (substring 0 (2 + 1 - 2) m'), (substring (2 + 1 - 2) 2 m').
    split; [reflexivity|]. split; [apply substring_suffix_length; lia|].
    split; [rewrite substring_prefix_length; simpl; lia|].
    rewrite substring_split by (rewrite Hlen; reflexivity). reflexivity.
  - exists (substring 0 (String.length m - 2) m), (substring (String.length m - 2) 2 m).
    split; [reflexivity|]. split; [apply substring_suffix_length; lia|].
    split; [rewrite substring_prefix_length; lia|].
    rewrite substring_split by lia.
    now replace (3 - String.length m)%nat with O by lia.
Qed.

(** [nearest_hundredths] is within a half of a hundred times [num / den],
    the larger integer at a tie. *)
Lemma nearest_hundredths_spec : forall num den : Z,
  (0 < den)%Z ->
  let n := nearest_hundredths num den in
  (2 * den * n <= 2 * 100 * num + den < 2 * den * (n + 1))%Z.
Proof.
  intros num den Hden n. unfold n, nearest_hundredths.
  pose proof (Z.div_mod (2 * 100 * num + den) (2 * den) ltac:(lia)) as Hdm.
  pose proof (Z.mod_pos_bound (2 * 100 * num + den) (2 * den) ltac:(lia)) as Hb.
  lia.
Qed.

Lemma magnitude_den_pos : forall m e, (0 < snd (magnitude m e))%Z.
Proof.
  intros m e. unfold magnitude. destruct (Z.leb_spec 0 e) as [He|He]; cbn [snd]; [lia|].
  apply Z.pow_pos_nonneg; lia.
Qed.

(** X23. [formatNum] writes a zero of either sign as "0.00".  A finite number
    of magnitude [num / den] below 10^21 is written as its sign (a minus
    or nothing), at least one digit, a point and exactly two digits; the
    digits are those of the integer [k] nearest to a hundred times the
    magnitude, the larger one at a tie, padded with zeros to three digits.
    [NaN] and the infinities are written as the conversion of a number to a
    string writes them. *)
Theorem formatNum_two_decimals : forall n : float,
  (is_finite n = false -> formatNum Number_toString n = Number_toString n)
  /\ (is_zero n = true -> formatNum Number_toString n = "0.00"%string)
  /\ (forall (s : bool) (m : positive) (e num den : Z),
        Prim2SF n = S754_finite s m e ->
        magnitude m e = (num, den) ->
        (num < 10 ^ 21 * den)%Z ->
        exists a b : string,
          formatNum Number_toString n = ((if s then "-" else EmptyString) ++ a ++ "." ++ b)%string
          /\ String.length b = 2%nat
          /\ (1 <= String.length a)%nat
          /\ (let k := nearest_hundredths num den in
              (a ++ b)%string =
                (let d := if (k =? 0)%Z then "0"%string else decimal k in
                 zeros (3 - String.length d) ++ d)%string
              /\ (0 <= k)%Z
              /\ (2 * den * k <= 2 * 100 * num + den < 2 * den * (k + 1))%Z)).
Proof.
  intros n. unfold formatNum. rewrite is_finite_spec, is_zero_spec.
  split; [|split].
  - destruct (Prim2SF n) as [s|s| |s m e]; try reflexivity; discriminate.
  - destruct (Prim2SF n) as [s|s| |s m e]; try reflexivity; discriminate.
  - intros s m e num den -> Hmag Hlt. rewrite Hmag.
    pose proof (magnitude_den_pos m e) as Hden.
    assert (Hnum : (0 < fst (magnitude m e))%Z).
    { unfold magnitude. destruct (Z.leb_spec 0 e) as [He|He]; cbn [fst]; [|lia].
      apply Z.mul_pos_pos; [lia | apply Z.pow_pos_nonneg; lia]. }
    rewrite Hmag in Hden, Hnum. simpl in Hden, Hnum.
    destruct (Z.leb_spec (10 ^ 21 * den) num) as [Hge|_]; [lia|].
    destruct (toFixed_2_shape num den) as (a & b & E & Hb & Ha & Hab).
    exists a, b. rewrite E. split; [reflexivity|]. split; [exact Hb|]. split; [exact Ha|].
    cbv zeta. split; [exact Hab|].
    pose proof (nearest_hundredths_spec num den Hden) as Hn. cbv zeta in Hn.
    split; [|exact Hn].
    unfold nearest_hundredths. apply Z.div_pos; lia.
Qed.

End FormatFacts.
